(** * The flash file system (ffs): on-disk layout and in-RAM object model

    A shallow embedding of [ffs_priv.h]: the layout constants, the three
    on-disk structures ([ffs_disk_block], [ffs_disk_inode], [ffs_disk_area])
    with the byte offsets a C compiler assigns to their members, the in-RAM
    objects ([ffs_base], [ffs_block], [ffs_inode], [ffs_file]) and the
    operations the header declares on them.  The header only declares the
    operations; their bodies are modelled from the specification of the
    file system, and say so. *)

From Stdlib Require Import ZArith List Lia Bool Permutation.
From Stdlib Require Strings.String.
Import ListNotations String.StringSyntax.
Local Open Scope string_scope.
Local Open Scope Z_scope.

(** ** C scalar types, alignment and struct layout *)

(** The fixed-width integer types of [<inttypes.h>] used by the header. *)
Inductive scalar : Type := uint8_t | uint16_t | uint32_t.

Definition scalar_size (s : scalar) : Z :=
  match s with
  | uint8_t => 1
  | uint16_t => 2
  | uint32_t => 4
  end.

(** A member is a scalar or a fixed-length array of scalars
    ([uint32_t fds_magic[4]]). *)
Inductive ctype : Type :=
| Scalar (s : scalar)
| Array (s : scalar) (n : Z).

Definition elem_type (t : ctype) : scalar :=
  match t with
  | Scalar s => s
  | Array s _ => s
  end.

Definition elem_count (t : ctype) : Z :=
  match t with
  | Scalar _ => 1
  | Array _ n => n
  end.

Definition sizeof_type (t : ctype) : Z := elem_count t * scalar_size (elem_type t).

(** The alignment each scalar type requires is fixed by the target ABI, not
    by the header: none of the structures carries a packing attribute.  An
    ABI is given by the alignment of the 16-bit and of the 32-bit type (a
    byte is always 1-aligned). *)
Record abi : Type := { align16 : Z; align32 : Z }.

(** Natural alignment: every scalar is aligned to its size.  This is the
    rule of the ARM EABI and of the x86 System V ABI, the targets the file
    system is built for. *)
Definition natural_abi : abi := {| align16 := 2; align32 := 4 |}.

(** Byte alignment everywhere, as a packing attribute would give. *)
Definition packed_abi : abi := {| align16 := 1; align32 := 1 |}.

(** An alignment is a power of two that does not exceed the size. *)
Definition valid_abi (a : abi) : bool :=
  ((align16 a =? 1) || (align16 a =? 2))
  && ((align32 a =? 1) || (align32 a =? 2) || (align32 a =? 4)).

Definition scalar_align (a : abi) (s : scalar) : Z :=
  match s with
  | uint8_t => 1
  | uint16_t => align16 a
  | uint32_t => align32 a
  end.

Definition type_align (a : abi) (t : ctype) : Z := scalar_align a (elem_type t).

Record field : Type := { fld_name : String.string; fld_type : ctype }.

Definition fld (t : ctype) (name : String.string) : field :=
  {| fld_name := name; fld_type := t |}.

(** Round [off] up to the next multiple of [al]. *)
Definition align_up (off al : Z) : Z := ((off + al - 1) / al) * al.

(** Offsets of the members, in declaration order: each member is placed at
    the first suitably aligned offset after the previous one. *)
Fixpoint offsets_from (a : abi) (off : Z) (fs : list field) : list (String.string * Z) :=
  match fs with
  | [] => []
  | f :: rest =>
      let o := align_up off (type_align a (fld_type f)) in
      (fld_name f, o) :: offsets_from a (o + sizeof_type (fld_type f)) rest
  end.

(** The offset just past the last member. *)
Fixpoint end_from (a : abi) (off : Z) (fs : list field) : Z :=
  match fs with
  | [] => off
  | f :: rest =>
      let o := align_up off (type_align a (fld_type f)) in
      end_from a (o + sizeof_type (fld_type f)) rest
  end.

Definition struct_align (a : abi) (fs : list field) : Z :=
  fold_right Z.max 1 (map (fun f => type_align a (fld_type f)) fs).

(** [sizeof (struct ...)]: the end offset rounded up to the alignment of the
    structure. *)
Definition sizeof_struct (a : abi) (fs : list field) : Z :=
  align_up (end_from a 0 fs) (struct_align a fs).

Fixpoint assoc_offset (name : String.string) (l : list (String.string * Z)) : option Z :=
  match l with
  | [] => None
  | (n, o) :: rest => if String.eqb n name then Some o else assoc_offset name rest
  end.

(** [offsetof (struct ..., name)]. *)
Definition offsetof (a : abi) (fs : list field) (name : String.string) : option Z :=
  assoc_offset name (offsets_from a 0 fs).

(** The declared members as (name, width in bytes), in order. *)
Definition field_widths (fs : list field) : list (String.string * Z) :=
  map (fun f => (fld_name f, sizeof_type (fld_type f))) fs.

(** Number of padding bytes the layout inserts (between members and at the
    end). *)
Definition padding_bytes (a : abi) (fs : list field) : Z :=
  sizeof_struct a fs - fold_right Z.add 0 (map (fun f => sizeof_type (fld_type f)) fs).

(** Every member immediately follows the previous one. *)
Definition packed_layout (a : abi) (fs : list field) : bool :=
  padding_bytes a fs =? 0.

(** ** Constants of [ffs_priv.h] *)

Definition FFS_ID_NONE : Z := 0xffffffff.

Definition FFS_AREA_MAGIC0 : Z := 0xb98a31e2.
Definition FFS_AREA_MAGIC1 : Z := 0x7fb0428c.
Definition FFS_AREA_MAGIC2 : Z := 0xace08253.
Definition FFS_AREA_MAGIC3 : Z := 0xb185fc8e.
Definition FFS_BLOCK_MAGIC : Z := 0x53ba23b9.
Definition FFS_INODE_MAGIC : Z := 0x925f8bc0.

Definition FFS_AREA_OFFSET_IS_SCRATCH : Z := 23.

Definition FFS_SHORT_FILENAME_LEN : Z := 16.

Definition FFS_BLOCK_SIZE : Z := 512.

Definition FFS_HASH_SIZE : Z := 256.

Definition FFS_MAX_AREAS : Z := 32.

Definition FFS_INODE_F_DELETED : Z := 0x01.
Definition FFS_INODE_F_DUMMY : Z := 0x02.
Definition FFS_INODE_F_DIRECTORY : Z := 0x04.
Definition FFS_INODE_F_TEST : Z := 0x80.

Definition FFS_BLOCK_F_DELETED : Z := 0x01.

Definition FFS_BLOCK_MAX_DATA_SZ : Z := 2048.

Definition FFS_OBJECT_TYPE_INODE : Z := 1.
Definition FFS_OBJECT_TYPE_BLOCK : Z := 2.

(** ** The on-disk structures *)

(** [struct ffs_disk_block]; followed on disk by [fdb_data_len] bytes of
    data. *)
Definition ffs_disk_block_fields : list field :=
  [ fld (Scalar uint32_t) "fdb_magic";
    fld (Scalar uint32_t) "fdb_id";
    fld (Scalar uint32_t) "fdb_seq";
    fld (Scalar uint32_t) "fdb_rank";
    fld (Scalar uint32_t) "fdb_inode_id";
    fld (Scalar uint16_t) "reserved16";
    fld (Scalar uint16_t) "fdb_flags";
    fld (Scalar uint16_t) "fdb_data_len";
    fld (Scalar uint32_t) "fdb_ecc" ].

(** [struct ffs_disk_inode]; followed on disk by the filename. *)
Definition ffs_disk_inode_fields : list field :=
  [ fld (Scalar uint32_t) "fdi_magic";
    fld (Scalar uint32_t) "fdi_id";
    fld (Scalar uint32_t) "fdi_seq";
    fld (Scalar uint32_t) "fdi_parent_id";
    fld (Scalar uint16_t) "fdi_flags";
    fld (Scalar uint8_t) "fdi_filename_len";
    fld (Scalar uint32_t) "fdi_ecc" ].

(** [struct ffs_disk_area]. *)
Definition ffs_disk_area_fields : list field :=
  [ fld (Array uint32_t 4) "fds_magic";
    fld (Scalar uint32_t) "fds_length";
    fld (Scalar uint16_t) "reserved16";
    fld (Scalar uint8_t) "fds_seq";
    fld (Scalar uint8_t) "fds_is_scratch" ].

(** [FFS_BLOCK_DATA_LEN] is [FFS_BLOCK_SIZE - sizeof (struct ffs_disk_block)]. *)
Definition FFS_BLOCK_DATA_LEN (a : abi) : Z :=
  FFS_BLOCK_SIZE - sizeof_struct a ffs_disk_block_fields.

(** ** Values of the on-disk structures *)

(** A value of [struct ffs_disk_block] (the header's second member named
    [reserved16] is [fdb_reserved16] here). *)
Record ffs_disk_block : Type := {
  fdb_magic : Z;
  fdb_id : Z;
  fdb_seq : Z;
  fdb_rank : Z;
  fdb_inode_id : Z;
  fdb_reserved16 : Z;
  fdb_flags : Z;
  fdb_data_len : Z;
  fdb_ecc : Z
}.

(** A value of [struct ffs_disk_inode]. *)
Record ffs_disk_inode : Type := {
  fdi_magic : Z;
  fdi_id : Z;
  fdi_seq : Z;
  fdi_parent_id : Z;
  fdi_flags : Z;
  fdi_filename_len : Z;
  fdi_ecc : Z
}.

(** A value of [struct ffs_disk_area] ([fds_reserved16] is the member
    [reserved16]). *)
Record ffs_disk_area : Type := {
  fds_magic : list Z;
  fds_length : Z;
  fds_reserved16 : Z;
  fds_seq : Z;
  fds_is_scratch : Z
}.

(** Range of an unsigned scalar. *)
Definition in_range (s : scalar) (v : Z) : bool :=
  (0 <=? v) && (v <? 2 ^ (8 * scalar_size s)).

Definition ffs_disk_block_values (d : ffs_disk_block) : list (list Z) :=
  [ [fdb_magic d]; [fdb_id d]; [fdb_seq d]; [fdb_rank d]; [fdb_inode_id d];
    [fdb_reserved16 d]; [fdb_flags d]; [fdb_data_len d]; [fdb_ecc d] ].

Definition ffs_disk_inode_values (d : ffs_disk_inode) : list (list Z) :=
  [ [fdi_magic d]; [fdi_id d]; [fdi_seq d]; [fdi_parent_id d];
    [fdi_flags d]; [fdi_filename_len d]; [fdi_ecc d] ].

Definition ffs_disk_area_values (d : ffs_disk_area) : list (list Z) :=
  [ fds_magic d; [fds_length d]; [fds_reserved16 d]; [fds_seq d];
    [fds_is_scratch d] ].

(** The values of a structure fit their members: the right number of
    elements, each in the range of the member's scalar type. *)
Fixpoint values_fit (fs : list field) (vals : list (list Z)) : bool :=
  match fs, vals with
  | [], [] => true
  | f :: fr, v :: vr =>
      (Z.of_nat (length v) =? elem_count (fld_type f))
      && forallb (in_range (elem_type (fld_type f))) v
      && values_fit fr vr
  | _, _ => false
  end.

(** ** Byte images *)

(** The least significant byte of [v], and [v] without it. *)
Definition low_byte (v : Z) : Z := v mod 256.

Definition drop_byte (v : Z) : Z := v / 256.

(** The [n] bytes of [v], least significant first: the targets are
    little-endian. *)
Fixpoint le_bytes (n : nat) (v : Z) : list Z :=
  match n with
  | O => []
  | S n' => low_byte v :: le_bytes n' (drop_byte v)
  end.

(** The value of a little-endian byte string. *)
Fixpoint le_value (bs : list Z) : Z :=
  match bs with
  | [] => 0
  | b :: rest => b + 256 * le_value rest
  end.

Definition member_bytes (t : ctype) (vs : list Z) : list Z :=
  flat_map (le_bytes (Z.to_nat (scalar_size (elem_type t)))) vs.

(** The bytes of a structure in memory, which is what [ffs_flash_write]
    receives when it is handed the address of the structure: each member at
    its offset, and [pad] in the bytes the layout skips (C leaves their
    content unspecified). *)
Fixpoint image_from (a : abi) (pad : Z) (size off : Z) (fs : list field)
    (vals : list (list Z)) : list Z :=
  match fs, vals with
  | f :: fr, v :: vr =>
      let o := align_up off (type_align a (fld_type f)) in
      repeat pad (Z.to_nat (o - off))
      ++ member_bytes (fld_type f) v
      ++ image_from a pad size (o + sizeof_type (fld_type f)) fr vr
  | _, _ => repeat pad (Z.to_nat (size - off))
  end.

Definition struct_image (a : abi) (pad : Z) (fs : list field)
    (vals : list (list Z)) : list Z :=
  image_from a pad (sizeof_struct a fs) 0 fs vals.

(** The bytes [off, off + n) of an image. *)
Definition bytes_at (img : list Z) (off n : Z) : list Z :=
  firstn (Z.to_nat n) (skipn (Z.to_nat off) img).

Fixpoint chunks (n : nat) (count : nat) (bs : list Z) : list (list Z) :=
  match count with
  | O => []
  | S c => firstn n bs :: chunks n c (skipn n bs)
  end.

(** Reading the members back from an image, each at its offset. *)
Fixpoint members_from (a : abi) (off : Z) (fs : list field) (img : list Z)
    : list (list Z) :=
  match fs with
  | [] => []
  | f :: fr =>
      let t := fld_type f in
      let o := align_up off (type_align a t) in
      map le_value
        (chunks (Z.to_nat (scalar_size (elem_type t))) (Z.to_nat (elem_count t))
           (bytes_at img o (sizeof_type t)))
      :: members_from a (o + sizeof_type t) fr img
  end.

Definition struct_members (a : abi) (fs : list field) (img : list Z)
    : list (list Z) :=
  members_from a 0 fs img.

(** Store one byte at [off] (the single-byte [ffs_flash_write] used to patch
    a header in place); nothing happens past the end of the image. *)
Fixpoint store_byte (img : list Z) (off : nat) (b : Z) : list Z :=
  match img, off with
  | [], _ => []
  | _ :: rest, O => b :: rest
  | x :: rest, S k => x :: store_byte rest k b
  end.

(** An inode record on disk: the structure, "followed by filename". *)
Definition ffs_disk_inode_record (a : abi) (pad : Z) (d : ffs_disk_inode)
    (filename : list Z) : list Z :=
  struct_image a pad ffs_disk_inode_fields (ffs_disk_inode_values d) ++ filename.

(** A block record on disk: the structure, "followed by 'length' bytes of
    data". *)
Definition ffs_disk_block_record (a : abi) (pad : Z) (d : ffs_disk_block)
    (data : list Z) : list Z :=
  struct_image a pad ffs_disk_block_fields (ffs_disk_block_values d) ++ data.

(** [disk_area->fds_is_scratch = v], on a value. *)
Definition set_fds_is_scratch (d : ffs_disk_area) (v : Z) : ffs_disk_area :=
  {| fds_magic := fds_magic d;
     fds_length := fds_length d;
     fds_reserved16 := fds_reserved16 d;
     fds_seq := fds_seq d;
     fds_is_scratch := v |}.

(** The records are packed: in both structures [ecc] immediately follows
    the member before it and the layout inserts no padding byte. *)
Definition records_packed (a : abi) : Prop :=
  offsetof a ffs_disk_inode_fields "fdi_ecc" = Some 19
  /\ offsetof a ffs_disk_block_fields "fdb_ecc" = Some 26
  /\ packed_layout a ffs_disk_inode_fields = true
  /\ packed_layout a ffs_disk_block_fields = true.

(** ** Flag words *)

(** [flags & bit] as a C condition. *)
Definition flag_set (flags bit : Z) : bool := negb (Z.land flags bit =? 0).

(** [flags |= bit]. *)
Definition set_flag (flags bit : Z) : Z := Z.lor flags bit.

Definition inode_is_deleted (flags : Z) : bool := flag_set flags FFS_INODE_F_DELETED.
Definition inode_is_dummy (flags : Z) : bool := flag_set flags FFS_INODE_F_DUMMY.
Definition inode_is_directory (flags : Z) : bool := flag_set flags FFS_INODE_F_DIRECTORY.
Definition inode_is_test (flags : Z) : bool := flag_set flags FFS_INODE_F_TEST.
Definition block_is_deleted (flags : Z) : bool := flag_set flags FFS_BLOCK_F_DELETED.

(** ** Fixed-width arithmetic *)

(** The value an unsigned [w]-bit lvalue holds after being assigned [v]. *)
Definition u8 (v : Z) : Z := v mod 2 ^ 8.
Definition u16 (v : Z) : Z := v mod 2 ^ 16.
Definition u32 (v : Z) : Z := v mod 2 ^ 32.

(** ** Error results *)

Inductive ffs_error : Type :=
| E_IO
| E_CORRUPT
| E_NOT_FOUND
| E_EXISTS
| E_NOT_A_DIRECTORY
| E_IS_A_DIRECTORY
| E_INVALID
| E_OUT_OF_RESOURCES
| E_NOT_ENOUGH_SPACE
| E_UNEXPECTED.

Inductive result (A : Type) : Type :=
| Ok (x : A)
| Err (e : ffs_error).

Arguments Ok {A} x.
Arguments Err {A} e.

(** ** In-RAM objects *)

(** [struct ffs_base].  The link [fb_hash_next] is the position of the
    object in the hash table. *)
Record ffs_base : Type := {
  fb_id : Z;
  fb_seq : Z;
  fb_offset : Z;
  fb_area_id : Z;
  fb_type : Z
}.

(** [struct ffs_block].  The links [fb_inode] and [fb_next] are the place of
    the block in its inode's block list; [fb_data] is the payload of the
    block's record on flash, the [fb_data_len] bytes found after the disk
    header at ([fb_area_id], [fb_offset]). *)
Record ffs_block : Type := {
  fb_base : ffs_base;
  fb_rank : Z;
  fb_data_len : Z;
  fb_flags : Z;
  fb_data : list Z
}.

(** The anonymous union of [struct ffs_inode]: the list of blocks, if the
    inode is a file, or the list of children (by id), if it is a
    directory. *)
Inductive fi_union : Type :=
| fi_block_list (blocks : list ffs_block)
| fi_child_list (children : list Z).

(** [struct ffs_inode].  [fi_sibling_next] is the place of the inode in its
    parent's child list; [fi_parent] is the id of the parent, if any;
    [fi_filename] is the array [uint8_t fi_filename[FFS_SHORT_FILENAME_LEN]]. *)
Record ffs_inode : Type := {
  fi_base : ffs_base;
  fi_payload : fi_union;
  fi_parent : option Z;
  fi_data_len : Z;
  fi_filename_len : Z;
  fi_flags : Z;
  fi_refcnt : Z;
  fi_filename : list Z
}.

(** [struct ffs_file]. *)
Record ffs_file : Type := {
  ff_inode : ffs_inode;
  ff_offset : Z;
  ff_access_flags : Z
}.



Definition set_fi_payload (i : ffs_inode) (p : fi_union) : ffs_inode :=
  {| fi_base := fi_base i; fi_payload := p; fi_parent := fi_parent i;
     fi_data_len := fi_data_len i; fi_filename_len := fi_filename_len i;
     fi_flags := fi_flags i; fi_refcnt := fi_refcnt i;
     fi_filename := fi_filename i |}.


Definition set_fi_data_len (i : ffs_inode) (n : Z) : ffs_inode :=
  {| fi_base := fi_base i; fi_payload := fi_payload i; fi_parent := fi_parent i;
     fi_data_len := n; fi_filename_len := fi_filename_len i;
     fi_flags := fi_flags i; fi_refcnt := fi_refcnt i;
     fi_filename := fi_filename i |}.



Definition set_fi_refcnt (i : ffs_inode) (n : Z) : ffs_inode :=
  {| fi_base := fi_base i; fi_payload := fi_payload i; fi_parent := fi_parent i;
     fi_data_len := fi_data_len i; fi_filename_len := fi_filename_len i;
     fi_flags := fi_flags i; fi_refcnt := n;
     fi_filename := fi_filename i |}.

(** ** Reference count *)

(** One more reference to the inode: [inode->fi_refcnt++] on the [uint8_t]
    member. *)
Definition ffs_inode_inc_refcnt (i : ffs_inode) : ffs_inode :=
  set_fi_refcnt i (u8 (fi_refcnt i + 1)).

(** ** Filenames *)



(** ** Creating inodes *)

Definition ffs_base_zero : ffs_base :=
  {| fb_id := 0; fb_seq := 0; fb_offset := 0; fb_area_id := 0; fb_type := 0 |}.

(** An inode whose bytes are all zero: null list head, null parent, empty
    name, no flag. *)
Definition ffs_inode_zero : ffs_inode :=
  {| fi_base := ffs_base_zero;
     fi_payload := fi_block_list [];
     fi_parent := None;
     fi_data_len := 0;
     fi_filename_len := 0;
     fi_flags := 0;
     fi_refcnt := 0;
     fi_filename := repeat 0 (Z.to_nat FFS_SHORT_FILENAME_LEN) |}.


(** ** The mount *)

(** [struct ffs_area]. *)
Record ffs_area : Type := {
  fs_offset : Z;
  fs_length : Z;
  fs_cur : Z;
  fs_seq : Z
}.

(** The globals of the file system: [ffs_next_id], the array [ffs_areas]
    (whose length is [ffs_num_areas]), [ffs_scratch_area_id], and the
    objects of [ffs_hash], as [FFS_HASH_FOREACH] enumerates them. *)
Record ffs_mount : Type := {
  ffs_next_id : Z;
  ffs_areas : list ffs_area;
  ffs_scratch_area_id : Z;
  ffs_hash : list ffs_base
}.

Definition ffs_num_areas (m : ffs_mount) : Z := Z.of_nat (length (ffs_areas m)).

(** Modelled from the spec: the code that maintains the globals is not in
    the sources.  The invariants it keeps, "ffs_next_id exceeds every id
    ever observed" (invariant 7, for the [uint32_t] counter) and "every
    in-RAM object's (area_id, offset) addresses a valid disk record"
    (invariant 1: the area id is the index of one of the at most
    [FFS_MAX_AREAS] areas). *)
Definition mount_ok (m : ffs_mount) : bool :=
  in_range uint32_t (ffs_next_id m)
  && (ffs_num_areas m <=? FFS_MAX_AREAS)
  && forallb (fun o => (0 <=? fb_id o) && (fb_id o <? ffs_next_id m)) (ffs_hash m)
  && forallb (fun o => (0 <=? fb_area_id o) && (fb_area_id o <? ffs_num_areas m))
       (ffs_hash m).


(** Operations read and update the globals and may fail. *)
Definition ffs_op (A : Type) : Type := ffs_mount -> result (A * ffs_mount).

Definition ret {A : Type} (x : A) : ffs_op A := fun m => Ok (x, m).

Definition fail {A : Type} (e : ffs_error) : ffs_op A := fun _ => Err e.

Definition bind {A B : Type} (c : ffs_op A) (k : A -> ffs_op B) : ffs_op B :=
  fun m =>
    match c m with
    | Ok (x, m') => k x m'
    | Err e => Err e
    end.

Definition lift {A : Type} (r : result A) : ffs_op A :=
  fun m =>
    match r with
    | Ok x => Ok (x, m)
    | Err e => Err e
    end.

Notation "x <- c ;; k" := (bind c (fun x => k))
  (at level 61, c at next level, right associativity).

Definition set_ffs_areas (m : ffs_mount) (areas : list ffs_area) : ffs_mount :=
  {| ffs_next_id := ffs_next_id m; ffs_areas := areas;
     ffs_scratch_area_id := ffs_scratch_area_id m; ffs_hash := ffs_hash m |}.

(** Modelled from the spec: the code that allocates ids is not in the
    sources; "a 32-bit monotonically-allocated ID names every persistent
    object": [ffs_next_id++] on the [uint32_t] counter. *)
Definition ffs_alloc_id : ffs_op Z :=
  fun m =>
    Ok (ffs_next_id m,
        {| ffs_next_id := u32 (ffs_next_id m + 1); ffs_areas := ffs_areas m;
           ffs_scratch_area_id := ffs_scratch_area_id m;
           ffs_hash := ffs_hash m |}).

(** Modelled from the spec: [ffs_hash_insert] and [ffs_hash_remove] are only
    declared; the index maps an id to its object. *)
Definition ffs_hash_remove (id : Z) : ffs_op unit :=
  fun m =>
    Ok (tt,
        {| ffs_next_id := ffs_next_id m; ffs_areas := ffs_areas m;
           ffs_scratch_area_id := ffs_scratch_area_id m;
           ffs_hash := filter (fun o => negb (fb_id o =? id)) (ffs_hash m) |}).

(** Modelled from the spec: see [ffs_hash_remove]. *)
Definition ffs_hash_insert (b : ffs_base) : ffs_op unit :=
  fun m =>
    Ok (tt,
        {| ffs_next_id := ffs_next_id m; ffs_areas := ffs_areas m;
           ffs_scratch_area_id := ffs_scratch_area_id m;
           ffs_hash := b :: ffs_hash m |}).

(** Modelled from the spec: [ffs_area_free_space] is only declared; [fs_cur]
    is the next free byte of the area. *)
Definition ffs_area_free_space (ar : ffs_area) : Z := fs_length ar - fs_cur ar.

(** Modelled from the spec: [ffs_misc_reserve_space] is only declared; it
    "returns (area_id, offset) for the first non-scratch area with
    length - cur >= size, bumping cur on success", and NOT_ENOUGH_SPACE
    otherwise (the garbage collection the caller then starts is outside
    this model). *)
Fixpoint reserve_from (areas : list ffs_area) (idx scratch size : Z)
    : option (Z * Z * list ffs_area) :=
  match areas with
  | [] => None
  | ar :: rest =>
      if negb (idx =? scratch) && (size <=? ffs_area_free_space ar) then
        Some (idx, fs_cur ar,
              {| fs_offset := fs_offset ar; fs_length := fs_length ar;
                 fs_cur := fs_cur ar + size; fs_seq := fs_seq ar |} :: rest)
      else
        match reserve_from rest (idx + 1) scratch size with
        | Some (i, o, rest') => Some (i, o, ar :: rest')
        | None => None
        end
  end.

(** Modelled from the spec: see [reserve_from]; [size] is a [uint16_t]. *)
Definition ffs_misc_reserve_space (size : Z) : ffs_op (Z * Z) :=
  fun m =>
    match reserve_from (ffs_areas m) 0 (ffs_scratch_area_id m) size with
    | Some (i, o, areas) => Ok ((i, o), set_ffs_areas m areas)
    | None => Err E_NOT_ENOUGH_SPACE
    end.

(** ** Blocks *)

(** Modelled from the spec: [ffs_block_write_disk] is only declared; it
    "reserves space, writes header then payload, returns (area_id,
    offset)".  The flash is written once per location, so the payload
    stays with the block (see [fb_data]). *)
Definition ffs_block_write_disk (a : abi) (d : ffs_disk_block) (data : list Z)
    : ffs_op (Z * Z) :=
  ffs_misc_reserve_space
    (u16 (sizeof_struct a ffs_disk_block_fields + fdb_data_len d)).

(** Modelled from the spec: [ffs_block_from_disk] is only declared; it
    "constructs the in-RAM block from a decoded record". *)
Definition ffs_block_from_disk (d : ffs_disk_block) (area_id offset : Z)
    (data : list Z) : ffs_block :=
  {| fb_base := {| fb_id := fdb_id d; fb_seq := fdb_seq d;
                   fb_offset := offset; fb_area_id := area_id;
                   fb_type := FFS_OBJECT_TYPE_BLOCK |};
     fb_rank := fdb_rank d;
     fb_data_len := fdb_data_len d;
     fb_flags := u8 (fdb_flags d);
     fb_data := data |}.

(** Modelled from the spec: the code that creates a block is not in the
    sources; the record of the block is written, the block is built in RAM
    from it and takes the place of its id in the index. *)
Definition ffs_write_block (a : abi) (inode_id id seq rank : Z) (data : list Z)
    : ffs_op ffs_block :=
  let d := {| fdb_magic := FFS_BLOCK_MAGIC; fdb_id := id; fdb_seq := seq;
              fdb_rank := rank; fdb_inode_id := inode_id;
              fdb_reserved16 := 0; fdb_flags := 0;
              fdb_data_len := u16 (Z.of_nat (length data)); fdb_ecc := 0 |} in
  place <- ffs_block_write_disk a d data ;;
  let b := ffs_block_from_disk d (fst place) (snd place) data in
  _ <- ffs_hash_remove id ;;
  _ <- ffs_hash_insert (fb_base b) ;;
  ret b.


(** Modelled from the spec: [ffs_inode_calc_data_length] is only declared;
    "data_len == sum of block.data_len". *)
Definition ffs_inode_calc_data_length (chain : list ffs_block) : Z :=
  fold_left (fun acc b => u32 (acc + fb_data_len b)) chain 0.

(** Modelled from the spec: the list insertion of [ffs_inode_insert_block],
    "into the block list ordered by rank ascending; equal ranks resolve by
    seq descending (the newer wins; the older is logically superseded)". *)
Fixpoint insert_block (chain : list ffs_block) (b : ffs_block) : list ffs_block :=
  match chain with
  | [] => [b]
  | c :: rest =>
      if fb_rank b <? fb_rank c then b :: c :: rest
      else if fb_rank b =? fb_rank c then
        if fb_seq (fb_base c) <? fb_seq (fb_base b) then b :: rest else c :: rest
      else c :: insert_block rest b
  end.

(** Modelled from the spec: [ffs_inode_insert_block] is only declared; it
    inserts into the block list by rank and "updates cached data_len".  The
    block list is the file member of the union: a directory has none. *)
Definition ffs_inode_insert_block (i : ffs_inode) (b : ffs_block)
    : result ffs_inode :=
  match fi_payload i with
  | fi_child_list _ => Err E_UNEXPECTED
  | fi_block_list chain =>
      let chain' := insert_block chain b in
      Ok (set_fi_data_len (set_fi_payload i (fi_block_list chain'))
            (ffs_inode_calc_data_length chain'))
  end.

Fixpoint insert_blocks (i : ffs_inode) (bs : list ffs_block) : result ffs_inode :=
  match bs with
  | [] => Ok i
  | b :: rest =>
      match ffs_inode_insert_block i b with
      | Ok i' => insert_blocks i' rest
      | Err e => Err e
      end
  end.

(** ** Seeking and reading *)

(** Modelled from the spec: [ffs_inode_seek] is only declared; it "walks the
    block chain accumulating data_len until the cursor falls within a
    block; returns (previous_block, block, offset_within_block)".  The block
    found is returned with the blocks that follow it (the list its
    [fb_next] link starts); past the last block there is none. *)
Fixpoint seek_chain (prev : option ffs_block) (chain : list ffs_block)
    (cur offset : Z) : option ffs_block * list ffs_block * Z :=
  match chain with
  | [] => (prev, [], 0)
  | b :: rest =>
      let next := u32 (cur + fb_data_len b) in
      if offset <? next then (prev, b :: rest, u32 (offset - cur))
      else seek_chain (Some b) rest next offset
  end.

(** Modelled from the spec: see [seek_chain]; only a file has blocks to
    seek in. *)
Definition ffs_inode_seek (i : ffs_inode) (offset : Z)
    : result (option ffs_block * list ffs_block * Z) :=
  match fi_payload i with
  | fi_child_list _ => Err E_IS_A_DIRECTORY
  | fi_block_list chain => Ok (seek_chain None chain 0 offset)
  end.

(** Modelled from the spec: the loop of [ffs_inode_read], which reads [len]
    bytes "sequentially across blocks", starting [block_off] bytes into the
    first one. *)
Fixpoint read_blocks (blocks : list ffs_block) (block_off len : Z) : list Z :=
  match blocks with
  | [] => []
  | b :: rest =>
      let n := Z.min len (fb_data_len b - block_off) in
      bytes_at (fb_data b) block_off n ++ read_blocks rest 0 (len - n)
  end.

(** Modelled from the spec: [ffs_inode_read] is only declared; it "seeks,
    then reads sequentially across blocks up to the lesser of remaining
    file length and requested length; clamps *len to actual bytes
    returned".  The result is the bytes stored in the buffer and the value
    left in [*len]. *)
Definition ffs_inode_read (i : ffs_inode) (offset len : Z)
    : result (list Z * Z) :=
  match ffs_inode_seek i offset with
  | Err e => Err e
  | Ok (_, blocks, block_off) =>
      let n := Z.min (u32 (fi_data_len i - offset)) len in
      let data := read_blocks blocks block_off n in
      Ok (data, Z.of_nat (length data))
  end.

(** ** The file interface *)

Definition set_ff_inode (f : ffs_file) (i : ffs_inode) : ffs_file :=
  {| ff_inode := i; ff_offset := ff_offset f;
     ff_access_flags := ff_access_flags f |}.

Definition set_ff_offset (f : ffs_file) (offset : Z) : ffs_file :=
  {| ff_inode := ff_inode f; ff_offset := offset;
     ff_access_flags := ff_access_flags f |}.

(** Modelled from the spec: [ffs_file_seek] is only declared; "seek updates
    file.offset". *)
Definition ffs_file_seek (f : ffs_file) (offset : Z) : ffs_file :=
  set_ff_offset f offset.

(** Modelled from the spec: the read of the file interface "delegates to
    inode read from file.offset". *)
Definition ffs_read (f : ffs_file) (len : Z) : result (list Z * Z) :=
  ffs_inode_read (ff_inode f) (ff_offset f) len.

(** The pieces of at most [n] bytes a buffer is cut into. *)
Fixpoint split_chunks (fuel n : nat) (data : list Z) : list (list Z) :=
  match fuel with
  | O => []
  | S fuel' =>
      match data with
      | [] => []
      | _ :: _ => firstn n data :: split_chunks fuel' n (skipn n data)
      end
  end.

(** The rank after the last block of a chain. *)
Definition tail_rank (chain : list ffs_block) : Z :=
  match rev chain with
  | [] => 0
  | b :: _ => u32 (fb_rank b + 1)
  end.

(** Modelled from the spec: the overwriting part of [ffs_write_to_file].
    Every block the range reaches is superseded by a block of
    the same id and rank, "at a higher seq", holding the old bytes with the
    new ones laid over them.  Returns the new blocks and the bytes that go
    past the last block. *)
Fixpoint ffs_write_over (a : abi) (inode_id : Z) (blocks : list ffs_block)
    (block_off : Z) (data : list Z) : ffs_op (list ffs_block * list Z) :=
  match blocks with
  | [] => ret ([], data)
  | b :: rest =>
      match data with
      | [] => ret ([], [])
      | _ :: _ =>
          let n := Z.min (Z.of_nat (length data)) (fb_data_len b - block_off) in
          let payload :=
            bytes_at (fb_data b) 0 block_off
            ++ firstn (Z.to_nat n) data
            ++ skipn (Z.to_nat (block_off + n)) (fb_data b) in
          nb <- ffs_write_block a inode_id (fb_id (fb_base b))
                  (u32 (fb_seq (fb_base b) + 1)) (fb_rank b) payload ;;
          more <- ffs_write_over a inode_id rest 0 (skipn (Z.to_nat n) data) ;;
          ret (nb :: fst more, snd more)
      end
  end.

(** Modelled from the spec: the appending part of [ffs_write_to_file], one
    new block per piece, "each with monotone rank assigned from the current
    file tail". *)
Fixpoint ffs_write_append (a : abi) (inode_id rank : Z) (pieces : list (list Z))
    : ffs_op (list ffs_block) :=
  match pieces with
  | [] => ret []
  | p :: rest =>
      id <- ffs_alloc_id ;;
      b <- ffs_write_block a inode_id id 0 rank p ;;
      more <- ffs_write_append a inode_id (u32 (rank + 1)) rest ;;
      ret (b :: more)
  end.

(** Modelled from the spec: [ffs_write_to_file] is only declared; write
    "allocates one or more blocks (sized up to FFS_BLOCK_DATA_LEN payload),
    each with monotone rank assigned from the current file tail;
    overwriting a range writes new blocks with the same rank as the
    superseded ones at a higher seq", and the offset of the file moves past
    the bytes written. *)
Definition ffs_write_to_file (a : abi) (f : ffs_file) (data : list Z)
    : ffs_op ffs_file :=
  let i := ff_inode f in
  match fi_payload i with
  | fi_child_list _ => fail E_IS_A_DIRECTORY
  | fi_block_list chain =>
      let found := seek_chain None chain 0 (ff_offset f) in
      over <- ffs_write_over a (fb_id (fi_base i)) (snd (fst found)) (snd found)
                data ;;
      i1 <- lift (insert_blocks i (fst over)) ;;
      new <- ffs_write_append a (fb_id (fi_base i)) (tail_rank chain)
               (split_chunks (length (snd over))
                  (Z.to_nat (FFS_BLOCK_DATA_LEN a)) (snd over)) ;;
      i2 <- lift (insert_blocks i1 new) ;;
      ret (set_ff_offset (set_ff_inode f i2)
             (u32 (ff_offset f + Z.of_nat (length data))))
  end.



(** ** Inode operations *)

(** The filename buffer after copying [name] into it. *)
Definition filename_buffer (name : list Z) : list Z :=
  firstn (Z.to_nat FFS_SHORT_FILENAME_LEN)
    (name ++ repeat 0 (Z.to_nat FFS_SHORT_FILENAME_LEN)).











(** ** The round trip, as claimed for every file *)



(** ** Well-formed block chains *)




(** ** A small file system *)

Definition root_base : ffs_base :=
  {| fb_id := 0; fb_seq := 0; fb_offset := 24; fb_area_id := 0;
     fb_type := FFS_OBJECT_TYPE_INODE |}.

Definition file_base : ffs_base :=
  {| fb_id := 1; fb_seq := 0; fb_offset := 48; fb_area_id := 0;
     fb_type := FFS_OBJECT_TYPE_INODE |}.

(** A mount of two areas of 16 KiB, the second one the scratch area, that
    holds the root directory and one empty file. *)
Definition small_mount : ffs_mount :=
  {| ffs_next_id := 2;
     ffs_areas := [ {| fs_offset := 0; fs_length := 16384; fs_cur := 73;
                       fs_seq := 0 |};
                    {| fs_offset := 16384; fs_length := 16384; fs_cur := 24;
                       fs_seq := 0 |} ];
     ffs_scratch_area_id := 1;
     ffs_hash := [file_base; root_base] |}.

(** The empty file of [small_mount], just created and opened. *)
Definition new_file : ffs_file :=
  {| ff_inode :=
       {| fi_base := file_base;
          fi_payload := fi_block_list [];
          fi_parent := Some 0;
          fi_data_len := 0;
          fi_filename_len := 1;
          fi_flags := 0;
          fi_refcnt := 2;
          fi_filename := filename_buffer [97] |};
     ff_offset := 0;
     ff_access_flags := 0 |}.

Definition three_byte_block : ffs_block :=
  {| fb_base := {| fb_id := 2; fb_seq := 0; fb_offset := 73; fb_area_id := 0;
                   fb_type := FFS_OBJECT_TYPE_BLOCK |};
     fb_rank := 0; fb_data_len := 3; fb_flags := 0;
     fb_data := [1; 2; 3] |}.

(** The same file once the bytes 1, 2, 3 have been written to it, with its
    offset at the end of them, and the mount at that point. *)
Definition three_byte_file : ffs_file :=
  {| ff_inode :=
       {| fi_base := file_base;
          fi_payload := fi_block_list [three_byte_block];
          fi_parent := Some 0;
          fi_data_len := 3;
          fi_filename_len := 1;
          fi_flags := 0;
          fi_refcnt := 2;
          fi_filename := filename_buffer [97] |};
     ff_offset := 3;
     ff_access_flags := 0 |}.

Definition three_byte_mount : ffs_mount :=
  {| ffs_next_id := 3;
     ffs_areas := [ {| fs_offset := 0; fs_length := 16384; fs_cur := 108;
                       fs_seq := 0 |};
                    {| fs_offset := 16384; fs_length := 16384; fs_cur := 24;
                       fs_seq := 0 |} ];
     ffs_scratch_area_id := 1;
     ffs_hash := [fb_base three_byte_block; file_base; root_base] |}.

(** A buffer of 1000 bytes, each the residue of its index modulo 251. *)
Definition sample_bytes : list Z :=
  map (fun k => Z.of_nat k mod 251) (seq 0 1000).

(** * The console ([console.c])

    The line editor of the console: the ring of history lines, the escape
    sequences sent to the terminal, the editing of the input line and the
    parsing of the escape sequences received.  The values of the system
    configuration ([MYNEWT_VAL]) are parameters; the characters handed to
    [console_out_nolock] are recorded in the order of the calls. *)

(** ** Characters *)

Definition EOF : Z := -1.

Definition ESC : Z := 0x1b.
Definition DEL : Z := 0x7f.
Definition BS : Z := 0x08.
Definition ETX : Z := 0x03.
Definition EOT : Z := 0x04.
Definition FF : Z := 0x0B.
Definition VT : Z := 0x0C.

(** The string [CSI], "\x1b[". *)
Definition CSI : list Z := [0x1b; 91].

Definition ANSI_ESC : Z := 91.
Definition ANSI_UP : Z := 65.
Definition ANSI_DOWN : Z := 66.
Definition ANSI_FORWARD : Z := 67.
Definition ANSI_BACKWARD : Z := 68.
Definition ANSI_END : Z := 70.
Definition ANSI_HOME : Z := 72.
Definition ANSI_DEL : Z := 126.
Definition DSR_CPS : Z := 82.

Definition ESC_ESC : Z := 1.
Definition ESC_ANSI : Z := 2.
Definition ESC_ANSI_FIRST : Z := 4.
Definition ESC_ANSI_VAL : Z := 8.
Definition ESC_ANSI_VAL_2 : Z := 16.

Definition CONSOLE_NLIP_PKT_START1 : Z := 6.
Definition CONSOLE_NLIP_PKT_START2 : Z := 9.
Definition CONSOLE_NLIP_DATA_START1 : Z := 4.
Definition CONSOLE_NLIP_DATA_START2 : Z := 20.

Definition NLIP_PKT_START1 : Z := CONSOLE_NLIP_PKT_START1.
Definition NLIP_PKT_START2 : Z := CONSOLE_NLIP_PKT_START2.
Definition NLIP_DATA_START1 : Z := CONSOLE_NLIP_DATA_START1.
Definition NLIP_DATA_START2 : Z := CONSOLE_NLIP_DATA_START2.

(** [isspace], [isdigit] and [isprint] of the C locale, on the value of an
    [unsigned char]. *)
Definition isspace (c : Z) : bool :=
  (c =? 32) || ((9 <=? c) && (c <=? 13)).

Definition isdigit (c : Z) : bool := (48 <=? c) && (c <=? 57).

Definition isprint (c : Z) : bool := (32 <=? c) && (c <=? 126).

(** ** Output *)

(** The device behind [console_out_nolock] is chosen when the image is
    linked; the default of [console.c] returns its argument.  The trace
    [o] holds the characters handed to it so far. *)
Definition console_out_nolock (c : Z) (o : list Z) : Z * list Z :=
  (c, o ++ [c]).

(** [console_write_nolock (str, cnt)], on the [cnt] characters of [str]:
    the loop stops after a character for which the device returns [EOF]. *)
Fixpoint console_write_nolock (str : list Z) (o : list Z) : list Z :=
  match str with
  | [] => o
  | c :: rest =>
      let r := console_out_nolock c o in
      if fst r =? EOF then snd r else console_write_nolock rest (snd r)
  end.

(** ** The history ring: indices *)

(** [(uint8_t) ((i + 1) % size)], computed on [int]. *)
Definition ring_buf_next (i size : Z) : Z := u8 (Z.rem (i + 1) size).

(** [i == 0 ? i = size - 1 : --i], on [uint8_t]. *)
Definition ring_buf_prev (i size : Z) : Z :=
  if i =? 0 then u8 (size - 1) else u8 (i - 1).

(** ** Numbers in escape sequences *)

(** A store through a pointer into an array: [None] when the pointer is
    outside the array. *)
Definition buf_store (buf : list Z) (i : nat) (v : Z) : option (list Z) :=
  if (i <? length buf)%nat then Some (store_byte buf i v) else None.

(** The loop [do { *p++ = (num % 10) + '0'; num /= 10; } while (num)] of
    [add_ascii_num_with_char]: the array and [p] after it.  An
    [unsigned int] has at most ten digits, which bounds the iterations. *)
Fixpoint put_digits (fuel : nat) (buf : list Z) (p : nat) (num : Z)
    : option (list Z * nat) :=
  match fuel with
  | O => None
  | S fuel' =>
      match buf_store buf p (Z.rem num 10 + 48) with
      | None => None
      | Some buf' =>
          let num' := Z.quot num 10 in
          if num' =? 0 then Some (buf', S p)
          else put_digits fuel' buf' (S p) num'
      end
  end.

(** The loop [while (s < p) { tmp = *s; *s++ = *p; *p-- = tmp; }]. *)
Fixpoint reverse_chars (fuel : nat) (buf : list Z) (s p : nat) : list Z :=
  match fuel with
  | O => buf
  | S fuel' =>
      if (s <? p)%nat then
        let tmp := nth s buf 0 in
        let buf1 := store_byte buf s (nth p buf 0) in
        let buf2 := store_byte buf1 p tmp in
        reverse_chars fuel' buf2 (S s) (pred p)
      else buf
  end.

(** [add_ascii_num_with_char (str, num, c)], where [str] points [str]
    characters into the array [buf]: the array afterwards and the pointer
    returned. *)
Definition add_ascii_num_with_char (buf : list Z) (str : nat) (num c : Z)
    : option (list Z * nat) :=
  match put_digits 10 buf str num with
  | None => None
  | Some (buf1, p) =>
      let buf2 := reverse_chars (p - str) buf1 str (pred p) in
      match buf_store buf2 p c with
      | None => None
      | Some buf3 =>
          match buf_store buf3 (S p) 0 with
          | None => None
          | Some buf4 => Some (buf4, S p)
          end
      end
  end.

(** The decimal digits of [num], least significant first, and the decimal
    numeral of [num]. *)
Fixpoint digits_rev (fuel : nat) (num : Z) : list Z :=
  match fuel with
  | O => []
  | S fuel' =>
      (num mod 10 + 48)
      :: (if num / 10 =? 0 then [] else digits_rev fuel' (num / 10))
  end.

Definition decimal (num : Z) : list Z := rev (digits_rev 10 num).

(** The number a string of digits denotes. *)
Definition decimal_value (ds : list Z) : Z :=
  fold_left (fun acc d => 10 * acc + (d - 48)) ds 0.

(** [char seq[n] = CSI]. *)
Definition seq_buffer (n : nat) : list Z := CSI ++ repeat 0 (n - 2).

(** [cursor_forward (count)] and [cursor_backward (count)]: the trace
    afterwards, [None] if the sequence is written past the end of [seq]. *)
Definition cursor_forward (count : Z) (o : list Z) : option (list Z) :=
  if count =? 0 then Some o
  else
    match add_ascii_num_with_char (seq_buffer 14) 2 count 67 with
    | None => None
    | Some (seq, p) => Some (console_write_nolock (firstn p seq) o)
    end.

Definition cursor_backward (count : Z) (o : list Z) : option (list Z) :=
  if count =? 0 then Some o
  else
    match add_ascii_num_with_char (seq_buffer 14) 2 count 68 with
    | None => None
    | Some (seq, p) => Some (console_write_nolock (firstn p seq) o)
    end.

(** The two-number sequences [CSI <n1> ; <n2> <c>] of [console_cursor_set]
    and [console_set_scrolling_region], built in [char seq[24]]; the [int]
    arguments are converted to [unsigned int]. *)
Definition two_number_seq (n1 n2 c : Z) (o : list Z) : option (list Z) :=
  match add_ascii_num_with_char (seq_buffer 24) 2 (u32 n1) 59 with
  | None => None
  | Some (seq1, p1) =>
      match add_ascii_num_with_char seq1 p1 (u32 n2) c with
      | None => None
      | Some (seq2, p2) => Some (console_write_nolock (firstn p2 seq2) o)
      end
  end.

Definition console_cursor_set (row column : Z) (o : list Z) : option (list Z) :=
  two_number_seq row column 72 o.

Definition console_set_scrolling_region (top bottom : Z) (o : list Z)
    : option (list Z) :=
  two_number_seq top bottom 114 o.

(** ** C strings *)

(** [strlen]: the number of characters before the first NUL of the array
    the pointer points into. *)
Fixpoint strlen (s : list Z) : nat :=
  match s with
  | [] => O
  | c :: rest => if c =? 0 then O else S (strlen rest)
  end.

(** The string held by an array: its characters before the first NUL. *)
Definition c_string (s : list Z) : list Z := firstn (strlen s) s.

(** [memcpy (dst, src, n)]: [None] when [n] characters do not lie within
    both arrays. *)
Definition memcpy (dst src : list Z) (n : nat) : option (list Z) :=
  if (n <=? length dst)%nat && (n <=? length src)%nat
  then Some (firstn n src ++ skipn n dst)
  else None.

(** [strcpy (dst, src)]: the string of [src] and its NUL; [None] when they
    do not fit in [dst]. *)
Definition strcpy (dst src : list Z) : option (list Z) :=
  if (strlen src <? length dst)%nat
  then Some (c_string src ++ 0 :: skipn (S (strlen src)) dst)
  else None.

(** ** Trimming *)

(** [while (isspace ((unsigned char)*str)) str++]: the pointer is the list
    of the characters from it to the end of the array. *)
Fixpoint skip_spaces (str : list Z) : list Z :=
  match str with
  | [] => []
  | c :: rest => if isspace c then skip_spaces rest else str
  end.

(** [while (end > str && isspace ((unsigned char)*end)) end--], with [end]
    as an index from [str]. *)
Fixpoint trim_end (str : list Z) (e : nat) : nat :=
  match e with
  | O => O
  | S e' => if isspace (nth e str 0) then trim_end str e' else e
  end.

(** [trim_whitespace (str, len, out)]: the array [out] afterwards and the
    size returned. *)
Definition trim_whitespace (str : list Z) (len : Z) (out : list Z)
    : option (list Z * Z) :=
  if len =? 0 then Some (out, 0)
  else
    let str1 := skip_spaces str in
    if hd 0 str1 =? 0 then
      match buf_store out 0 0 with
      | None => None
      | Some out1 => Some (out1, 0)
      end
    else
      let e := S (trim_end str1 (strlen str1 - 1)) in
      let out_size := Z.min (Z.of_nat e) (len - 1) in
      match memcpy out str1 (Z.to_nat out_size) with
      | None => None
      | Some out1 =>
          match buf_store out1 (Z.to_nat out_size) 0 with
          | None => None
          | Some out2 => Some (out2, out_size)
          end
      end.

(** ** The history *)

(** The values of the system configuration the console is built with. *)
Record syscfg : Type := {
  CONSOLE_MAX_INPUT_LEN : Z;
  CONSOLE_HISTORY_SIZE : Z;
  CONSOLE_STICKY_PROMPT : bool;
  CONSOLE_PROMPT_SOFT_CURSOR : bool;
  CONSOLE_HIDE_CURSOR_IN_LOG_AREA : bool;
  CONSOLE_PROMPT_SOFT_CURSOR_ATTR : list Z
}.

(** An assignment to an element of an array. *)
Fixpoint array_set {A : Type} (l : list A) (i : nat) (v : A) : list A :=
  match l, i with
  | [], _ => []
  | _ :: rest, O => v :: rest
  | x :: rest, S k => x :: array_set rest k v
  end.

(** [struct console_hist]: a line is the number of the row of
    [console_hist_lines] it points to, or [None] for [NULL]. *)
Record console_hist : Type := {
  head : Z;
  tail : Z;
  size : Z;
  curr : Z;
  lines : list (option nat)
}.

(** The history and the rows of [console_hist_lines]. *)
Record hist_mem : Type := {
  sh : console_hist;
  console_hist_lines : list (list Z)
}.

Definition set_lines (h : console_hist) (l : list (option nat)) : console_hist :=
  {| head := head h; tail := tail h; size := size h; curr := curr h;
     lines := l |}.

Definition set_head (h : console_hist) (v : Z) : console_hist :=
  {| head := v; tail := tail h; size := size h; curr := curr h;
     lines := lines h |}.

Definition set_tail (h : console_hist) (v : Z) : console_hist :=
  {| head := head h; tail := v; size := size h; curr := curr h;
     lines := lines h |}.

Definition set_curr (h : console_hist) (v : Z) : console_hist :=
  {| head := head h; tail := tail h; size := size h; curr := v;
     lines := lines h |}.

(** [sh->lines[i]]. *)
Definition line_at (h : console_hist) (i : Z) : option nat :=
  nth (Z.to_nat i) (lines h) None.

(** [console_hist_init]: everything is zeroed, [size] is the history size
    plus one, and line [i] points to row [i] for [i < size - 1]. *)
Definition console_hist_init (cfg : syscfg) : hist_mem :=
  let n := Z.to_nat (CONSOLE_HISTORY_SIZE cfg) in
  let sz := u8 (CONSOLE_HISTORY_SIZE cfg + 1) in
  {| sh :=
       {| head := 0; tail := 0; size := sz; curr := 0;
          lines :=
            fold_left (fun l i => array_set l i (Some i))
              (seq 0 (Z.to_nat (sz - 1))) (repeat None (S n)) |};
     console_hist_lines :=
       repeat (repeat 0 (Z.to_nat (CONSOLE_MAX_INPUT_LEN cfg))) n |}.

(** [console_hist_is_full]. *)
Definition console_hist_is_full (h : console_hist) : bool :=
  ring_buf_next (head h) (size h) =? tail h.

(** [strcmp (a, b) == 0]. *)
Definition streq (a b : list Z) : bool :=
  if list_eq_dec Z.eq_dec (c_string a) (c_string b) then true else false.

(** The first loop of [console_hist_move_to_head], from [curr]: the index
    of the first line equal to [line], if there is one before [head].
    [None] stands for a [NULL] handed to [strcmp]; an index is a [uint8_t],
    so 256 steps exhaust the ring. *)
Fixpoint hist_find (fuel : nat) (m : hist_mem) (line : list Z) (curr : Z)
    : option (option Z) :=
  match fuel with
  | O => None
  | S fuel' =>
      if curr =? head (sh m) then Some None
      else
        match line_at (sh m) curr with
        | None => None
        | Some p =>
            if streq (nth p (console_hist_lines m) []) line
            then Some (Some curr)
            else hist_find fuel' m line (ring_buf_next curr (size (sh m)))
        end
  end.

(** The second loop of [console_hist_move_to_head]: the lines after the
    match move one place towards the tail; the lines afterwards and the
    last value of [prev]. *)
Fixpoint hist_shift (fuel : nat) (h : console_hist) (l : list (option nat))
    (prev curr : Z) : option (list (option nat) * Z) :=
  match fuel with
  | O => None
  | S fuel' =>
      if curr =? head h then Some (l, prev)
      else
        hist_shift fuel' h
          (array_set l (Z.to_nat prev) (nth (Z.to_nat curr) l None))
          curr (ring_buf_next curr (size h))
  end.

(** [console_hist_move_to_head (line)]: the history afterwards and the
    value returned. *)
Definition console_hist_move_to_head (m : hist_mem) (line : list Z)
    : option (hist_mem * bool) :=
  match hist_find 256 m line (tail (sh m)) with
  | None => None
  | Some None => Some (m, false)
  | Some (Some c) =>
      let found := line_at (sh m) c in
      match hist_shift 256 (sh m) (lines (sh m)) c
              (ring_buf_next c (size (sh m))) with
      | None => None
      | Some (l, prev) =>
          Some ({| sh := set_lines (sh m) (array_set l (Z.to_nat prev) found);
                   console_hist_lines := console_hist_lines m |}, true)
      end
  end.

(** [console_hist_add (line)]: [None] when the assertion fails or a [NULL]
    line is written to.  The local array [buf] starts as [buf0]. *)
Definition console_hist_add (cfg : syscfg) (buf0 : list Z) (line : list Z)
    (m : hist_mem) : option hist_mem :=
  let m0 := {| sh := set_curr (sh m) (head (sh m));
               console_hist_lines := console_hist_lines m |} in
  match trim_whitespace line (CONSOLE_MAX_INPUT_LEN cfg) buf0 with
  | None => None
  | Some (buf, len) =>
      if len =? 0 then Some m0
      else
        match console_hist_move_to_head m0 buf with
        | None => None
        | Some (m1, true) => Some m1
        | Some (m1, false) =>
            let evicted :=
              if console_hist_is_full (sh m1) then
                match line_at (sh m1) (head (sh m1)) with
                | Some _ => None
                | None =>
                    let h := sh m1 in
                    let l1 := array_set (lines h) (Z.to_nat (head h))
                                (line_at h (tail h)) in
                    let l2 := array_set l1 (Z.to_nat (tail h)) None in
                    Some (set_tail (set_lines h l2)
                            (ring_buf_next (tail h) (size h)))
                end
              else Some (sh m1) in
            match evicted with
            | None => None
            | Some h =>
                match line_at h (head h) with
                | None => None
                | Some p =>
                    match strcpy (nth p (console_hist_lines m1) []) buf with
                    | None => None
                    | Some row =>
                        let hd' := ring_buf_next (head h) (size h) in
                        Some {| sh := set_curr (set_head h hd') hd';
                                console_hist_lines :=
                                  array_set (console_hist_lines m1) p row |}
                    end
                end
            end
        end
  end.

(** The lines of the ring from index [i] on, [count] of them. *)
Fixpoint ring_seg (l : list (option nat)) (sz i : Z) (count : nat)
    : list (option nat) :=
  match count with
  | O => []
  | S c => nth (Z.to_nat i) l None :: ring_seg l sz (ring_buf_next i sz) c
  end.

(** The number of lines in the history, and their strings, oldest first. *)
Definition hist_count (h : console_hist) : nat :=
  Z.to_nat ((head h - tail h) mod size h).

Definition row_string (rows : list (list Z)) (p : option nat) : list Z :=
  match p with
  | Some i => c_string (nth i rows [])
  | None => []
  end.

Definition hist_entries (m : hist_mem) : list (list Z) :=
  map (row_string (console_hist_lines m))
    (ring_seg (lines (sh m)) (size (sh m)) (tail (sh m)) (hist_count (sh m))).

(** The index of the slot [j] places after slot [i] of a ring. *)
Definition ring_at (i sz : Z) (j : nat) : Z := (i + Z.of_nat j) mod sz.

(** The whole ring read from the tail: the history's lines, oldest first,
    then the free slots. *)
Definition hist_ring (h : console_hist) : list (option nat) :=
  ring_seg (lines h) (size h) (tail h) (Z.to_nat (size h)).

(** What [console_hist_init] sets up and [console_hist_add] keeps: the
    indices lie in the ring, every row of [console_hist_lines] holds a
    NUL, the ring holds every row once and one [NULL], which sits just
    before the tail, and the lines of the history are non-empty and differ
    from each other. *)
Definition hist_inv (cfg : syscfg) (m : hist_mem) : Prop :=
  let h := sh m in
  let n := CONSOLE_HISTORY_SIZE cfg in
  (1 <= n <= 254 /\ 1 <= CONSOLE_MAX_INPUT_LEN cfg)
  /\ (size h = n + 1 /\ 0 <= head h < size h /\ 0 <= tail h < size h)
  /\ (length (lines h) = Z.to_nat (size h)
      /\ length (console_hist_lines m) = Z.to_nat n
      /\ Forall (fun row => Z.of_nat (length row) = CONSOLE_MAX_INPUT_LEN cfg
                            /\ In 0 row)
           (console_hist_lines m))
  /\ (exists ps : list nat,
        hist_ring h = map Some ps ++ [None]
        /\ NoDup ps
        /\ Forall (fun p => (p < Z.to_nat n)%nat) ps)
  /\ NoDup (hist_entries m)
  /\ Forall (fun e => e <> []) (hist_entries m).

(** A small configuration: lines of 8 characters, a history of 3 lines. *)
Definition small_console : syscfg :=
  {| CONSOLE_MAX_INPUT_LEN := 8;
     CONSOLE_HISTORY_SIZE := 3;
     CONSOLE_STICKY_PROMPT := false;
     CONSOLE_PROMPT_SOFT_CURSOR := false;
     CONSOLE_HIDE_CURSOR_IN_LOG_AREA := false;
     CONSOLE_PROMPT_SOFT_CURSOR_ATTR := [] |}.

(** ** The state of the console *)

(** The variables of [console.c] the functions below read and write, the
    array [input->line] of the line being edited, which the functions
    receive as [line] or [pos], and the characters handed to
    [console_out_nolock] so far. *)
Record console : Type := {
  g_console_silence : bool;
  g_is_output_nlip : Z;
  console_is_midline : Z;
  holding_lf : bool;
  prompt_has_focus : bool;
  terminal_size_requested : bool;
  max_row : Z;
  console_prompt : list Z;
  prompt_len : Z;
  esc_state : Z;
  ansi_val : Z;
  ansi_val_2 : Z;
  echo : Z;
  cur : Z;
  trailing_chars : Z;
  input_line : list Z;
  history : hist_mem;
  output : list Z
}.

Definition set_console_is_midline (c : console) (v : Z) : console :=
  {| g_console_silence := g_console_silence c;
     g_is_output_nlip := g_is_output_nlip c;
     console_is_midline := v;
     holding_lf := holding_lf c;
     prompt_has_focus := prompt_has_focus c;
     terminal_size_requested := terminal_size_requested c;
     max_row := max_row c;
     console_prompt := console_prompt c;
     prompt_len := prompt_len c;
     esc_state := esc_state c;
     ansi_val := ansi_val c;
     ansi_val_2 := ansi_val_2 c;
     echo := echo c;
     cur := cur c;
     trailing_chars := trailing_chars c;
     input_line := input_line c;
     history := history c;
     output := output c |}.

Definition set_holding_lf (c : console) (v : bool) : console :=
  {| g_console_silence := g_console_silence c;
     g_is_output_nlip := g_is_output_nlip c;
     console_is_midline := console_is_midline c;
     holding_lf := v;
     prompt_has_focus := prompt_has_focus c;
     terminal_size_requested := terminal_size_requested c;
     max_row := max_row c;
     console_prompt := console_prompt c;
     prompt_len := prompt_len c;
     esc_state := esc_state c;
     ansi_val := ansi_val c;
     ansi_val_2 := ansi_val_2 c;
     echo := echo c;
     cur := cur c;
     trailing_chars := trailing_chars c;
     input_line := input_line c;
     history := history c;
     output := output c |}.

Definition set_terminal_size_requested (c : console) (v : bool) : console :=
  {| g_console_silence := g_console_silence c;
     g_is_output_nlip := g_is_output_nlip c;
     console_is_midline := console_is_midline c;
     holding_lf := holding_lf c;
     prompt_has_focus := prompt_has_focus c;
     terminal_size_requested := v;
     max_row := max_row c;
     console_prompt := console_prompt c;
     prompt_len := prompt_len c;
     esc_state := esc_state c;
     ansi_val := ansi_val c;
     ansi_val_2 := ansi_val_2 c;
     echo := echo c;
     cur := cur c;
     trailing_chars := trailing_chars c;
     input_line := input_line c;
     history := history c;
     output := output c |}.

Definition set_max_row (c : console) (v : Z) : console :=
  {| g_console_silence := g_console_silence c;
     g_is_output_nlip := g_is_output_nlip c;
     console_is_midline := console_is_midline c;
     holding_lf := holding_lf c;
     prompt_has_focus := prompt_has_focus c;
     terminal_size_requested := terminal_size_requested c;
     max_row := v;
     console_prompt := console_prompt c;
     prompt_len := prompt_len c;
     esc_state := esc_state c;
     ansi_val := ansi_val c;
     ansi_val_2 := ansi_val_2 c;
     echo := echo c;
     cur := cur c;
     trailing_chars := trailing_chars c;
     input_line := input_line c;
     history := history c;
     output := output c |}.

Definition set_esc_state (c : console) (v : Z) : console :=
  {| g_console_silence := g_console_silence c;
     g_is_output_nlip := g_is_output_nlip c;
     console_is_midline := console_is_midline c;
     holding_lf := holding_lf c;
     prompt_has_focus := prompt_has_focus c;
     terminal_size_requested := terminal_size_requested c;
     max_row := max_row c;
     console_prompt := console_prompt c;
     prompt_len := prompt_len c;
     esc_state := v;
     ansi_val := ansi_val c;
     ansi_val_2 := ansi_val_2 c;
     echo := echo c;
     cur := cur c;
     trailing_chars := trailing_chars c;
     input_line := input_line c;
     history := history c;
     output := output c |}.

Definition set_ansi_val (c : console) (v : Z) : console :=
  {| g_console_silence := g_console_silence c;
     g_is_output_nlip := g_is_output_nlip c;
     console_is_midline := console_is_midline c;
     holding_lf := holding_lf c;
     prompt_has_focus := prompt_has_focus c;
     terminal_size_requested := terminal_size_requested c;
     max_row := max_row c;
     console_prompt := console_prompt c;
     prompt_len := prompt_len c;
     esc_state := esc_state c;
     ansi_val := v;
     ansi_val_2 := ansi_val_2 c;
     echo := echo c;
     cur := cur c;
     trailing_chars := trailing_chars c;
     input_line := input_line c;
     history := history c;
     output := output c |}.

Definition set_ansi_val_2 (c : console) (v : Z) : console :=
  {| g_console_silence := g_console_silence c;
     g_is_output_nlip := g_is_output_nlip c;
     console_is_midline := console_is_midline c;
     holding_lf := holding_lf c;
     prompt_has_focus := prompt_has_focus c;
     terminal_size_requested := terminal_size_requested c;
     max_row := max_row c;
     console_prompt := console_prompt c;
     prompt_len := prompt_len c;
     esc_state := esc_state c;
     ansi_val := ansi_val c;
     ansi_val_2 := v;
     echo := echo c;
     cur := cur c;
     trailing_chars := trailing_chars c;
     input_line := input_line c;
     history := history c;
     output := output c |}.

Definition set_echo (c : console) (v : Z) : console :=
  {| g_console_silence := g_console_silence c;
     g_is_output_nlip := g_is_output_nlip c;
     console_is_midline := console_is_midline c;
     holding_lf := holding_lf c;
     prompt_has_focus := prompt_has_focus c;
     terminal_size_requested := terminal_size_requested c;
     max_row := max_row c;
     console_prompt := console_prompt c;
     prompt_len := prompt_len c;
     esc_state := esc_state c;
     ansi_val := ansi_val c;
     ansi_val_2 := ansi_val_2 c;
     echo := v;
     cur := cur c;
     trailing_chars := trailing_chars c;
     input_line := input_line c;
     history := history c;
     output := output c |}.

Definition set_cur (c : console) (v : Z) : console :=
  {| g_console_silence := g_console_silence c;
     g_is_output_nlip := g_is_output_nlip c;
     console_is_midline := console_is_midline c;
     holding_lf := holding_lf c;
     prompt_has_focus := prompt_has_focus c;
     terminal_size_requested := terminal_size_requested c;
     max_row := max_row c;
     console_prompt := console_prompt c;
     prompt_len := prompt_len c;
     esc_state := esc_state c;
     ansi_val := ansi_val c;
     ansi_val_2 := ansi_val_2 c;
     echo := echo c;
     cur := v;
     trailing_chars := trailing_chars c;
     input_line := input_line c;
     history := history c;
     output := output c |}.

Definition set_trailing_chars (c : console) (v : Z) : console :=
  {| g_console_silence := g_console_silence c;
     g_is_output_nlip := g_is_output_nlip c;
     console_is_midline := console_is_midline c;
     holding_lf := holding_lf c;
     prompt_has_focus := prompt_has_focus c;
     terminal_size_requested := terminal_size_requested c;
     max_row := max_row c;
     console_prompt := console_prompt c;
     prompt_len := prompt_len c;
     esc_state := esc_state c;
     ansi_val := ansi_val c;
     ansi_val_2 := ansi_val_2 c;
     echo := echo c;
     cur := cur c;
     trailing_chars := v;
     input_line := input_line c;
     history := history c;
     output := output c |}.

Definition set_input_line (c : console) (v : list Z) : console :=
  {| g_console_silence := g_console_silence c;
     g_is_output_nlip := g_is_output_nlip c;
     console_is_midline := console_is_midline c;
     holding_lf := holding_lf c;
     prompt_has_focus := prompt_has_focus c;
     terminal_size_requested := terminal_size_requested c;
     max_row := max_row c;
     console_prompt := console_prompt c;
     prompt_len := prompt_len c;
     esc_state := esc_state c;
     ansi_val := ansi_val c;
     ansi_val_2 := ansi_val_2 c;
     echo := echo c;
     cur := cur c;
     trailing_chars := trailing_chars c;
     input_line := v;
     history := history c;
     output := output c |}.

Definition set_history (c : console) (v : hist_mem) : console :=
  {| g_console_silence := g_console_silence c;
     g_is_output_nlip := g_is_output_nlip c;
     console_is_midline := console_is_midline c;
     holding_lf := holding_lf c;
     prompt_has_focus := prompt_has_focus c;
     terminal_size_requested := terminal_size_requested c;
     max_row := max_row c;
     console_prompt := console_prompt c;
     prompt_len := prompt_len c;
     esc_state := esc_state c;
     ansi_val := ansi_val c;
     ansi_val_2 := ansi_val_2 c;
     echo := echo c;
     cur := cur c;
     trailing_chars := trailing_chars c;
     input_line := input_line c;
     history := v;
     output := output c |}.

Definition set_output (c : console) (v : list Z) : console :=
  {| g_console_silence := g_console_silence c;
     g_is_output_nlip := g_is_output_nlip c;
     console_is_midline := console_is_midline c;
     holding_lf := holding_lf c;
     prompt_has_focus := prompt_has_focus c;
     terminal_size_requested := terminal_size_requested c;
     max_row := max_row c;
     console_prompt := console_prompt c;
     prompt_len := prompt_len c;
     esc_state := esc_state c;
     ansi_val := ansi_val c;
     ansi_val_2 := ansi_val_2 c;
     echo := echo c;
     cur := cur c;
     trailing_chars := trailing_chars c;
     input_line := input_line c;
     history := history c;
     output := v |}.

(** [int] from [unsigned int], by wrap-around. *)
Definition s32 (v : Z) : Z := if u32 v <? 2 ^ 31 then u32 v else u32 v - 2 ^ 32.

(** [console_echo]. *)
Definition console_echo (on : Z) (c : console) : console := set_echo c on.

(** [console_out_nolock] on the state: the value returned and the state
    afterwards. *)
Definition out_nolock (ch : Z) (c : console) : Z * console :=
  let r := console_out_nolock ch (output c) in
  (fst r, set_output c (snd r)).

(** [console_write_nolock (str, cnt)] on an array [str]: [None] when a
    character is read past the end of the array. *)
Fixpoint console_write_nolock_n (str : list Z) (cnt : nat) (o : list Z)
    {struct cnt} : option (list Z) :=
  match cnt with
  | O => Some o
  | S k =>
      match str with
      | [] => None
      | ch :: rest =>
          let r := console_out_nolock ch o in
          if fst r =? EOF then Some (snd r)
          else console_write_nolock_n rest k (snd r)
      end
  end.

(** ** Output with the last line feed held back *)

Section Console.

Variable cfg : syscfg.



(** ** Editing the line *)

(** [cursor_save], [cursor_restore] and [cursor_clear_line]. *)
Definition cursor_save (c : console) : console :=
  snd (out_nolock 115 (snd (out_nolock 91 (snd (out_nolock ESC c))))).

Definition cursor_restore (c : console) : console :=
  snd (out_nolock 117 (snd (out_nolock 91 (snd (out_nolock ESC c))))).

Definition cursor_clear_line (c : console) : console :=
  snd (out_nolock 75 (snd (out_nolock 91 (snd (out_nolock ESC c))))).

(** [console_write_str (str)], for a string literal. *)
Definition console_write_str (str : list Z) (c : console) : console :=
  set_output c (console_write_nolock str (output c)).

(** [cursor_forward] and [cursor_backward] on the state. *)
Definition move_forward (count : Z) (c : console) : option console :=
  option_map (set_output c) (cursor_forward count (output c)).

Definition move_backward (count : Z) (c : console) : option console :=
  option_map (set_output c) (cursor_backward count (output c)).

(** The loop [while (end-- > 0)] of [insert_char], [n] iterations from
    [pos]: the array and the trace afterwards. *)
Fixpoint insert_shift (n : nat) (echo_on : bool) (buf : list Z) (pos : nat)
    (tmp : Z) (o : list Z) : option (list Z * list Z) :=
  match n with
  | O => Some (buf, o)
  | S n' =>
      let o1 := if echo_on then snd (console_out_nolock tmp o) else o in
      match nth_error buf pos with
      | None => None
      | Some ch =>
          match buf_store buf pos tmp with
          | None => None
          | Some buf' => insert_shift n' echo_on buf' (S pos) ch o1
          end
      end
  end.

(** [insert_char (pos, c)], with [pos] pointing [pos] characters into the
    line: [None] when the line is read or written past its end. *)
Definition insert_char (pos : nat) (ch : Z) (c : console) : option console :=
  let end_ := trailing_chars c in
  if cur c + end_ >=? CONSOLE_MAX_INPUT_LEN cfg - 1 then Some c
  else
    let echo_on := negb (echo c =? 0) in
    let c1 := if echo_on then snd (out_nolock ch c) else c in
    let c2 := set_cur c1 (u16 (cur c1 + 1)) in
    if end_ =? 0 then
      option_map (set_input_line c2) (buf_store (input_line c2) pos ch)
    else
      match nth_error (input_line c2) pos with
      | None => None
      | Some tmp =>
          match buf_store (input_line c2) pos ch with
          | None => None
          | Some buf1 =>
              match insert_shift (Z.to_nat end_) echo_on buf1 (S pos) tmp
                      (output c2) with
              | None => None
              | Some (buf2, o2) =>
                  let c3 := set_output (set_input_line c2 buf2) o2 in
                  if echo_on then move_backward (trailing_chars c3) c3
                  else Some c3
              end
          end
      end.

(** The loop [while (left-- > 1)] of [del_char], [n] iterations from
    [pos]. *)
Fixpoint del_shift (n : nat) (buf : list Z) (pos : nat) (o : list Z)
    : option (list Z * list Z) :=
  match n with
  | O => Some (buf, o)
  | S n' =>
      match nth_error buf (S pos) with
      | None => None
      | Some ch =>
          match buf_store buf pos ch with
          | None => None
          | Some buf' =>
              del_shift n' buf' (S pos)
                (snd (console_out_nolock (nth pos buf' 0) o))
          end
      end
  end.

(** [del_char (pos)]. *)
Definition del_char (pos : nat) (c : console) : option console :=
  match del_shift (Z.to_nat (trailing_chars c - 1)) (input_line c) pos
          (output c) with
  | None => None
  | Some (buf, o) =>
      let c1 := set_output (set_input_line c buf) o in
      if trailing_chars c1 =? 0 then Some c1
      else
        match move_backward (trailing_chars c1) (snd (out_nolock 32 c1)) with
        | None => None
        | Some c2 => Some (set_trailing_chars c2 (u16 (trailing_chars c2 - 1)))
        end
  end.

(** [console_clear_line]. *)
Definition console_clear_line (c : console) : option console :=
  match (if cur c =? 0 then Some c else move_backward (cur c) c) with
  | None => None
  | Some c1 => Some (cursor_clear_line (set_trailing_chars (set_cur c1 0) 0))
  end.

(** The loop [while (str && *str != 0)] of [console_hist_move], with [str]
    the characters from the pointer to the end of its row; [&line[cur]] is
    taken anew for each character. *)
Fixpoint insert_string (str : list Z) (c : console) : option console :=
  match str with
  | [] => None
  | ch :: rest =>
      if ch =? 0 then Some c
      else
        match insert_char (Z.to_nat (cur c)) ch c with
        | None => None
        | Some c' => insert_string rest c'
        end
  end.

(** [console_hist_move (line, direction)]: [None] also when [sh->curr] is
    not an index of [sh->lines] or the line is not a row of
    [console_hist_lines]. *)
Definition console_hist_move (direction : Z) (c : console) : option console :=
  let h := sh (history c) in
  let limit := if direction =? ANSI_UP then tail h else head h in
  if curr h =? limit then Some c
  else
    let curr' :=
      if direction =? ANSI_UP then ring_buf_prev (curr h) (size h)
      else ring_buf_next (curr h) (size h) in
    let c1 :=
      set_history c {| sh := set_curr h curr';
                       console_hist_lines := console_hist_lines (history c) |} in
    match console_clear_line c1 with
    | None => None
    | Some c2 =>
        match nth_error (lines h) (Z.to_nat curr') with
        | None => None
        | Some None => Some c2
        | Some (Some p) =>
            match nth_error (console_hist_lines (history c)) p with
            | None => None
            | Some row => insert_string row c2
            end
        end
    end.

(** [handle_home], [handle_delete (line)] and [handle_end]. *)
Definition handle_home (c : console) : option console :=
  if cur c =? 0 then Some c
  else
    match move_backward (cur c) c with
    | None => None
    | Some c1 =>
        Some (set_cur (set_trailing_chars c1
                         (u16 (trailing_chars c1 + cur c1))) 0)
    end.

Definition handle_delete (c : console) : option console :=
  if trailing_chars c =? 0 then Some c
  else del_char (Z.to_nat (cur c)) c.

Definition handle_end (c : console) : option console :=
  if trailing_chars c =? 0 then Some c
  else
    match move_forward (trailing_chars c) c with
    | None => None
    | Some c1 =>
        Some (set_trailing_chars (set_cur c1 (u16 (cur c1 + trailing_chars c1)))
                0)
    end.

(** ** Escape sequences received *)

(** [console_cursor_set] and [console_set_scrolling_region] on the state. *)
Definition cursor_set (row column : Z) (c : console) : option console :=
  option_map (set_output c) (console_cursor_set row column (output c)).

Definition set_scrolling_region (top bottom : Z) (c : console)
    : option console :=
  option_map (set_output c) (console_set_scrolling_region top bottom (output c)).

(** The case [DSR_CPS] of [handle_ansi]: [None] also when [max_row - 1]
    overflows or a character is read past the end of an array. *)
Definition handle_dsr_cps (c : console) : option console :=
  if CONSOLE_STICKY_PROMPT cfg && terminal_size_requested c then
    let c1 := set_max_row (set_terminal_size_requested c false)
                (s32 (ansi_val c)) in
    if max_row c1 - 1 <? - 2 ^ 31 then None
    else
      match cursor_set (max_row c1 - 1) 1 c1 with
      | None => None
      | Some c2 =>
          match set_scrolling_region 1 (max_row c1 - 1) (cursor_save c2) with
          | None => None
          | Some c3 =>
              if prompt_len c3 =? 0 then Some (cursor_restore c3)
              else
                match cursor_set (max_row c3) 1 c3 with
                | None => None
                | Some c4 =>
                    match console_write_nolock_n (console_prompt c4)
                            (Z.to_nat (prompt_len c4)) (output c4) with
                    | None => None
                    | Some o5 =>
                        match console_write_nolock_n (input_line c4)
                                (Z.to_nat (cur c4 + trailing_chars c4)) o5 with
                        | None => None
                        | Some o6 =>
                            let c6 :=
                              console_write_str (CSI ++ [75])
                                (set_output c4 o6) in
                            option_map cursor_restore
                              (move_backward (trailing_chars c6) c6)
                        end
                    end
                end
          end
      end
  else Some c.

(** The commands of [handle_ansi], from the label [ansi_cmd] on. *)
Definition ansi_cmd (byte : Z) (c : console) : option console :=
  let r :=
    if ((byte =? ANSI_UP) || (byte =? ANSI_DOWN))
       && (CONSOLE_HISTORY_SIZE cfg >? 0)
    then console_hist_move byte c
    else if byte =? ANSI_BACKWARD then
      if ansi_val c >? cur c then Some c
      else
        let c1 := set_trailing_chars c (u16 (trailing_chars c + ansi_val c)) in
        let c2 := set_cur c1 (u16 (cur c1 - ansi_val c1)) in
        move_backward (ansi_val c2) c2
    else if byte =? ANSI_FORWARD then
      if ansi_val c >? trailing_chars c then Some c
      else
        let c1 := set_trailing_chars c (u16 (trailing_chars c - ansi_val c)) in
        let c2 := set_cur c1 (u16 (cur c1 + ansi_val c1)) in
        move_forward (ansi_val c2) c2
    else if byte =? ANSI_HOME then handle_home c
    else if byte =? ANSI_END then handle_end c
    else if byte =? ANSI_DEL then
      if ansi_val c =? 1 then handle_home c
      else if ansi_val c =? 3 then handle_delete c
      else if ansi_val c =? 4 then handle_end c
      else Some c
    else if byte =? DSR_CPS then handle_dsr_cps c
    else Some c in
  option_map
    (fun c' => set_esc_state c' (Z.land (esc_state c') (Z.lnot ESC_ANSI))) r.

(** [handle_ansi (byte, line)]. *)
Definition handle_ansi (byte : Z) (c : console) : option console :=
  if negb (Z.land (esc_state c) ESC_ANSI_FIRST =? 0) then
    let c1 := set_esc_state c (Z.land (esc_state c) (Z.lnot ESC_ANSI_FIRST)) in
    if negb (isdigit byte) then ansi_cmd byte (set_ansi_val c1 1)
    else
      let c2 := set_esc_state c1 (Z.lor (esc_state c1) ESC_ANSI_VAL) in
      Some (set_ansi_val_2 (set_ansi_val c2 (u32 (byte - 48))) 0)
  else if negb (Z.land (esc_state c) ESC_ANSI_VAL =? 0) then
    if isdigit byte then
      if negb (Z.land (esc_state c) ESC_ANSI_VAL_2 =? 0) then
        Some (set_ansi_val_2 c (u32 (u32 (ansi_val_2 c * 10) + (byte - 48))))
      else
        Some (set_ansi_val c (u32 (u32 (ansi_val c * 10) + (byte - 48))))
    else if (byte =? 59) && (Z.land (esc_state c) ESC_ANSI_VAL_2 =? 0) then
      Some (set_esc_state c (Z.lor (esc_state c) ESC_ANSI_VAL_2))
    else
      let c1 := set_esc_state c (Z.land (esc_state c) (Z.lnot ESC_ANSI_VAL)) in
      let c2 :=
        set_esc_state c1 (Z.land (esc_state c1) (Z.lnot ESC_ANSI_VAL_2)) in
      ansi_cmd byte c2
  else ansi_cmd byte c.

End Console.

(** The sequence that moves the cursor [count] places: [CSI <count> C] or
    [CSI <count> D], nothing for no place. *)
Definition cursor_move (count dir : Z) : list Z :=
  if count =? 0 then [] else CSI ++ decimal count ++ [dir].

(** The line being edited: the characters before the cursor and after it. *)
Definition line_text (c : console) : list Z :=
  firstn (Z.to_nat (cur c + trailing_chars c)) (input_line c).

(** The cursor and the characters after it lie within the line, which has
    room for [CONSOLE_MAX_INPUT_LEN] characters, and the last of them is
    left for the NUL. *)
Definition line_ok (cfg : syscfg) (c : console) : bool :=
  (0 <=? cur c) && (0 <=? trailing_chars c)
  && (cur c + trailing_chars c <=? CONSOLE_MAX_INPUT_LEN cfg - 1)
  && (CONSOLE_MAX_INPUT_LEN cfg <=? Z.of_nat (length (input_line c)))
  && (CONSOLE_MAX_INPUT_LEN cfg <=? 65536).

(** The bytes that follow [ESC \[], handed one by one to [handle_ansi] as
    [console_handle_char] does as long as [ESC_ANSI] is set. *)
Fixpoint handle_ansi_bytes (cfg : syscfg) (bytes : list Z) (c : console)
    : option console :=
  match bytes with
  | [] => Some c
  | byte :: rest =>
      if Z.land (esc_state c) ESC_ANSI =? 0 then Some c
      else
        match handle_ansi cfg byte c with
        | None => None
        | Some c' => handle_ansi_bytes cfg rest c'
        end
  end.

(** A configuration with a sticky prompt, and a console at work: the
    terminal has 24 rows, the prompt is "> ", the line holds "hi!" with the
    cursor before the "!", the history is empty. *)
Definition sticky_console : syscfg :=
  {| CONSOLE_MAX_INPUT_LEN := 8;
     CONSOLE_HISTORY_SIZE := 3;
     CONSOLE_STICKY_PROMPT := true;
     CONSOLE_PROMPT_SOFT_CURSOR := false;
     CONSOLE_HIDE_CURSOR_IN_LOG_AREA := false;
     CONSOLE_PROMPT_SOFT_CURSOR_ATTR := [] |}.

Definition sample_console : console :=
  {| g_console_silence := false;
     g_is_output_nlip := 0;
     console_is_midline := 0;
     holding_lf := false;
     prompt_has_focus := false;
     terminal_size_requested := false;
     max_row := 24;
     console_prompt := [62; 32; 0; 0];
     prompt_len := 2;
     esc_state := 0;
     ansi_val := 0;
     ansi_val_2 := 0;
     echo := 1;
     cur := 2;
     trailing_chars := 1;
     input_line := [104; 105; 33; 0; 0; 0; 0; 0];
     history := console_hist_init small_console;
     output := [] |}.

(** What the functions that handle input keep: the line is in order, the
    history satisfies its invariant with [curr] inside the ring, the
    number of the escape sequence is an [unsigned int] and the prompt lies
    within [console_prompt]. *)
Definition console_ok (cfg : syscfg) (c : console) : Prop :=
  line_ok cfg c = true
  /\ hist_inv cfg (history c)
  /\ 0 <= curr (sh (history c)) < size (sh (history c))
  /\ 0 <= ansi_val c < 2 ^ 32
  /\ 0 <= prompt_len c <= Z.of_nat (length (console_prompt c)).

(** * Properties *)

(** ** Layout arithmetic *)

Lemma align_up_ge (off al : Z) : 0 < al -> off <= align_up off al.
Proof.
  intros Hal. unfold align_up.
  pose proof (Z.div_mod (off + al - 1) al ltac:(lia)) as Hdm.
  pose proof (Z.mod_pos_bound (off + al - 1) al Hal) as Hb.
  nia.
Qed.

Lemma valid_abi_cases (a : abi) :
  valid_abi a = true ->
  (align16 a = 1 \/ align16 a = 2)
  /\ (align32 a = 1 \/ align32 a = 2 \/ align32 a = 4).
Proof.
  unfold valid_abi. rewrite andb_true_iff, !orb_true_iff, !Z.eqb_eq. tauto.
Qed.

Lemma type_align_pos (a : abi) (t : ctype) :
  valid_abi a = true -> 0 < type_align a t.
Proof.
  intros Hv. destruct (valid_abi_cases a Hv) as [H16 H32].
  unfold type_align, scalar_align. destruct (elem_type t); lia.
Qed.

Lemma struct_align_pos (a : abi) (fs : list field) : 0 < struct_align a fs.
Proof.
  unfold struct_align. induction fs as [|f fs IH]; simpl; lia.
Qed.

(** ** Little-endian bytes *)

Lemma le_bytes_length (n : nat) (v : Z) : length (le_bytes n v) = n.
Proof.
  revert v. induction n as [|n IH]; intros v; simpl; [reflexivity|].
  now rewrite IH.
Qed.

Lemma le_value_le_bytes (n : nat) (v : Z) :
  0 <= v < 2 ^ (8 * Z.of_nat n) -> le_value (le_bytes n v) = v.
Proof.
  revert v. induction n as [|n IH]; intros v Hv.
  - simpl in *. lia.
  - cbn [le_bytes le_value]. unfold low_byte, drop_byte.
    replace (8 * Z.of_nat (S n)) with (8 + 8 * Z.of_nat n) in Hv by lia.
    rewrite Z.pow_add_r in Hv by lia. change (2 ^ 8) with 256 in Hv.
    rewrite IH.
    + pose proof (Z.div_mod v 256 ltac:(lia)). lia.
    + split; [apply Z.div_pos; lia|].
      apply Z.div_lt_upper_bound; lia.
Qed.

Lemma in_range_spec (s : scalar) (v : Z) :
  in_range s v = true -> 0 <= v < 2 ^ (8 * Z.of_nat (Z.to_nat (scalar_size s))).
Proof.
  unfold in_range. rewrite andb_true_iff, Z.leb_le, Z.ltb_lt.
  rewrite Z2Nat.id by (destruct s; simpl; lia). tauto.
Qed.

Lemma member_bytes_length (t : ctype) (vs : list Z) :
  Z.of_nat (length vs) = elem_count t ->
  Z.of_nat (length (member_bytes t vs)) = sizeof_type t.
Proof.
  intros Hlen. unfold sizeof_type, member_bytes. rewrite <- Hlen. clear Hlen.
  induction vs as [|v vs IH]; [reflexivity|].
  cbn [flat_map length]. rewrite length_app, le_bytes_length, !Nat2Z.inj_add.
  rewrite IH, Z2Nat.id by (destruct (elem_type t); simpl; lia).
  change (length (v :: vs)) with (S (length vs)). lia.
Qed.

Lemma chunks_member_bytes (s : scalar) (vs : list Z) (rest : list Z) :
  forallb (in_range s) vs = true ->
  map le_value
    (chunks (Z.to_nat (scalar_size s)) (length vs)
       (flat_map (le_bytes (Z.to_nat (scalar_size s))) vs ++ rest)) = vs.
Proof.
  induction vs as [|v vs IH]; intros Hr; [reflexivity|].
  cbn [forallb] in Hr. apply andb_true_iff in Hr as [Hv Hvs].
  cbn [flat_map length chunks map]. rewrite <- app_assoc.
  rewrite firstn_app, le_bytes_length, Nat.sub_diag, firstn_O, app_nil_r.
  rewrite firstn_all2 by (rewrite le_bytes_length; lia).
  rewrite skipn_app, le_bytes_length, Nat.sub_diag, skipn_O.
  rewrite skipn_all2 by (rewrite le_bytes_length; lia).
  cbn [app]. rewrite IH by assumption.
  now rewrite le_value_le_bytes by (apply in_range_spec; assumption).
Qed.

(** ** Images and their members *)

Section Image.
Variable a : abi.
Variable pad : Z.
Hypothesis a_valid : valid_abi a = true.

(** Reading the members of an image gives the values it was built from,
    wherever the image lies ([pre]) and whatever follows it ([suf]). *)
Lemma members_image_from (size : Z) (fs : list field) :
  forall (vals : list (list Z)) (off : Z) (pre suf : list Z),
    values_fit fs vals = true ->
    Z.of_nat (length pre) = off ->
    members_from a off fs (pre ++ image_from a pad size off fs vals ++ suf) = vals.
Proof.
  induction fs as [|f fs IH]; intros vals off pre suf Hfit Hpre;
    destruct vals as [|v vals]; try discriminate; [reflexivity|].
  cbn [values_fit] in Hfit.
  apply andb_true_iff in Hfit as [Hfit Hrest].
  apply andb_true_iff in Hfit as [Hcount Hrange].
  apply Z.eqb_eq in Hcount.
  cbn [members_from image_from]. cbv zeta.
  set (t := fld_type f) in *.
  set (o := align_up off (type_align a t)).
  assert (off <= o) as Hge by (apply align_up_ge, type_align_pos, a_valid).
  pose proof (member_bytes_length t v Hcount) as Hmb.
  f_equal.
  - unfold bytes_at.
    rewrite <- !app_assoc, (app_assoc pre).
    rewrite skipn_app.
    rewrite skipn_all2 by (rewrite length_app, repeat_length; lia).
    replace (Z.to_nat o - length (pre ++ repeat pad (Z.to_nat (o - off))))%nat
      with 0%nat by (rewrite length_app, repeat_length; lia).
    cbn [skipn app].
    rewrite firstn_app.
    replace (Z.to_nat (sizeof_type t) - length (member_bytes t v))%nat
      with 0%nat by lia.
    rewrite firstn_O, app_nil_r, firstn_all2 by lia.
    replace (Z.to_nat (elem_count t)) with (length v) by lia.
    unfold member_bytes.
    rewrite <- (app_nil_r (flat_map _ v)).
    now apply chunks_member_bytes.
  - rewrite <- !app_assoc, (app_assoc pre), (app_assoc (pre ++ _)).
    apply IH; [assumption|].
    rewrite !length_app, repeat_length, !Nat2Z.inj_add. lia.
Qed.

Lemma image_from_length (size : Z) (fs : list field) :
  forall (vals : list (list Z)) (off : Z),
    values_fit fs vals = true ->
    end_from a off fs <= size ->
    Z.of_nat (length (image_from a pad size off fs vals)) = size - off.
Proof.
  induction fs as [|f fs IH]; intros vals off Hfit Hend;
    destruct vals as [|v vals]; try discriminate.
  - cbn [image_from end_from] in *. rewrite repeat_length. lia.
  - cbn [values_fit] in Hfit.
    apply andb_true_iff in Hfit as [Hfit Hrest].
    apply andb_true_iff in Hfit as [Hcount Hrange].
    apply Z.eqb_eq in Hcount.
    cbn [image_from end_from] in *. cbv zeta in *.
    assert (off <= align_up off (type_align a (fld_type f))) as Hge
      by (apply align_up_ge, type_align_pos, a_valid).
    rewrite !length_app, repeat_length, !Nat2Z.inj_add.
    rewrite (member_bytes_length _ _ Hcount), (IH _ _ Hrest Hend). lia.
Qed.

Lemma struct_image_length (fs : list field) (vals : list (list Z)) :
  values_fit fs vals = true ->
  Z.of_nat (length (struct_image a pad fs vals)) = sizeof_struct a fs.
Proof.
  intros Hfit. unfold struct_image.
  rewrite image_from_length; [lia|assumption|].
  unfold sizeof_struct. apply align_up_ge, struct_align_pos.
Qed.

Lemma struct_members_image (fs : list field) (vals : list (list Z))
    (suf : list Z) :
  values_fit fs vals = true ->
  struct_members a fs (struct_image a pad fs vals ++ suf) = vals.
Proof.
  intros Hfit. unfold struct_members, struct_image.
  now apply (members_image_from _ fs vals 0 [] suf).
Qed.

Lemma record_payload (fs : list field) (vals : list (list Z)) (suf : list Z) :
  values_fit fs vals = true ->
  skipn (Z.to_nat (sizeof_struct a fs)) (struct_image a pad fs vals ++ suf) = suf.
Proof.
  intros Hfit. pose proof (struct_image_length fs vals Hfit) as Hlen.
  rewrite skipn_app, skipn_all2 by lia.
  replace (Z.to_nat (sizeof_struct a fs) - length (struct_image a pad fs vals))%nat
    with 0%nat by lia.
  reflexivity.
Qed.
End Image.

(** ** The on-disk records *)

Lemma records_packed_iff (a : abi) :
  valid_abi a = true ->
  (records_packed a <-> align16 a = 1 /\ align32 a = 1).
Proof.
  intros Hv. destruct (valid_abi_cases a Hv) as [H16 H32].
  destruct a as [a16 a32]; simpl in *. unfold records_packed.
  destruct H16 as [-> | ->]; destruct H32 as [-> | [-> | ->]];
    vm_compute; intuition congruence.
Qed.

(** C1 (as the code has it).  The structures carry no packing attribute, so
    whether [ecc] immediately follows the previous member is decided by the
    alignment the ABI gives the integer types: the records are packed
    exactly when every alignment is 1.  Under natural alignment the inode's [fdi_ecc] is at
    offset 20, after one padding byte at offset 19, and the block's
    [fdb_ecc] is at offset 28, after two padding bytes at offsets 26 and 27;
    every other member immediately follows its predecessor, and the
    structures occupy 24 and 32 bytes. *)
Theorem disk_record_padding (a : abi) :
  valid_abi a = true ->
  (records_packed a <-> align16 a = 1 /\ align32 a = 1)
  /\ offsets_from natural_abi 0 ffs_disk_inode_fields =
       [("fdi_magic", 0); ("fdi_id", 4); ("fdi_seq", 8); ("fdi_parent_id", 12);
        ("fdi_flags", 16); ("fdi_filename_len", 18); ("fdi_ecc", 20)]
  /\ sizeof_struct natural_abi ffs_disk_inode_fields = 24
  /\ padding_bytes natural_abi ffs_disk_inode_fields = 1
  /\ offsets_from natural_abi 0 ffs_disk_block_fields =
       [("fdb_magic", 0); ("fdb_id", 4); ("fdb_seq", 8); ("fdb_rank", 12);
        ("fdb_inode_id", 16); ("reserved16", 20); ("fdb_flags", 22);
        ("fdb_data_len", 24); ("fdb_ecc", 28)]
  /\ sizeof_struct natural_abi ffs_disk_block_fields = 32
  /\ padding_bytes natural_abi ffs_disk_block_fields = 2.
Proof.
  intros Hv. split; [now apply records_packed_iff|].
  repeat split.
Qed.

Lemma disk_record_padding_witness :
  (records_packed packed_abi <->
   align16 packed_abi = 1 /\ align32 packed_abi = 1)
  /\ offsetof natural_abi ffs_disk_inode_fields "fdi_ecc" = Some 20
  /\ offsetof natural_abi ffs_disk_block_fields "fdb_ecc" = Some 28.
Proof.
  split; [exact (proj1 (disk_record_padding packed_abi eq_refl))|].
  split; reflexivity.
Defined.

(** C1 (as stated) fails: with the natural alignment of the targets the
    [ecc] members are not at offsets 19 and 26 and both layouts contain
    padding bytes. *)
Lemma records_not_packed_natural : ~ records_packed natural_abi.
Proof.
  intros [Hecc _]. vm_compute in Hecc. discriminate.
Qed.

(** C3.  The area header is four 32-bit magic words, a 32-bit length, a
    2-byte reserved word, a one-byte [fds_seq] and the one-byte
    [fds_is_scratch]; on every ABI the offset of [fds_is_scratch] is
    [FFS_AREA_OFFSET_IS_SCRATCH] = 23, so storing a byte at that offset of a
    header image yields the image of the header with [fds_is_scratch]
    replaced and every other byte intact. *)
Theorem is_scratch_offset (a : abi) (pad : Z) (h : ffs_disk_area) (b : Z) :
  valid_abi a = true ->
  values_fit ffs_disk_area_fields (ffs_disk_area_values h) = true ->
  0 <= b < 256 ->
  map fld_type ffs_disk_area_fields =
    [Array uint32_t 4; Scalar uint32_t; Scalar uint16_t; Scalar uint8_t;
     Scalar uint8_t]
  /\ field_widths ffs_disk_area_fields =
       [("fds_magic", 16); ("fds_length", 4); ("reserved16", 2);
        ("fds_seq", 1); ("fds_is_scratch", 1)]
  /\ FFS_AREA_OFFSET_IS_SCRATCH = 23
  /\ offsetof a ffs_disk_area_fields "fds_is_scratch"
       = Some FFS_AREA_OFFSET_IS_SCRATCH
  /\ store_byte (struct_image a pad ffs_disk_area_fields (ffs_disk_area_values h))
         (Z.to_nat FFS_AREA_OFFSET_IS_SCRATCH) b
       = struct_image a pad ffs_disk_area_fields
           (ffs_disk_area_values (set_fds_is_scratch h b)).
Proof.
  intros Hv Hfit Hb.
  destruct (valid_abi_cases a Hv) as [H16 H32].
  destruct a as [a16 a32]; simpl in H16, H32.
  do 3 (split; [reflexivity|]).
  assert (low_byte b = b) as Hlow by (unfold low_byte; apply Z.mod_small; lia).
  destruct h as [magic len res seq scr].
  cbn [values_fit ffs_disk_area_fields ffs_disk_area_values fld_type fld
       elem_count] in Hfit.
  apply andb_true_iff in Hfit as [Hfit _].
  apply andb_true_iff in Hfit as [Hcount _].
  apply Z.eqb_eq in Hcount.
  destruct magic as [|m0 [|m1 [|m2 [|m3 [|m4 magic]]]]];
    try (simpl in Hcount; lia).
  destruct H16 as [-> | ->]; destruct H32 as [-> | [-> | ->]];
    (split; [reflexivity|]);
    cbv -[low_byte drop_byte]; rewrite Hlow; reflexivity.
Qed.

Lemma is_scratch_offset_witness :
  offsetof natural_abi ffs_disk_area_fields "fds_is_scratch" = Some 23.
Proof.
  exact (proj1 (proj2 (proj2 (proj2
    (is_scratch_offset natural_abi 0
       {| fds_magic := [FFS_AREA_MAGIC0; FFS_AREA_MAGIC1; FFS_AREA_MAGIC2;
                        FFS_AREA_MAGIC3];
          fds_length := 16384; fds_reserved16 := 0; fds_seq := 0;
          fds_is_scratch := 1 |}
       0 eq_refl eq_refl ltac:(lia)))))).
Defined.

(** C4.  The inode record is the members magic, id, seq, parent_id (32 bits
    each), flags (16 bits), filename_len (8 bits) and ecc (32 bits), in this
    order, followed by [fdi_filename_len] bytes of filename; the block
    record is magic, id, seq, rank, inode_id (32 bits each), reserved16,
    flags, data_len (16 bits each) and ecc (32 bits), in this order,
    followed by [fdb_data_len] bytes of data.  Reading the members of a
    record at their offsets returns the values written, the payload starts
    right after the structure, and the record is as long as the structure
    plus the payload. *)
Theorem disk_record_fields (a : abi) (pad : Z)
    (di : ffs_disk_inode) (filename : list Z)
    (db : ffs_disk_block) (data : list Z) :
  valid_abi a = true ->
  values_fit ffs_disk_inode_fields (ffs_disk_inode_values di) = true ->
  values_fit ffs_disk_block_fields (ffs_disk_block_values db) = true ->
  Z.of_nat (length filename) = fdi_filename_len di ->
  Z.of_nat (length data) = fdb_data_len db ->
  field_widths ffs_disk_inode_fields =
    [("fdi_magic", 4); ("fdi_id", 4); ("fdi_seq", 4); ("fdi_parent_id", 4);
     ("fdi_flags", 2); ("fdi_filename_len", 1); ("fdi_ecc", 4)]
  /\ field_widths ffs_disk_block_fields =
       [("fdb_magic", 4); ("fdb_id", 4); ("fdb_seq", 4); ("fdb_rank", 4);
        ("fdb_inode_id", 4); ("reserved16", 2); ("fdb_flags", 2);
        ("fdb_data_len", 2); ("fdb_ecc", 4)]
  /\ (let r := ffs_disk_inode_record a pad di filename in
      struct_members a ffs_disk_inode_fields r = ffs_disk_inode_values di
      /\ skipn (Z.to_nat (sizeof_struct a ffs_disk_inode_fields)) r = filename
      /\ Z.of_nat (length r)
         = sizeof_struct a ffs_disk_inode_fields + fdi_filename_len di)
  /\ (let r := ffs_disk_block_record a pad db data in
      struct_members a ffs_disk_block_fields r = ffs_disk_block_values db
      /\ skipn (Z.to_nat (sizeof_struct a ffs_disk_block_fields)) r = data
      /\ Z.of_nat (length r)
         = sizeof_struct a ffs_disk_block_fields + fdb_data_len db).
Proof.
  intros Hv Hi Hb Hname Hdata.
  do 2 (split; [reflexivity|]).
  unfold ffs_disk_inode_record, ffs_disk_block_record. cbv zeta.
  rewrite !struct_members_image, !record_payload by assumption.
  rewrite !length_app, !Nat2Z.inj_add, !struct_image_length by assumption.
  rewrite Hname, Hdata. repeat split.
Qed.

Lemma disk_record_fields_witness :
  struct_members natural_abi ffs_disk_inode_fields
    (ffs_disk_inode_record natural_abi 255
       {| fdi_magic := FFS_INODE_MAGIC; fdi_id := 7; fdi_seq := 1;
          fdi_parent_id := 0; fdi_flags := 0; fdi_filename_len := 3;
          fdi_ecc := 0 |}
       [102; 111; 111])
  = [[FFS_INODE_MAGIC]; [7]; [1]; [0]; [0]; [3]; [0]].
Proof.
  exact (proj1 (proj1 (proj2 (proj2
    (disk_record_fields natural_abi 255
       {| fdi_magic := FFS_INODE_MAGIC; fdi_id := 7; fdi_seq := 1;
          fdi_parent_id := 0; fdi_flags := 0; fdi_filename_len := 3;
          fdi_ecc := 0 |}
       [102; 111; 111]
       {| fdb_magic := FFS_BLOCK_MAGIC; fdb_id := 8; fdb_seq := 0;
          fdb_rank := 0; fdb_inode_id := 7; fdb_reserved16 := 0;
          fdb_flags := 0; fdb_data_len := 2; fdb_ecc := 0 |}
       [90; 90]
       eq_refl eq_refl eq_refl eq_refl eq_refl))))).
Defined.

(** C5.  The magic numbers and layout constants have the values the
    specification fixes, and [FFS_BLOCK_DATA_LEN] is [FFS_BLOCK_SIZE] minus
    the size of the disk block structure (480 with natural alignment). *)
Theorem layout_constants :
  [FFS_AREA_MAGIC0; FFS_AREA_MAGIC1; FFS_AREA_MAGIC2; FFS_AREA_MAGIC3]
    = [0xb98a31e2; 0x7fb0428c; 0xace08253; 0xb185fc8e]
  /\ FFS_BLOCK_MAGIC = 0x53ba23b9
  /\ FFS_INODE_MAGIC = 0x925f8bc0
  /\ FFS_BLOCK_SIZE = 512
  /\ (forall a : abi,
        FFS_BLOCK_DATA_LEN a = 512 - sizeof_struct a ffs_disk_block_fields)
  /\ FFS_BLOCK_DATA_LEN natural_abi = 480
  /\ FFS_SHORT_FILENAME_LEN = 16
  /\ FFS_HASH_SIZE = 256
  /\ FFS_MAX_AREAS = 32
  /\ FFS_BLOCK_MAX_DATA_SZ = 2048.
Proof.
  repeat split.
Qed.

(** ** Flag bits *)

Lemma land_pow2 (x k : Z) :
  0 <= k -> Z.land x (2 ^ k) = if Z.testbit x k then 2 ^ k else 0.
Proof.
  intros Hk. apply Z.bits_inj'. intros n Hn.
  rewrite Z.land_spec, Z.pow2_bits_eqb by assumption.
  destruct (Z.eqb_spec k n) as [->|Hne].
  - destruct (Z.testbit x n); [now rewrite Z.pow2_bits_true|now rewrite Z.bits_0].
  - rewrite andb_false_r.
    destruct (Z.testbit x k); [|now rewrite Z.bits_0].
    rewrite Z.pow2_bits_eqb by assumption.
    symmetry. now apply Z.eqb_neq.
Qed.

Lemma flag_set_pow2 (flags k : Z) :
  0 <= k -> flag_set flags (2 ^ k) = Z.testbit flags k.
Proof.
  intros Hk. unfold flag_set. rewrite land_pow2 by assumption.
  destruct (Z.testbit flags k); [|reflexivity].
  assert (0 < 2 ^ k) by (apply Z.pow_pos_nonneg; lia).
  destruct (Z.eqb_spec (2 ^ k) 0); [lia|reflexivity].
Qed.

Lemma set_flag_pow2 (flags k n : Z) :
  0 <= k -> 0 <= n ->
  Z.testbit (set_flag flags (2 ^ k)) n = (k =? n) || Z.testbit flags n.
Proof.
  intros Hk Hn. unfold set_flag.
  rewrite Z.lor_spec, Z.pow2_bits_eqb by assumption. apply orb_comm.
Qed.

(** C6.  The inode flag bits are DELETED = 0x01, DUMMY = 0x02, DIRECTORY =
    0x04 and TEST = 0x80 and the block flag bit is DELETED = 0x01: testing a
    flag word against one of them reads bit 0, 1, 2 or 7 of the word, and
    setting one of them sets that bit and no other. *)
Theorem flag_bits :
  FFS_INODE_F_DELETED = 0x01
  /\ FFS_INODE_F_DUMMY = 0x02
  /\ FFS_INODE_F_DIRECTORY = 0x04
  /\ FFS_INODE_F_TEST = 0x80
  /\ FFS_BLOCK_F_DELETED = 0x01
  /\ (forall flags : Z,
        inode_is_deleted flags = Z.testbit flags 0
        /\ inode_is_dummy flags = Z.testbit flags 1
        /\ inode_is_directory flags = Z.testbit flags 2
        /\ inode_is_test flags = Z.testbit flags 7
        /\ block_is_deleted flags = Z.testbit flags 0)
  /\ (forall flags n : Z,
        Z.testbit (set_flag flags FFS_INODE_F_DELETED) n
          = (0 =? n) || Z.testbit flags n
        /\ Z.testbit (set_flag flags FFS_INODE_F_DUMMY) n
           = (1 =? n) || Z.testbit flags n
        /\ Z.testbit (set_flag flags FFS_INODE_F_DIRECTORY) n
           = (2 =? n) || Z.testbit flags n
        /\ Z.testbit (set_flag flags FFS_BLOCK_F_DELETED) n
           = (0 =? n) || Z.testbit flags n).
Proof.
  do 5 (split; [reflexivity|]).
  split.
  - intros flags.
    unfold inode_is_deleted, inode_is_dummy, inode_is_directory,
      inode_is_test, block_is_deleted.
    change FFS_INODE_F_DELETED with (2 ^ 0).
    change FFS_INODE_F_DUMMY with (2 ^ 1).
    change FFS_INODE_F_DIRECTORY with (2 ^ 2).
    change FFS_INODE_F_TEST with (2 ^ 7).
    change FFS_BLOCK_F_DELETED with (2 ^ 0).
    rewrite !flag_set_pow2 by lia. repeat split.
  - intros flags n.
    change FFS_INODE_F_DELETED with (2 ^ 0).
    change FFS_INODE_F_DUMMY with (2 ^ 1).
    change FFS_INODE_F_DIRECTORY with (2 ^ 2).
    change FFS_BLOCK_F_DELETED with (2 ^ 0).
    destruct (Z.ltb_spec n 0) as [Hneg|Hpos].
    + rewrite !Z.testbit_neg_r by assumption.
      repeat split; symmetry; rewrite orb_false_r; apply Z.eqb_neq; lia.
    + rewrite !set_flag_pow2 by lia. repeat split.
Qed.

(** ** Reference count *)

Lemma inc_refcnt_iter (i : ffs_inode) (n : nat) :
  fi_refcnt (Nat.iter (S n) ffs_inode_inc_refcnt i)
  = (fi_refcnt i + Z.of_nat (S n)) mod 256.
Proof.
  induction n as [|n IH].
  - reflexivity.
  - rewrite Nat.iter_succ. unfold ffs_inode_inc_refcnt at 1.
    cbn [fi_refcnt set_fi_refcnt]. rewrite IH. unfold u8.
    change (2 ^ 8) with 256.
    rewrite Zplus_mod_idemp_l. f_equal. lia.
Qed.

(** C9.  [fi_refcnt] is an 8-bit counter: it always holds a value between 0
    and 255 after an increment, [n] increments starting from zero are
    counted exactly as long as [n <= 255], and the 256th increment wraps the
    count to zero. *)
Theorem refcnt_wraps (i : ffs_inode) (n : nat) :
  fi_refcnt i = 0 ->
  0 <= fi_refcnt (ffs_inode_inc_refcnt (Nat.iter n ffs_inode_inc_refcnt i)) <= 255
  /\ fi_refcnt (Nat.iter n ffs_inode_inc_refcnt i) = Z.of_nat n mod 256
  /\ ((n <= 255)%nat -> fi_refcnt (Nat.iter n ffs_inode_inc_refcnt i) = Z.of_nat n)
  /\ fi_refcnt (Nat.iter 255 ffs_inode_inc_refcnt i) = 255
  /\ fi_refcnt (Nat.iter 256 ffs_inode_inc_refcnt i) = 0.
Proof.
  intros H0.
  assert (forall k : nat,
             fi_refcnt (Nat.iter k ffs_inode_inc_refcnt i) = Z.of_nat k mod 256)
    as Hk.
  { intros [|k]; [exact H0|]. rewrite inc_refcnt_iter, H0. reflexivity. }
  split.
  - cbn [ffs_inode_inc_refcnt fi_refcnt set_fi_refcnt]. unfold u8.
    change (2 ^ 8) with 256.
    pose proof (Z.mod_pos_bound
                  (fi_refcnt (Nat.iter n ffs_inode_inc_refcnt i) + 1) 256
                  ltac:(lia)).
    lia.
  - split; [apply Hk|].
    split; [intros Hn; rewrite Hk; apply Z.mod_small; lia|].
    split; rewrite Hk; reflexivity.
Qed.

Lemma refcnt_wraps_witness :
  fi_refcnt (Nat.iter 256 ffs_inode_inc_refcnt ffs_inode_zero) = 0.
Proof.
  exact (proj2 (proj2 (proj2 (proj2
    (refcnt_wraps ffs_inode_zero 256 eq_refl))))).
Defined.

(** ** Filenames *)





(** ** Sentinels *)

Lemma mount_ok_spec (m : ffs_mount) :
  mount_ok m = true ->
  0 <= ffs_next_id m < 2 ^ 32
  /\ ffs_num_areas m <= FFS_MAX_AREAS
  /\ (forall o, In o (ffs_hash m) ->
        0 <= fb_id o < ffs_next_id m
        /\ 0 <= fb_area_id o < ffs_num_areas m).
Proof.
  unfold mount_ok. rewrite !andb_true_iff, !forallb_forall.
  unfold in_range. rewrite andb_true_iff, Z.leb_le, Z.ltb_lt, Z.leb_le.
  intros [[[Hid Hnum] Hids] Hareas].
  split; [exact Hid|]. split; [exact Hnum|].
  intros o Ho. specialize (Hids o Ho). specialize (Hareas o Ho).
  rewrite andb_true_iff, Z.leb_le, Z.ltb_lt in Hids, Hareas. tauto.
Qed.

(** Allocating an id keeps the invariants of the mount as long as the
    counter has not reached [FFS_ID_NONE]. *)
Lemma ffs_alloc_id_ok (m m' : ffs_mount) (id : Z) :
  mount_ok m = true ->
  ffs_next_id m < FFS_ID_NONE ->
  ffs_alloc_id m = Ok (id, m') ->
  id <> FFS_ID_NONE /\ mount_ok m' = true.
Proof.
  intros Hok Hlt Halloc. injection Halloc as <- <-.
  split; [lia|].
  destruct (mount_ok_spec m Hok) as [Hid [Hnum Hobj]].
  unfold FFS_ID_NONE in Hlt.
  unfold mount_ok, ffs_num_areas in *. cbn [ffs_next_id ffs_areas ffs_hash].
  unfold u32. rewrite Z.mod_small by lia.
  rewrite !andb_true_iff in *. destruct Hok as [[[_ Hn] _] Ha].
  repeat split; try assumption.
  - unfold in_range. apply andb_true_iff. rewrite Z.leb_le, Z.ltb_lt.
    change (2 ^ (8 * scalar_size uint32_t)) with (2 ^ 32). lia.
  - apply forallb_forall. intros o Ho. specialize (Hobj o Ho).
    apply andb_true_iff. rewrite Z.leb_le, Z.ltb_lt. lia.
Qed.



(** ** Operations on the globals *)

Lemma bind_ok {A B : Type} (c : ffs_op A) (k : A -> ffs_op B)
    (m : ffs_mount) (r : B * ffs_mount) :
  bind c k m = Ok r ->
  exists (x : A) (m1 : ffs_mount), c m = Ok (x, m1) /\ k x m1 = Ok r.
Proof.
  unfold bind. destruct (c m) as [[x m1]|e]; [|discriminate].
  intros H. now exists x, m1.
Qed.





Tactic Notation "bind_inv" hyp(H) :=
  let x := fresh "x" in
  let m1 := fresh "m" in
  let Hc := fresh "Hc" in
  apply bind_ok in H; destruct H as [x [m1 [Hc H]]].

Tactic Notation "bind_inv" hyp(H) "as" ident(x) ident(m1) ident(Hc) :=
  apply bind_ok in H; destruct H as [x [m1 [Hc H]]].

(** ** The union of the inode *)












(** ** Block chains *)










(** ** Seeking *)



(** ** Reading *)


(** ** Writing *)










(** ** Failure of a write *)





(** ** The round trip *)



(** ** The model on small inputs *)

(** A write of 1000 bytes is cut into blocks of 480, 480 and 40 bytes of
    ranks 0, 1 and 2. *)
Example write_cuts_blocks :
  match ffs_write_to_file natural_abi new_file sample_bytes small_mount with
  | Ok (f, _) =>
      match fi_payload (ff_inode f) with
      | fi_block_list chain =>
          map (fun b => (fb_rank b, fb_data_len b)) chain
      | fi_child_list _ => []
      end
  | Err _ => []
  end = [(0, 480); (1, 480); (2, 40)].
Proof. vm_compute. reflexivity. Qed.

(** A read in the middle of the file crosses the boundary between the
    first two blocks. *)
Example read_across_blocks :
  match ffs_write_to_file natural_abi new_file sample_bytes small_mount with
  | Ok (f, _) => ffs_read (ffs_file_seek f 450) 100
  | Err e => Err e
  end = Ok (bytes_at sample_bytes 450 100, 100).
Proof. vm_compute. reflexivity. Qed.

(** A write in the middle of a block supersedes the block: same id and
    rank, next seq, the old bytes around the new one. *)
Example overwrite_supersedes :
  match ffs_write_to_file natural_abi (ffs_file_seek three_byte_file 1) [9]
          three_byte_mount with
  | Ok (f, _) =>
      match fi_payload (ff_inode f) with
      | fi_block_list chain =>
          map (fun b => (fb_id (fb_base b), fb_seq (fb_base b), fb_rank b,
                         fb_data b)) chain
      | fi_child_list _ => []
      end
  | Err _ => []
  end = [(2, 1, 0, [1; 9; 3])].
Proof. vm_compute. reflexivity. Qed.

(** A write fails when no area but the scratch area has room. *)
Example write_needs_space :
  ffs_write_to_file natural_abi new_file sample_bytes
    {| ffs_next_id := 2;
       ffs_areas := [ {| fs_offset := 0; fs_length := 1024; fs_cur := 73;
                         fs_seq := 0 |};
                      {| fs_offset := 1024; fs_length := 1024; fs_cur := 24;
                         fs_seq := 0 |} ];
       ffs_scratch_area_id := 1;
       ffs_hash := [file_base; root_base] |}
  = Err E_NOT_ENOUGH_SPACE.
Proof. vm_compute. reflexivity. Qed.

(** The file of three bytes is what a write of 1, 2, 3 makes of the new
    file. *)
Lemma three_byte_file_written :
  ffs_write_to_file natural_abi new_file [1; 2; 3] small_mount
  = Ok (three_byte_file, three_byte_mount).
Proof. reflexivity. Qed.


(** * The console *)

(** ** Ring indices *)

Lemma u8_small (v : Z) : 0 <= v < 256 -> u8 v = v.
Proof. intros H. unfold u8. now apply Z.mod_small. Qed.

Lemma ring_buf_next_mod (i size : Z) :
  0 < size <= 255 -> 0 <= i ->
  ring_buf_next i size = (i + 1) mod size.
Proof.
  intros Hs Hi. unfold ring_buf_next.
  rewrite Z.rem_mod_nonneg by lia.
  pose proof (Z.mod_pos_bound (i + 1) size ltac:(lia)).
  apply u8_small. lia.
Qed.

Lemma ring_buf_next_iter (size : Z) (k : nat) :
  0 < size <= 255 ->
  forall i : Z,
    0 <= i < size ->
    Nat.iter k (fun j => ring_buf_next j size) i = (i + Z.of_nat k) mod size.
Proof.
  intros Hs. induction k as [|k IH]; intros i Hi.
  - cbn [Nat.iter]. rewrite Z.add_0_r. symmetry. now apply Z.mod_small.
  - rewrite Nat.iter_succ, IH by assumption.
    pose proof (Z.mod_pos_bound (i + Z.of_nat k) size ltac:(lia)).
    rewrite ring_buf_next_mod by lia.
    rewrite Zplus_mod_idemp_l. f_equal. lia.
Qed.

(** X1.  In a ring of [size] slots ([1 <= size <= 255]), [ring_buf_next]
    and [ring_buf_prev] keep an index within the ring and undo each other,
    and [size] steps forward lead back to the start. *)
Theorem ring_buf_round_trip (i size : Z) :
  0 < size <= 255 ->
  0 <= i < size ->
  0 <= ring_buf_next i size < size
  /\ 0 <= ring_buf_prev i size < size
  /\ ring_buf_prev (ring_buf_next i size) size = i
  /\ ring_buf_next (ring_buf_prev i size) size = i
  /\ Nat.iter (Z.to_nat size) (fun j => ring_buf_next j size) i = i.
Proof.
  intros Hs Hi.
  assert (ring_buf_next i size = if i + 1 =? size then 0 else i + 1) as Hn.
  { rewrite ring_buf_next_mod by lia.
    destruct (Z.eqb_spec (i + 1) size) as [->|Hne].
    - apply Z_mod_same_full.
    - apply Z.mod_small. lia. }
  assert (ring_buf_prev i size = if i =? 0 then size - 1 else i - 1) as Hp.
  { unfold ring_buf_prev. destruct (i =? 0) eqn:E; apply u8_small; lia. }
  split; [rewrite Hn; destruct (i + 1 =? size) eqn:E; lia|].
  split; [rewrite Hp; destruct (i =? 0) eqn:E; lia|].
  split.
  - rewrite Hn. unfold ring_buf_prev.
    destruct (Z.eqb_spec (i + 1) size) as [He|Hne].
    + cbn [Z.eqb]. rewrite u8_small by lia. lia.
    + destruct (Z.eqb_spec (i + 1) 0); [lia|]. rewrite u8_small by lia. lia.
  - split.
    + rewrite Hp. destruct (Z.eqb_spec i 0) as [->|Hne].
      * rewrite ring_buf_next_mod by lia.
        replace (size - 1 + 1) with size by lia. apply Z_mod_same_full.
      * rewrite ring_buf_next_mod by lia.
        replace (i - 1 + 1) with i by lia. apply Z.mod_small. lia.
    + rewrite ring_buf_next_iter by lia.
      rewrite Z2Nat.id by lia.
      rewrite <- (Z.mul_1_l size) at 1. rewrite Z.mod_add by lia.
      apply Z.mod_small. lia.
Qed.

Lemma ring_buf_round_trip_witness :
  ring_buf_prev (ring_buf_next 32 33) 33 = 32.
Proof.
  exact (proj1 (proj2 (proj2
    (ring_buf_round_trip 32 33 ltac:(lia) ltac:(lia))))).
Defined.

(** ** Arrays *)

Lemma store_byte_length (l : list Z) :
  forall (i : nat) (v : Z), length (store_byte l i v) = length l.
Proof.
  induction l as [|x l IH]; intros [|i] v; cbn [store_byte length];
    try reflexivity.
  now rewrite IH.
Qed.

Lemma store_byte_app (pre l : list Z) (i : nat) (v : Z) :
  store_byte (pre ++ l) (length pre + i) v = pre ++ store_byte l i v.
Proof.
  induction pre as [|x pre IH]; [reflexivity|].
  cbn [app length Nat.add store_byte]. now rewrite IH.
Qed.

Lemma store_byte_here (pre post : list Z) (x v : Z) :
  store_byte (pre ++ x :: post) (length pre) v = pre ++ v :: post.
Proof.
  rewrite <- (Nat.add_0_r (length pre)). now rewrite store_byte_app.
Qed.

Lemma nth_here (pre post : list Z) (x d : Z) :
  nth (length pre) (pre ++ x :: post) d = x.
Proof.
  rewrite app_nth2 by lia. now rewrite Nat.sub_diag.
Qed.

Lemma split_at (l : list Z) (i : nat) :
  (i < length l)%nat ->
  l = firstn i l ++ nth i l 0 :: skipn (S i) l /\ length (firstn i l) = i.
Proof.
  intros Hi. split; [|rewrite length_firstn; lia].
  rewrite <- (firstn_skipn i l) at 1. f_equal.
  revert i Hi. induction l as [|x l IH]; intros [|i] Hi; cbn in *;
    try lia; try reflexivity.
  apply IH. lia.
Qed.

Lemma buf_store_some (pre post : list Z) (x v : Z) :
  buf_store (pre ++ x :: post) (length pre) v = Some (pre ++ v :: post).
Proof.
  unfold buf_store. rewrite length_app. cbn [length].
  destruct (Nat.ltb_spec (length pre) (length pre + S (length post))); [|lia].
  now rewrite store_byte_here.
Qed.

Lemma buf_store_none (buf : list Z) (i : nat) (v : Z) :
  (length buf <= i)%nat -> buf_store buf i v = None.
Proof.
  intros H. unfold buf_store.
  destruct (Nat.ltb_spec i (length buf)); [lia|reflexivity].
Qed.

(** ** Decimal numerals *)

Lemma digits_rev_length_le (fuel : nat) :
  forall num : Z, (length (digits_rev fuel num) <= fuel)%nat.
Proof.
  induction fuel as [|fuel IH]; intros num; cbn [digits_rev length]; [lia|].
  destruct (num / 10 =? 0); [cbn [length]; lia|].
  specialize (IH (num / 10)). lia.
Qed.

Lemma digits_rev_length (fuel : nat) (num : Z) :
  (length (digits_rev (S fuel) num) <= S fuel)%nat
  /\ (1 <= length (digits_rev (S fuel) num))%nat.
Proof.
  split; [apply digits_rev_length_le|].
  cbn [digits_rev length]. lia.
Qed.

Lemma digits_rev_digits (fuel : nat) :
  forall num : Z, Forall (fun d => 48 <= d <= 57) (digits_rev fuel num).
Proof.
  induction fuel as [|fuel IH]; intros num; cbn [digits_rev]; constructor.
  - pose proof (Z.mod_pos_bound num 10 ltac:(lia)). lia.
  - destruct (num / 10 =? 0); [constructor|apply IH].
Qed.

Lemma digits_rev_value (fuel : nat) :
  forall num : Z,
    0 <= num < 10 ^ Z.of_nat fuel ->
    fold_right (fun d acc => 10 * acc + (d - 48)) 0 (digits_rev fuel num) = num.
Proof.
  induction fuel as [|fuel IH]; intros num Hn.
  - change (10 ^ Z.of_nat 0) with 1 in Hn. cbn [digits_rev fold_right]. lia.
  - cbn [digits_rev fold_right].
    rewrite Nat2Z.inj_succ, Z.pow_succ_r in Hn by lia.
    pose proof (Z.div_mod num 10 ltac:(lia)) as Hdm.
    destruct (Z.eqb_spec (num / 10) 0) as [Hz|Hnz].
    + cbn [fold_right]. lia.
    + rewrite IH; [lia|].
      split; [apply Z.div_pos; lia|apply Z.div_lt_upper_bound; lia].
Qed.

(** The most significant digit is not a zero, unless the number is zero. *)
Lemma digits_rev_last (fuel : nat) :
  forall num : Z,
    0 < num ->
    last (digits_rev (S fuel) num) 0 <> 48 \/ 10 ^ Z.of_nat (S fuel) <= num.
Proof.
  induction fuel as [|fuel IH]; intros num Hn.
  - cbn [digits_rev]. destruct (Z.eqb_spec (num / 10) 0) as [Hz|Hnz].
    + cbn [last]. left.
      pose proof (Z.div_mod num 10 ltac:(lia)). lia.
    + right. change (10 ^ Z.of_nat 1) with 10.
      pose proof (Z.div_pos num 10 ltac:(lia) ltac:(lia)).
      pose proof (Z.div_mod num 10 ltac:(lia)).
      pose proof (Z.mod_pos_bound num 10 ltac:(lia)). lia.
  - remember (S fuel) as f eqn:Hf. cbn [digits_rev].
    destruct (Z.eqb_spec (num / 10) 0) as [Hz|Hnz].
    + cbn [last]. left.
      pose proof (Z.div_mod num 10 ltac:(lia)). lia.
    + pose proof (Z.div_pos num 10 ltac:(lia) ltac:(lia)) as Hq.
      destruct (IH (num / 10) ltac:(lia)) as [Hl|Hbig].
      * left. subst f.
        pose proof (digits_rev_length fuel (num / 10)) as [_ Hlen].
        destruct (digits_rev (S fuel) (num / 10)) as [|d ds] eqn:E;
          [cbn in Hlen; lia|].
        cbn [last]. exact Hl.
      * right. rewrite Nat2Z.inj_succ, Z.pow_succ_r by lia.
        pose proof (Z.div_mod num 10 ltac:(lia)).
        pose proof (Z.mod_pos_bound num 10 ltac:(lia)). lia.
Qed.

Lemma decimal_value_rev (l : list Z) :
  decimal_value (rev l) = fold_right (fun d acc => 10 * acc + (d - 48)) 0 l.
Proof.
  unfold decimal_value. now rewrite fold_left_rev_right with (l := rev l)
    || (rewrite <- fold_left_rev_right, rev_involutive; reflexivity).
Qed.

(** The numeral of an [unsigned int]: one to ten digits that denote the
    number, without a leading zero. *)
Lemma decimal_spec (num : Z) :
  0 <= num < 2 ^ 32 ->
  decimal_value (decimal num) = num
  /\ Forall (fun d => 48 <= d <= 57) (decimal num)
  /\ (1 <= length (decimal num) <= 10)%nat
  /\ (num = 0 -> decimal num = [48])
  /\ (0 < num -> hd 0 (decimal num) <> 48).
Proof.
  intros Hn. unfold decimal.
  split; [rewrite decimal_value_rev; apply digits_rev_value; cbn; lia|].
  split; [apply Forall_rev, digits_rev_digits|].
  split; [rewrite length_rev; pose proof (digits_rev_length 9 num); lia|].
  split; [intros ->; reflexivity|].
  intros Hpos.
  destruct (digits_rev_last 9 num Hpos) as [Hl|Hbig]; [|cbn in Hbig; lia].
  pose proof (digits_rev_length 9 num) as [_ Hlen].
  destruct (digits_rev 10 num) as [|d ds] eqn:E using rev_ind;
    [cbn in Hlen; lia|].
  rewrite last_last in Hl. rewrite rev_app_distr. exact Hl.
Qed.

(** ** Writing a number *)

Lemma console_write_nolock_all (str o : list Z) :
  Forall (fun c => c <> EOF) str -> console_write_nolock str o = o ++ str.
Proof.
  revert o. induction str as [|c str IH]; intros o Hall;
    cbn [console_write_nolock].
  - now rewrite app_nil_r.
  - inversion Hall as [|? ? Hc Hrest]; subst.
    cbn [console_out_nolock fst snd].
    destruct (Z.eqb_spec c EOF); [contradiction|].
    rewrite IH by assumption. now rewrite <- app_assoc.
Qed.

(** The digits are stored from [p] on, least significant first, when the
    array has room for them. *)
Lemma put_digits_spec (fuel : nat) :
  forall (pre post : list Z) (num : Z),
    0 <= num < 10 ^ Z.of_nat (S fuel) ->
    (length (digits_rev (S fuel) num) <= length post)%nat ->
    put_digits (S fuel) (pre ++ post) (length pre) num
    = Some (pre ++ digits_rev (S fuel) num
              ++ skipn (length (digits_rev (S fuel) num)) post,
            (length pre + length (digits_rev (S fuel) num))%nat).
Proof.
  induction fuel as [|fuel IH]; intros pre post num Hn Hroom.
  - change (10 ^ Z.of_nat 1) with 10 in Hn.
    cbn [put_digits digits_rev] in *.
    rewrite Z.rem_mod_nonneg, Z.quot_div_nonneg by lia.
    rewrite (Z.div_small num 10) in * by lia. cbn [Z.eqb length] in *.
    destruct post as [|x post]; [cbn [length] in Hroom; lia|].
    rewrite buf_store_some. cbn [skipn app]. f_equal. f_equal. lia.
  - remember (S fuel) as f eqn:Hf.
    cbn [put_digits digits_rev] in *.
    rewrite Nat2Z.inj_succ, Z.pow_succ_r in Hn by lia.
    rewrite Z.rem_mod_nonneg, Z.quot_div_nonneg by lia.
    destruct post as [|x post]; [cbn [length] in Hroom; lia|].
    rewrite buf_store_some.
    destruct (Z.eqb_spec (num / 10) 0) as [Hz|Hnz].
    + cbn [length skipn app]. f_equal. f_equal. lia.
    + cbn [length] in Hroom. subst f.
      replace (pre ++ (num mod 10 + 48) :: post)
        with ((pre ++ [num mod 10 + 48]) ++ post)
        by (now rewrite <- app_assoc).
      replace (S (length pre)) with (length (pre ++ [num mod 10 + 48]))
        by (rewrite length_app; cbn [length]; lia).
      rewrite IH.
      * rewrite <- app_assoc, length_app. cbn [length skipn app].
        f_equal. f_equal. lia.
      * split; [apply Z.div_pos; lia|apply Z.div_lt_upper_bound; lia].
      * lia.
Qed.

(** Without room for all the digits a store falls outside the array. *)
Lemma put_digits_overflow (fuel : nat) :
  forall (buf : list Z) (p : nat) (num : Z),
    0 <= num ->
    (length buf < p + length (digits_rev fuel num))%nat ->
    put_digits fuel buf p num = None.
Proof.
  induction fuel as [|fuel IH]; intros buf p num Hn Hroom; [reflexivity|].
  cbn [put_digits digits_rev length] in *.
  rewrite Z.quot_div_nonneg by lia.
  unfold buf_store. destruct (Nat.ltb_spec p (length buf)); [|reflexivity].
  destruct (Z.eqb_spec (num / 10) 0) as [Hz|Hnz]; [cbn [length] in Hroom; lia|].
  apply IH.
  - apply Z.div_pos; lia.
  - rewrite store_byte_length. lia.
Qed.

(** The swapping loop reverses the characters between its two pointers. *)
Lemma reverse_chars_spec (n : nat) :
  forall (seg pre post : list Z) (fuel : nat),
    (length seg <= n)%nat ->
    (length seg <= fuel)%nat ->
    reverse_chars fuel (pre ++ seg ++ post) (length pre)
      (pred (length pre + length seg))
    = pre ++ rev seg ++ post.
Proof.
  induction n as [|n IH]; intros seg pre post fuel Hn Hfuel.
  - destruct seg; [|cbn in Hn; lia]. cbn [length rev app].
    destruct fuel; cbn [reverse_chars]; [reflexivity|].
    destruct (Nat.ltb_spec (length pre) (pred (length pre + 0))); [lia|].
    reflexivity.
  - destruct seg as [|x seg]; [|destruct seg as [|y seg] using rev_ind].
    + cbn [length rev app].
      destruct fuel; cbn [reverse_chars]; [reflexivity|].
      destruct (Nat.ltb_spec (length pre) (pred (length pre + 0))); [lia|].
      reflexivity.
    + cbn [length rev app].
      destruct fuel; cbn [reverse_chars]; [reflexivity|].
      destruct (Nat.ltb_spec (length pre) (pred (length pre + 1))); [lia|].
      reflexivity.
    + clear IHseg. cbn [length] in *. rewrite length_app in *.
      cbn [length] in *.
      destruct fuel as [|fuel]; [lia|]. cbn [reverse_chars].
      destruct (Nat.ltb_spec (length pre)
                  (pred (length pre + S (length seg + 1)))); [|lia].
      cbn [app].
      replace (pred (length pre + S (length seg + 1)))
        with (length (pre ++ x :: seg)) by (rewrite length_app; cbn; lia).
      rewrite nth_here.
      replace (pre ++ x :: (seg ++ [y]) ++ post)
        with ((pre ++ x :: seg) ++ y :: post)
        by (rewrite <- !app_assoc; reflexivity).
      rewrite nth_here.
      replace ((pre ++ x :: seg) ++ y :: post)
        with (pre ++ x :: (seg ++ y :: post))
        by (rewrite <- !app_assoc; reflexivity).
      rewrite store_byte_here.
      replace (pre ++ y :: seg ++ y :: post)
        with ((pre ++ y :: seg) ++ y :: post)
        by (rewrite <- !app_assoc; reflexivity).
      replace (length (pre ++ x :: seg)) with (length (pre ++ y :: seg))
        by (rewrite !length_app; reflexivity).
      rewrite store_byte_here.
      replace ((pre ++ y :: seg) ++ x :: post)
        with ((pre ++ [y]) ++ seg ++ (x :: post))
        by (rewrite <- !app_assoc; reflexivity).
      replace (S (length pre)) with (length (pre ++ [y]))
        by (rewrite length_app; cbn; lia).
      replace (pred (length (pre ++ y :: seg)))
        with (pred (length (pre ++ [y]) + length seg))
        by (rewrite !length_app; cbn; lia).
      rewrite IH by lia.
      rewrite <- !app_assoc. cbn [rev app].
      rewrite rev_app_distr. cbn [rev app]. rewrite <- !app_assoc.
      reflexivity.
Qed.

Lemma add_ascii_num_with_char_form (pre post : list Z) (num c : Z) :
  0 <= num < 2 ^ 32 ->
  decimal_value (decimal num) = num
  /\ Forall (fun d => 48 <= d <= 57) (decimal num)
  /\ (1 <= length (decimal num) <= 10)%nat
  /\ (0 < num -> hd 0 (decimal num) <> 48)
  /\ ((length (decimal num) + 2 <= length post)%nat ->
      add_ascii_num_with_char (pre ++ post) (length pre) num c
      = Some (pre ++ decimal num ++ [c; 0]
                ++ skipn (length (decimal num) + 2) post,
              (length pre + length (decimal num) + 1)%nat))
  /\ ((length post < length (decimal num) + 2)%nat ->
      add_ascii_num_with_char (pre ++ post) (length pre) num c = None).
Proof.
  intros Hn.
  destruct (decimal_spec num Hn) as [Hval [Hdig [Hlen [_ Hhd]]]].
  do 4 (split; [assumption|]).
  unfold decimal in *. rewrite length_rev in *.
  set (ds := digits_rev 10 num) in *.
  assert (0 <= num < 10 ^ Z.of_nat 10) as Hn10 by (cbn; lia).
  split.
  - intros Hroom. unfold add_ascii_num_with_char.
    rewrite (put_digits_spec 9) by (try assumption; fold ds; lia).
    fold ds.
    replace (length pre + length ds - length pre)%nat with (length ds) by lia.
    rewrite (reverse_chars_spec (length ds)) by lia.
    destruct (skipn (length ds) post) as [|x1 [|x2 rest]] eqn:Hskip;
      try (apply (f_equal (@length _)) in Hskip; rewrite length_skipn in Hskip;
           cbn [length] in Hskip; lia).
    replace (pre ++ rev ds ++ x1 :: x2 :: rest)
      with ((pre ++ rev ds) ++ x1 :: x2 :: rest)
      by (now rewrite <- app_assoc).
    replace (length pre + length ds)%nat with (length (pre ++ rev ds))
      by (rewrite length_app, length_rev; lia).
    rewrite buf_store_some.
    replace ((pre ++ rev ds) ++ c :: x2 :: rest)
      with (((pre ++ rev ds) ++ [c]) ++ x2 :: rest)
      by (now rewrite <- !app_assoc).
    replace (S (length (pre ++ rev ds)))
      with (length ((pre ++ rev ds) ++ [c]))
      by (rewrite (length_app _ [c]); cbn; lia).
    rewrite buf_store_some.
    f_equal. f_equal.
    + rewrite <- !app_assoc. cbn [app]. do 4 f_equal.
      replace (length ds + 2)%nat with (2 + length ds)%nat by lia.
      rewrite <- skipn_skipn, Hskip. reflexivity.
    + rewrite !length_app, length_rev. cbn [length]. lia.
  - intros Hroom. unfold add_ascii_num_with_char.
    destruct (Nat.le_gt_cases (length ds) (length post)) as [Hfit|Hover].
    + rewrite (put_digits_spec 9) by (try assumption; fold ds; lia).
      fold ds.
      replace (length pre + length ds - length pre)%nat with (length ds)
        by lia.
      rewrite (reverse_chars_spec (length ds)) by lia.
      assert (length (pre ++ rev ds ++ skipn (length ds) post)
              = (length pre + length post)%nat) as Hl.
      { rewrite !length_app, length_rev, length_skipn. lia. }
      unfold buf_store at 1. rewrite Hl.
      destruct (Nat.ltb_spec (length pre + length ds)
                  (length pre + length post)); [|reflexivity].
      unfold buf_store. rewrite store_byte_length, Hl.
      destruct (Nat.ltb_spec (S (length pre + length ds))
                  (length pre + length post)); [lia|reflexivity].
    + rewrite put_digits_overflow; [reflexivity|lia|].
      fold ds. rewrite length_app. lia.
Qed.

(** X2.  [add_ascii_num_with_char] writes at [str] the decimal numeral of
    [num] (one to ten digits, most significant first, no leading zero),
    then [c], then a NUL, leaves the rest of the array as it was and
    returns the address of the NUL; when the array has no room for the
    numeral, [c] and the NUL, a store falls outside the array. *)
Theorem add_ascii_num_with_char_spec (pre post : list Z) (num c : Z) :
  0 <= num < 2 ^ 32 ->
  decimal_value (decimal num) = num
  /\ Forall (fun d => 48 <= d <= 57) (decimal num)
  /\ (1 <= length (decimal num) <= 10)%nat
  /\ (0 < num -> hd 0 (decimal num) <> 48)
  /\ ((length (decimal num) + 2 <= length post)%nat ->
      add_ascii_num_with_char (pre ++ post) (length pre) num c
      = Some (pre ++ decimal num ++ [c; 0]
                ++ skipn (length (decimal num) + 2) post,
              (length pre + length (decimal num) + 1)%nat))
  /\ ((length post < length (decimal num) + 2)%nat ->
      add_ascii_num_with_char (pre ++ post) (length pre) num c = None).
Proof. apply add_ascii_num_with_char_form. Qed.

Lemma add_ascii_num_with_char_spec_witness :
  add_ascii_num_with_char (seq_buffer 14) 2 4294967295 67
  = Some (CSI ++ [52; 50; 57; 52; 57; 54; 55; 50; 57; 53] ++ [67; 0], 13%nat).
Proof.
  exact (proj1 (proj2 (proj2 (proj2 (proj2
    (add_ascii_num_with_char_spec CSI (repeat 0 12) 4294967295 67
       ltac:(lia))))))
    ltac:(cbn; lia)).
Defined.

Lemma skipn_repeat_zero (n m : nat) :
  skipn n (repeat 0 m) = repeat 0 (m - n).
Proof.
  revert n. induction m as [|m IH]; intros [|n]; cbn [repeat skipn Nat.sub];
    try reflexivity.
  apply IH.
Qed.

Lemma digits_rev_short (fuel : nat) :
  forall (k : nat) (n : Z),
    0 <= n < 10 ^ Z.of_nat (S k) ->
    (length (digits_rev fuel n) <= S k)%nat.
Proof.
  induction fuel as [|fuel IH]; intros k n Hn; cbn [digits_rev length]; [lia|].
  rewrite Nat2Z.inj_succ, Z.pow_succ_r in Hn by lia.
  destruct (Z.eqb_spec (n / 10) 0) as [Hz|Hnz]; [cbn [length]; lia|].
  destruct k as [|k].
  - change (10 ^ Z.of_nat 0) with 1 in Hn.
    rewrite Z.div_small in Hnz by lia. lia.
  - assert (0 <= n / 10 < 10 ^ Z.of_nat (S k)) as Hq
      by (split; [apply Z.div_pos; lia|apply Z.div_lt_upper_bound; lia]).
    specialize (IH k (n / 10) Hq). lia.
Qed.

Lemma digits_rev_long (fuel : nat) :
  forall (k : nat) (n : Z),
    (k <= fuel)%nat ->
    10 ^ Z.of_nat k <= n ->
    (S k <= length (digits_rev (S fuel) n))%nat.
Proof.
  induction fuel as [|fuel IH]; intros k n Hk Hn.
  - cbn [digits_rev length]. lia.
  - remember (S fuel) as f eqn:Hf. cbn [digits_rev length].
    destruct k as [|k]; [lia|].
    rewrite Nat2Z.inj_succ, Z.pow_succ_r in Hn by lia.
    assert (0 < 10 ^ Z.of_nat k) as Hpos by (apply Z.pow_pos_nonneg; lia).
    assert (10 ^ Z.of_nat k <= n / 10) as Hq
      by (apply Z.div_le_lower_bound; lia).
    destruct (Z.eqb_spec (n / 10) 0) as [Hz|Hnz]; [lia|].
    subst f. specialize (IH k (n / 10) ltac:(lia) Hq). lia.
Qed.

Lemma decimal_length (n : Z) :
  (0 <= n < 10 ^ 9 -> (length (decimal n) <= 9)%nat)
  /\ (10 ^ 9 <= n -> (10 <= length (decimal n))%nat).
Proof.
  unfold decimal. rewrite length_rev. split; intros Hn.
  - apply (digits_rev_short 10 8 n). exact Hn.
  - apply (digits_rev_long 9 9 n); [lia|exact Hn].
Qed.

(** ** Escape sequences with numbers *)

Lemma decimal_no_eof (num : Z) :
  0 <= num < 2 ^ 32 -> Forall (fun c => c <> EOF) (decimal num).
Proof.
  intros Hn. destruct (decimal_spec num Hn) as [_ [Hdig _]].
  eapply Forall_impl; [|exact Hdig]. unfold EOF. intros d Hd. cbv beta in *. lia.
Qed.

Lemma one_number_seq (count c : Z) (o : list Z) :
  0 <= count < 2 ^ 32 ->
  c <> EOF ->
  match add_ascii_num_with_char (seq_buffer 14) 2 count c with
  | None => None
  | Some (seq, p) => Some (console_write_nolock (firstn p seq) o)
  end = Some (o ++ CSI ++ decimal count ++ [c]).
Proof.
  intros Hn Hc.
  destruct (add_ascii_num_with_char_form CSI (repeat 0 12) count c Hn)
    as [_ [_ [Hlen [_ [Hsome _]]]]].
  change (add_ascii_num_with_char (seq_buffer 14) 2 count c)
    with (add_ascii_num_with_char (CSI ++ repeat 0 12) (length CSI) count c).
  rewrite Hsome by (rewrite repeat_length; lia).
  f_equal.
  replace (CSI ++ decimal count ++ [c; 0]
             ++ skipn (length (decimal count) + 2) (repeat 0 12))
    with ((CSI ++ decimal count ++ [c])
            ++ 0 :: skipn (length (decimal count) + 2) (repeat 0 12))
    by (rewrite <- !app_assoc; reflexivity).
  rewrite firstn_app.
  replace (length CSI + length (decimal count) + 1)%nat
    with (length (CSI ++ decimal count ++ [c]))
    by (rewrite !length_app; cbn [length]; lia).
  rewrite firstn_all, Nat.sub_diag. cbn [firstn]. rewrite app_nil_r.
  apply console_write_nolock_all.
  apply Forall_app. split; [repeat constructor; discriminate|].
  apply Forall_app. split; [now apply decimal_no_eof|].
  now repeat constructor.
Qed.

(** X3.  [cursor_forward] and [cursor_backward] send nothing for a count of
    zero and otherwise [CSI <count> C] or [CSI <count> D], with the count
    as its decimal numeral; the 14 characters of [seq] are enough for every
    [unsigned int]. *)
Theorem cursor_move_sequence (count : Z) (o : list Z) :
  0 <= count < 2 ^ 32 ->
  cursor_forward 0 o = Some o
  /\ cursor_backward 0 o = Some o
  /\ (count <> 0 ->
      cursor_forward count o = Some (o ++ CSI ++ decimal count ++ [67])
      /\ cursor_backward count o = Some (o ++ CSI ++ decimal count ++ [68])).
Proof.
  intros Hn. do 2 (split; [reflexivity|]). intros Hnz.
  unfold cursor_forward, cursor_backward.
  destruct (Z.eqb_spec count 0); [contradiction|].
  split; apply one_number_seq; try assumption; discriminate.
Qed.

Lemma cursor_move_sequence_witness :
  cursor_backward 4294967295 []
  = Some (CSI ++ decimal 4294967295 ++ [68]).
Proof.
  exact (proj2 (proj2 (proj2
    (cursor_move_sequence 4294967295 [] ltac:(lia))) ltac:(lia))).
Defined.

Lemma two_number_seq_spec (n1 n2 c : Z) (o : list Z) :
  c <> EOF ->
  ((length (decimal (u32 n1)) + length (decimal (u32 n2)) <= 19)%nat ->
   two_number_seq n1 n2 c o
   = Some (o ++ CSI ++ decimal (u32 n1) ++ [59] ++ decimal (u32 n2) ++ [c]))
  /\ ((19 < length (decimal (u32 n1)) + length (decimal (u32 n2)))%nat ->
      two_number_seq n1 n2 c o = None).
Proof.
  intros Hc.
  assert (forall n, 0 <= u32 n < 2 ^ 32) as Hu
    by (intros n; unfold u32; apply Z.mod_pos_bound; lia).
  destruct (add_ascii_num_with_char_form CSI (repeat 0 22) (u32 n1) 59 (Hu n1))
    as [_ [_ [Hlen1 [_ [Hsome1 _]]]]].
  set (d1v := u32 n1) in *.
  set (d1 := decimal d1v) in *. set (d2 := decimal (u32 n2)) in *.
  specialize (Hsome1 ltac:(rewrite repeat_length; lia)).
  assert (skipn (length d1 + 2) (repeat 0 22)
          = repeat 0 (20 - length d1)) as Hskip.
  { rewrite skipn_repeat_zero. f_equal. lia. }
  rewrite Hskip in Hsome1.
  replace (CSI ++ d1 ++ [59; 0] ++ repeat 0 (20 - length d1))
    with ((CSI ++ d1 ++ [59]) ++ repeat 0 (21 - length d1)) in Hsome1
    by (rewrite <- !app_assoc; cbn [app];
        replace (21 - length d1)%nat with (S (20 - length d1)) by lia;
        reflexivity).
  replace (length CSI + length d1 + 1)%nat
    with (length (CSI ++ d1 ++ [59])) in Hsome1
    by (rewrite !length_app; cbn [length]; lia).
  destruct (add_ascii_num_with_char_form (CSI ++ d1 ++ [59])
              (repeat 0 (21 - length d1)) (u32 n2) c (Hu n2))
    as [_ [_ [Hlen2 [_ [Hsome2 Hnone2]]]]].
  fold d2 in Hsome2, Hnone2, Hlen2. rewrite repeat_length in Hsome2, Hnone2.
  unfold two_number_seq.
  change (add_ascii_num_with_char (seq_buffer 24) 2 (u32 n1) 59)
    with (add_ascii_num_with_char (CSI ++ repeat 0 22) (length CSI) d1v 59).
  rewrite Hsome1.
  split; intros Hroom.
  - rewrite Hsome2 by lia. f_equal.
    replace ((CSI ++ d1 ++ [59]) ++ d2 ++ [c; 0]
               ++ skipn (length d2 + 2) (repeat 0 (21 - length d1)))
      with ((CSI ++ d1 ++ [59] ++ d2 ++ [c])
              ++ 0 :: skipn (length d2 + 2) (repeat 0 (21 - length d1)))
      by (rewrite <- !app_assoc; reflexivity).
    rewrite firstn_app.
    replace (length (CSI ++ d1 ++ [59%Z]) + length d2 + 1)%nat
      with (length (CSI ++ d1 ++ [59] ++ d2 ++ [c]))
      by (rewrite !length_app; cbn [length]; lia).
    rewrite firstn_all, Nat.sub_diag. cbn [firstn]. rewrite app_nil_r.
    apply console_write_nolock_all.
    apply Forall_app. split; [repeat constructor; discriminate|].
    apply Forall_app. split; [apply decimal_no_eof, Hu|].
    apply Forall_app. split; [repeat constructor; discriminate|].
    apply Forall_app. split; [apply decimal_no_eof, Hu|].
    now repeat constructor.
  - rewrite Hnone2 by lia. reflexivity.
Qed.

(** X4.  [console_cursor_set (row, column)] sends [CSI <row> ; <column> H]
    and [console_set_scrolling_region (top, bottom)] sends
    [CSI <top> ; <bottom> r], the numbers being the decimal numerals of the
    arguments converted to [unsigned int], as long as one of the two is
    below 10^9.  When both are 10^9 or more (as unsigned: a negative
    argument is), the two numerals have ten digits each and the
    terminating NUL is stored past the end of the 24 characters of [seq]. *)
Theorem two_number_sequence (n1 n2 : Z) (o : list Z) :
  (u32 n1 < 10 ^ 9 \/ u32 n2 < 10 ^ 9 ->
   console_cursor_set n1 n2 o
   = Some (o ++ CSI ++ decimal (u32 n1) ++ [59] ++ decimal (u32 n2) ++ [72])
   /\ console_set_scrolling_region n1 n2 o
      = Some (o ++ CSI ++ decimal (u32 n1) ++ [59] ++ decimal (u32 n2)
                ++ [114]))
  /\ (10 ^ 9 <= u32 n1 /\ 10 ^ 9 <= u32 n2 ->
      console_cursor_set n1 n2 o = None
      /\ console_set_scrolling_region n1 n2 o = None).
Proof.
  assert (forall n, 0 <= u32 n < 2 ^ 32) as Hu
    by (intros n; unfold u32; apply Z.mod_pos_bound; lia).
  pose proof (Hu n1) as H1. pose proof (Hu n2) as H2.
  destruct (decimal_spec (u32 n1) H1) as [_ [_ [Hl1 _]]].
  destruct (decimal_spec (u32 n2) H2) as [_ [_ [Hl2 _]]].
  destruct (decimal_length (u32 n1)) as [Hs1 Hg1].
  destruct (decimal_length (u32 n2)) as [Hs2 Hg2].
  unfold console_cursor_set, console_set_scrolling_region.
  split.
  - intros Hsmall.
    assert (length (decimal (u32 n1)) + length (decimal (u32 n2)) <= 19)%nat
      as Hroom.
    { destruct Hsmall as [Hlt|Hlt];
        [specialize (Hs1 ltac:(lia))|specialize (Hs2 ltac:(lia))]; lia. }
    split; apply two_number_seq_spec; try assumption; discriminate.
  - intros [Hb1 Hb2]. specialize (Hg1 Hb1). specialize (Hg2 Hb2).
    split; apply two_number_seq_spec; try lia; discriminate.
Qed.

Lemma two_number_sequence_witness :
  console_cursor_set (-1) (-1) [] = None.
Proof.
  pose proof (two_number_sequence (-1) (-1) []) as H.
  destruct H as [_ H].
  assert (10 ^ 9 <= u32 (-1)) as Hb by (vm_compute; discriminate).
  exact (proj1 (H (conj Hb Hb))).
Defined.

(** ** Strings *)

Lemma strlen_string (s rest : list Z) :
  Forall (fun c => c <> 0) s -> strlen (s ++ 0 :: rest) = length s.
Proof.
  induction 1 as [|c s Hc _ IH]; [reflexivity|].
  cbn [app strlen length]. destruct (Z.eqb_spec c 0); [contradiction|].
  now rewrite IH.
Qed.

Lemma c_string_string (s rest : list Z) :
  Forall (fun c => c <> 0) s -> c_string (s ++ 0 :: rest) = s.
Proof.
  intros Hs. unfold c_string. rewrite strlen_string by assumption.
  rewrite firstn_app, Nat.sub_diag, firstn_all. cbn [firstn].
  apply app_nil_r.
Qed.

Lemma skipn_cons_nth (l : list Z) (n : nat) :
  (n < length l)%nat -> skipn n l = nth n l 0 :: skipn (S n) l.
Proof.
  revert n. induction l as [|x l IH]; intros [|n] Hn; cbn in *;
    try lia; try reflexivity.
  apply IH. lia.
Qed.

(** ** Trimming *)

Lemma skip_spaces_spec (rest : list Z) (s : list Z) :
  exists sp s1 : list Z,
    s = sp ++ s1
    /\ Forall (fun c => isspace c = true) sp
    /\ skip_spaces (s ++ 0 :: rest) = s1 ++ 0 :: rest
    /\ (s1 = [] \/ isspace (hd 0 s1) = false).
Proof.
  induction s as [|c s IH].
  - exists [], []. cbn. repeat split; auto.
  - cbn [app skip_spaces]. destruct (isspace c) eqn:Hc.
    + destruct IH as [sp [s1 [Hs [Hsp [Hskip Hhd]]]]].
      exists (c :: sp), s1. rewrite Hskip. subst s. repeat split; auto.
    + exists [], (c :: s). repeat split; auto.
Qed.

Lemma trim_end_spec (str : list Z) (e : nat) :
  (trim_end str e <= e)%nat
  /\ (forall i, (trim_end str e < i <= e)%nat -> isspace (nth i str 0) = true)
  /\ (trim_end str e = O \/ isspace (nth (trim_end str e) str 0) = false).
Proof.
  induction e as [|e [IHle [IHsp IHend]]]; cbn [trim_end].
  - repeat split; auto. intros i Hi. lia.
  - destruct (isspace (nth (S e) str 0)) eqn:He.
    + split; [lia|]. split; [|exact IHend].
      intros i Hi. destruct (Nat.eq_dec i (S e)) as [->|Hne]; [exact He|].
      apply IHsp. lia.
    + split; [lia|]. split; [intros i Hi; lia|]. now right.
Qed.

Lemma Forall_skipn_nth (P : Z -> Prop) (l : list Z) (k : nat) :
  (forall i, (k <= i < length l)%nat -> P (nth i l 0)) -> Forall P (skipn k l).
Proof.
  revert k. induction l as [|x l IH]; intros k H.
  - rewrite skipn_nil. constructor.
  - destruct k as [|k]; cbn [skipn].
    + constructor; [apply (H O); cbn; lia|].
      apply (IH O). intros i Hi. apply (H (S i)). cbn. lia.
    + apply IH. intros i Hi. apply (H (S i)). cbn. lia.
Qed.

Lemma last_firstn (l : list Z) (k : nat) :
  (k < length l)%nat -> last (firstn (S k) l) 0 = nth k l 0.
Proof.
  revert k. induction l as [|x l IH]; intros k Hk; [cbn in Hk; lia|].
  destruct k as [|k]; [reflexivity|].
  cbn [length] in Hk. specialize (IH k ltac:(lia)).
  change (firstn (S (S k)) (x :: l)) with (x :: firstn (S k) l).
  change (nth (S k) (x :: l) 0) with (nth k l 0).
  destruct (firstn (S k) l) eqn:E; [|exact IH].
  destruct l; [cbn in Hk; lia|discriminate].
Qed.

Lemma trim_whitespace_form (s rest : list Z) (len : Z) :
  Forall (fun c => c <> 0) s ->
  0 < len ->
  exists sp1 m sp2 : list Z,
    s = sp1 ++ m ++ sp2
    /\ Forall (fun c => isspace c = true) sp1
    /\ Forall (fun c => isspace c = true) sp2
    /\ (m = [] \/ (isspace (hd 0 m) = false /\ isspace (last m 0) = false))
    /\ forall out : list Z,
         Z.of_nat (length out) = len ->
         trim_whitespace (s ++ 0 :: rest) 0 out = Some (out, 0)
         /\ trim_whitespace (s ++ 0 :: rest) len out
            = Some (firstn (Z.to_nat (len - 1)) m
                      ++ 0 :: skipn (S (length (firstn (Z.to_nat (len - 1)) m)))
                                out,
                    Z.of_nat (length (firstn (Z.to_nat (len - 1)) m))).
Proof.
  intros Hs Hlen.
  destruct (skip_spaces_spec rest s) as [sp1 [s1 [Hsplit [Hsp1 [Hskip Hhd]]]]].
  assert (Forall (fun c => c <> 0) s1) as Hs1
    by (rewrite Hsplit in Hs; apply Forall_app in Hs; tauto).
  assert (s1 = [] \/ (s1 <> [] /\ isspace (hd 0 s1) = false)) as Hcase.
  { destruct s1; [now left|right]. split; [discriminate|].
    destruct Hhd as [Hnil|Hhd]; [discriminate|exact Hhd]. }
  clear Hhd. destruct Hcase as [->|[Hne Hhd]].
  - exists sp1, [], []. rewrite app_nil_r in Hsplit.
    split; [now rewrite !app_nil_r|].
    split; [exact Hsp1|]. split; [constructor|]. split; [now left|].
    intros out Hout. split; [reflexivity|].
    unfold trim_whitespace. destruct (Z.eqb_spec len 0); [lia|].
    rewrite Hskip.
    destruct out as [|o0 out']; [cbn [length] in Hout; lia|].
    rewrite firstn_nil. reflexivity.
  - destruct s1 as [|c1 s1']; [contradiction|].
    cbn [hd] in Hhd.
    assert (c1 <> 0) as Hc1 by (inversion Hs1; assumption).
    set (s1 := c1 :: s1') in *. set (str1 := s1 ++ 0 :: rest).
    set (e0 := (length s1 - 1)%nat).
    destruct (trim_end_spec str1 e0) as [Hle [Hspaces Hend]].
    set (e := trim_end str1 e0) in *.
    assert (e0 < length s1)%nat as He0 by (unfold e0, s1; cbn [length]; lia).
    assert (forall i, (i < length s1)%nat -> nth i str1 0 = nth i s1 0) as Hnth
      by (intros i Hi; unfold str1; now rewrite app_nth1).
    exists sp1, (firstn (S e) s1), (skipn (S e) s1).
    split; [now rewrite firstn_skipn|].
    split; [exact Hsp1|].
    split.
    { apply Forall_skipn_nth. intros i Hi. rewrite <- Hnth by lia.
      apply Hspaces. unfold e0. lia. }
    split.
    { right. split; [exact Hhd|].
      rewrite last_firstn by lia. rewrite <- Hnth by lia.
      destruct Hend as [Hz|Hns]; [|exact Hns].
      rewrite Hz. unfold str1, s1. exact Hhd. }
    intros out Hout. split; [reflexivity|].
    unfold trim_whitespace. destruct (Z.eqb_spec len 0); [lia|].
    rewrite Hskip. fold str1.
    destruct out as [|o0 out']; [cbn [length] in Hout; lia|].
    assert ((hd 0 str1 =? 0) = false) as Hhd0
      by (unfold str1, s1; cbn [app hd]; now apply Z.eqb_neq).
    assert (strlen str1 = length s1) as Hstrlen
      by (unfold str1; now apply strlen_string).
    rewrite Hhd0, Hstrlen. fold e0. fold e.
    set (k := Z.to_nat (Z.min (Z.of_nat (S e)) (len - 1))).
    assert (firstn (Z.to_nat (len - 1)) (firstn (S e) s1) = firstn k s1) as Ht.
    { rewrite firstn_firstn. f_equal. unfold k. lia. }
    rewrite Ht.
    assert (length (firstn k s1) = k) as Hn
      by (rewrite length_firstn; unfold k; lia).
    rewrite Hn.
    unfold memcpy.
    assert (k <= length (o0 :: out'))%nat as Hn1 by (unfold k; lia).
    assert (k <= length str1)%nat as Hn2
      by (unfold str1; rewrite length_app; unfold k; lia).
    destruct (Nat.leb_spec k (length (o0 :: out'))); [|lia].
    destruct (Nat.leb_spec k (length str1)); [|lia].
    cbn [andb].
    assert (firstn k str1 = firstn k s1) as Hf.
    { unfold str1. rewrite firstn_app.
      replace (k - length s1)%nat with O by (unfold k; lia).
      cbn [firstn]. apply app_nil_r. }
    rewrite Hf.
    rewrite (skipn_cons_nth (o0 :: out') k) by (unfold k; lia).
    pose proof (buf_store_some (firstn k s1) (skipn (S k) (o0 :: out'))
                  (nth k (o0 :: out') 0) 0) as Hstore.
    rewrite Hn in Hstore. rewrite Hstore.
    unfold k. rewrite Z2Nat.id by lia. reflexivity.
Qed.

(** X5.  [trim_whitespace] on a string [s] and an array [out] of [len]
    characters: [s] is white space, then a middle part [m] that neither
    starts nor ends with white space (or is empty), then white space; the
    array receives the first [len - 1] characters of [m] and a NUL, the
    rest of it is left as it was, and the size returned is the number of
    characters stored.  With [len = 0] nothing is stored and 0 is
    returned. *)
Theorem trim_whitespace_spec (s rest : list Z) (len : Z) :
  Forall (fun c => c <> 0) s ->
  0 < len ->
  exists sp1 m sp2 : list Z,
    s = sp1 ++ m ++ sp2
    /\ Forall (fun c => isspace c = true) sp1
    /\ Forall (fun c => isspace c = true) sp2
    /\ (m = [] \/ (isspace (hd 0 m) = false /\ isspace (last m 0) = false))
    /\ forall out : list Z,
         Z.of_nat (length out) = len ->
         trim_whitespace (s ++ 0 :: rest) 0 out = Some (out, 0)
         /\ trim_whitespace (s ++ 0 :: rest) len out
            = Some (firstn (Z.to_nat (len - 1)) m
                      ++ 0 :: skipn (S (length (firstn (Z.to_nat (len - 1)) m)))
                                out,
                    Z.of_nat (length (firstn (Z.to_nat (len - 1)) m))).
Proof. apply trim_whitespace_form. Qed.

Lemma trim_whitespace_spec_witness :
  exists sp1 m sp2 : list Z,
    [32; 108; 115; 32; 45; 108; 9; 32] = sp1 ++ m ++ sp2
    /\ forall out : list Z,
         Z.of_nat (length out) = 8 ->
         trim_whitespace [32; 108; 115; 32; 45; 108; 9; 32; 0; 7] 8 out
         = Some (firstn 7 m ++ 0 :: skipn (S (length (firstn 7 m))) out,
                 Z.of_nat (length (firstn 7 m))).
Proof.
  destruct (trim_whitespace_spec [32; 108; 115; 32; 45; 108; 9; 32] [7] 8
              ltac:(repeat constructor; discriminate) ltac:(lia))
    as [sp1 [m [sp2 [Hs [_ [_ [_ Hout]]]]]]].
  exists sp1, m, sp2. split; [exact Hs|].
  intros out Hlen. exact (proj2 (Hout out Hlen)).
Defined.


(** ** The history *)

Lemma array_set_length {A : Type} (l : list A) :
  forall (i : nat) (v : A), length (array_set l i v) = length l.
Proof.
  induction l as [|x l IH]; intros [|i] v; cbn [array_set length];
    try reflexivity.
  now rewrite IH.
Qed.

Lemma array_set_here {A : Type} (a b : list A) (x v : A) :
  array_set (a ++ x :: b) (length a) v = a ++ v :: b.
Proof.
  induction a as [|y a IH]; [reflexivity|].
  cbn [app length array_set]. now rewrite IH.
Qed.

Lemma nth_array_set {A : Type} (l : list A) :
  forall (i k : nat) (v d : A),
    (i < length l)%nat ->
    nth k (array_set l i v) d = if (k =? i)%nat then v else nth k l d.
Proof.
  induction l as [|x l IH]; intros i k v d Hi; [cbn in Hi; lia|].
  destruct i as [|i], k as [|k]; cbn [array_set nth Nat.eqb]; try reflexivity.
  apply IH. cbn in Hi. lia.
Qed.

Lemma ring_at_0 (i sz : Z) : 0 <= i < sz -> ring_at i sz 0 = i.
Proof.
  intros H. unfold ring_at. rewrite Z.add_0_r. now apply Z.mod_small.
Qed.

Lemma ring_at_bound (i sz : Z) (j : nat) : 0 < sz -> 0 <= ring_at i sz j < sz.
Proof. intros H. apply Z.mod_pos_bound. lia. Qed.

Lemma ring_at_next (i sz : Z) (j : nat) :
  0 < sz <= 255 -> 0 <= i ->
  ring_buf_next (ring_at i sz j) sz = ring_at i sz (S j).
Proof.
  intros Hs Hi. unfold ring_at.
  pose proof (Z.mod_pos_bound (i + Z.of_nat j) sz ltac:(lia)).
  rewrite ring_buf_next_mod by lia.
  rewrite Zplus_mod_idemp_l. f_equal. lia.
Qed.

Lemma ring_at_inj (i sz : Z) (j k : nat) :
  0 < sz -> Z.of_nat j < sz -> Z.of_nat k < sz ->
  ring_at i sz j = ring_at i sz k -> j = k.
Proof.
  intros Hs Hj Hk H. unfold ring_at in H.
  pose proof (Z.div_mod (i + Z.of_nat j) sz ltac:(lia)) as Ha.
  pose proof (Z.div_mod (i + Z.of_nat k) sz ltac:(lia)) as Hb.
  rewrite H in Ha.
  assert ((i + Z.of_nat j) / sz = (i + Z.of_nat k) / sz) by nia.
  lia.
Qed.

Lemma ring_at_eqb (i sz : Z) (j k : nat) :
  0 < sz -> Z.of_nat j < sz -> Z.of_nat k < sz ->
  (ring_at i sz j =? ring_at i sz k) = (j =? k)%nat.
Proof.
  intros Hs Hj Hk.
  destruct (Z.eqb_spec (ring_at i sz j) (ring_at i sz k)) as [He|Hne];
    destruct (Nat.eqb_spec j k) as [Hjk|Hjk]; try reflexivity.
  - apply ring_at_inj in He; [contradiction|lia..].
  - subst k. contradiction.
Qed.

Lemma ring_at_count (hd tl sz : Z) :
  0 < sz -> 0 <= hd < sz ->
  ring_at tl sz (Z.to_nat ((hd - tl) mod sz)) = hd.
Proof.
  intros Hs Hh. unfold ring_at.
  pose proof (Z.mod_pos_bound (hd - tl) sz ltac:(lia)).
  rewrite Z2Nat.id by lia. rewrite Zplus_mod_idemp_r.
  replace (tl + (hd - tl)) with hd by lia. now apply Z.mod_small.
Qed.

Lemma count_ring_at (tl sz : Z) (j : nat) :
  0 < sz -> Z.of_nat j < sz ->
  Z.to_nat ((ring_at tl sz j - tl) mod sz) = j.
Proof.
  intros Hs Hj. unfold ring_at. rewrite Zminus_mod_idemp_l.
  replace (tl + Z.of_nat j - tl) with (Z.of_nat j) by lia.
  rewrite Z.mod_small by lia. apply Nat2Z.id.
Qed.

Lemma ring_seg_length (l : list (option nat)) (sz : Z) (c : nat) :
  forall i : Z, length (ring_seg l sz i c) = c.
Proof.
  induction c as [|c IH]; intros i; [reflexivity|].
  cbn [ring_seg length]. now rewrite IH.
Qed.

Lemma ring_seg_nth (l : list (option nat)) (sz : Z) (c : nat) :
  0 < sz <= 255 ->
  forall (i : Z) (j : nat),
    0 <= i < sz -> (j < c)%nat ->
    nth j (ring_seg l sz i c) None = nth (Z.to_nat (ring_at i sz j)) l None.
Proof.
  intros Hs. induction c as [|c IH]; intros i j Hi Hj; [lia|].
  cbn [ring_seg]. destruct j as [|j].
  - cbn [nth]. now rewrite ring_at_0.
  - cbn [nth]. rewrite IH.
    + rewrite ring_buf_next_mod by lia. unfold ring_at.
      rewrite Zplus_mod_idemp_l. do 3 f_equal. lia.
    + rewrite ring_buf_next_mod by lia. apply Z.mod_pos_bound. lia.
    + lia.
Qed.

(** A store at a slot of the ring, seen from the tail. *)
Lemma ring_seg_array_set (l : list (option nat)) (sz i : Z) (j : nat)
    (v : option nat) :
  0 < sz <= 255 -> 0 <= i < sz ->
  length l = Z.to_nat sz -> (j < Z.to_nat sz)%nat ->
  ring_seg (array_set l (Z.to_nat (ring_at i sz j)) v) sz i (Z.to_nat sz)
  = array_set (ring_seg l sz i (Z.to_nat sz)) j v.
Proof.
  intros Hs Hi Hl Hj.
  apply (nth_ext _ _ None None).
  - now rewrite array_set_length, !ring_seg_length.
  - intros k Hk. rewrite ring_seg_length in Hk.
    rewrite ring_seg_nth by lia.
    pose proof (ring_at_bound i sz j ltac:(lia)).
    pose proof (ring_at_bound i sz k ltac:(lia)).
    rewrite !nth_array_set by (rewrite ?ring_seg_length; lia).
    rewrite ring_seg_nth by lia.
    destruct (Nat.eqb_spec k j) as [->|Hne].
    + now rewrite Nat.eqb_refl.
    + destruct (Nat.eqb_spec (Z.to_nat (ring_at i sz k))
                  (Z.to_nat (ring_at i sz j))) as [He|]; [|reflexivity].
      assert (ring_at i sz k = ring_at i sz j) as He' by lia.
      apply ring_at_inj in He'; [contradiction|lia..].
Qed.

(** The ring seen from the slot after the tail. *)
Lemma ring_seg_rotate (l : list (option nat)) (sz i : Z) (x : option nat)
    (xs : list (option nat)) :
  0 < sz <= 255 -> 0 <= i < sz ->
  ring_seg l sz i (Z.to_nat sz) = x :: xs ->
  ring_seg l sz (ring_buf_next i sz) (Z.to_nat sz) = xs ++ [x].
Proof.
  intros Hs Hi Hv.
  assert (length (x :: xs) = Z.to_nat sz) as Hlen
    by (rewrite <- Hv; apply ring_seg_length).
  cbn [length] in Hlen.
  assert (0 <= ring_buf_next i sz < sz) as Hn
    by (rewrite ring_buf_next_mod by lia; apply Z.mod_pos_bound; lia).
  apply (nth_ext _ _ None None).
  - rewrite ring_seg_length, length_app. cbn [length]. lia.
  - intros k Hk. rewrite ring_seg_length in Hk.
    rewrite ring_seg_nth by lia.
    assert (ring_at (ring_buf_next i sz) sz k = ring_at i sz (S k)) as ->.
    { rewrite ring_buf_next_mod by lia. unfold ring_at.
      rewrite Zplus_mod_idemp_l. f_equal. lia. }
    destruct (Nat.eq_dec k (length xs)) as [->|Hne].
    + rewrite nth_middle.
      assert (ring_at i sz (S (length xs)) = ring_at i sz 0) as ->.
      { unfold ring_at. replace (i + Z.of_nat (S (length xs))) with (i + 1 * sz)
          by lia.
        rewrite Z.mod_add by lia. f_equal. lia. }
      rewrite <- (ring_seg_nth l sz (Z.to_nat sz)) by lia.
      now rewrite Hv.
    + rewrite app_nth1 by lia.
      rewrite <- (ring_seg_nth l sz (Z.to_nat sz)) by lia.
      now rewrite Hv.
Qed.

Lemma last_cons_default {A : Type} (y x : A) (b : list A) :
  last (y :: b) x = last b y.
Proof.
  revert x y. induction b as [|z b IH]; intros x y; [reflexivity|].
  change (last (y :: z :: b) x) with (last (z :: b) x).
  now rewrite !IH.
Qed.

Section HistoryLoops.

Variable m : hist_mem.
Variable ps : list nat.

Let h := sh m.
Let sz := size h.
Let tl := tail h.
Let c := hist_count h.

Hypothesis Hsz : 0 < sz <= 255.
Hypothesis Htl : 0 <= tl < sz.
Hypothesis Hhd : 0 <= head h < sz.
Hypothesis Hring : hist_ring h = map Some ps ++ [None].

Lemma hist_ring_length : S (length ps) = Z.to_nat sz.
Proof.
  assert (length (hist_ring h) = Z.to_nat sz) as H
    by apply ring_seg_length.
  rewrite Hring, length_app, length_map in H.
  cbn [length] in H. lia.
Qed.

Lemma hist_count_bound : (c <= length ps)%nat.
Proof.
  pose proof hist_ring_length.
  pose proof (Z.mod_pos_bound (head h - tl) sz ltac:(lia)).
  unfold c, hist_count. fold sz tl. lia.
Qed.

Lemma hist_head_at : head h = ring_at tl sz c.
Proof. symmetry. apply ring_at_count; lia. Qed.

Lemma hist_line_at (j : nat) :
  (j < Z.to_nat sz)%nat ->
  line_at h (ring_at tl sz j) = nth j (map Some ps ++ [None]) None.
Proof.
  intros Hj. rewrite <- Hring. symmetry.
  apply (ring_seg_nth (lines h) sz (Z.to_nat sz)); lia.
Qed.

Lemma hist_line_at_live (j : nat) :
  (j < length ps)%nat ->
  line_at h (ring_at tl sz j) = Some (nth j ps O).
Proof.
  intros Hj. pose proof hist_ring_length.
  rewrite hist_line_at by lia.
  rewrite app_nth1 by (rewrite length_map; lia).
  rewrite (nth_indep _ None (Some O)) by (rewrite length_map; lia).
  apply (map_nth Some).
Qed.

Lemma hist_find_none (line : list Z) (k : nat) :
  forall (j fuel : nat),
    (j + k = c)%nat ->
    (forall i, (j <= i < c)%nat ->
       streq (nth (nth i ps O) (console_hist_lines m) []) line = false) ->
    (k < fuel)%nat ->
    hist_find fuel m line (ring_at tl sz j) = Some None.
Proof.
  pose proof hist_ring_length as Hlen. pose proof hist_count_bound as Hc.
  induction k as [|k IH]; intros j fuel Hj Hno Hfuel;
    (destruct fuel as [|fuel]; [lia|]); cbn [hist_find]; fold h.
  - rewrite hist_head_at. replace j with c by lia. now rewrite Z.eqb_refl.
  - rewrite hist_head_at, ring_at_eqb by lia.
    destruct (Nat.eqb_spec j c); [lia|].
    rewrite hist_line_at_live by lia. rewrite Hno by lia.
    fold sz. rewrite ring_at_next by lia.
    apply IH; [lia| |lia]. intros i Hi. apply Hno. lia.
Qed.

Lemma hist_find_some (line : list Z) (x : nat) (k : nat) :
  (x < c)%nat ->
  streq (nth (nth x ps O) (console_hist_lines m) []) line = true ->
  forall (j fuel : nat),
    (j + k = x)%nat ->
    (forall i, (j <= i < x)%nat ->
       streq (nth (nth i ps O) (console_hist_lines m) []) line = false) ->
    (k < fuel)%nat ->
    hist_find fuel m line (ring_at tl sz j) = Some (Some (ring_at tl sz x)).
Proof.
  pose proof hist_ring_length as Hlen. pose proof hist_count_bound as Hc.
  intros Hx Hyes.
  induction k as [|k IH]; intros j fuel Hj Hno Hfuel;
    (destruct fuel as [|fuel]; [lia|]); cbn [hist_find]; fold h;
    rewrite hist_head_at, ring_at_eqb by lia;
    (destruct (Nat.eqb_spec j c); [lia|]);
    rewrite hist_line_at_live by lia.
  - replace j with x by lia. now rewrite Hyes.
  - rewrite Hno by lia. fold sz. rewrite ring_at_next by lia.
    apply IH; [lia| |lia]. intros i Hi. apply Hno. lia.
Qed.

Lemma hist_shift_spec (b : list (option nat)) :
  forall (a : list (option nat)) (x : option nat) (r l : list (option nat))
         (fuel : nat),
    length l = Z.to_nat sz ->
    ring_seg l sz tl (Z.to_nat sz) = a ++ x :: b ++ r ->
    c = (length a + 1 + length b)%nat ->
    r <> [] ->
    (length b < fuel)%nat ->
    exists l' : list (option nat),
      hist_shift fuel h l (ring_at tl sz (length a))
        (ring_at tl sz (S (length a)))
      = Some (l', ring_at tl sz (length a + length b))
      /\ length l' = Z.to_nat sz
      /\ ring_seg l' sz tl (Z.to_nat sz) = a ++ b ++ [last b x] ++ r.
Proof.
  induction b as [|y b IH]; intros a x r l fuel Hl Hv Hcount Hr Hfuel;
    (destruct fuel as [|fuel]; [cbn [length] in Hfuel; lia|]);
    cbn [hist_shift]; rewrite hist_head_at;
    pose proof (ring_seg_length l sz (Z.to_nat sz) tl) as Hlen;
    rewrite Hv in Hlen; rewrite length_app in Hlen; cbn [length] in Hlen;
    rewrite length_app in Hlen; cbn [length] in Hlen, Hcount;
    (assert (length r <> O) as Hr' by (destruct r; [contradiction|discriminate])).
  - replace (S (length a)) with c by lia. rewrite Z.eqb_refl.
    exists l. rewrite Nat.add_0_r. now repeat split.
  - rewrite ring_at_eqb by lia.
    destruct (Nat.eqb_spec (S (length a)) c) as [He|_]; [lia|].
    fold sz. rewrite ring_at_next by lia.
    assert (nth (Z.to_nat (ring_at tl sz (S (length a)))) l None = y) as ->.
    { rewrite <- (ring_seg_nth l sz (Z.to_nat sz)) by lia.
      rewrite Hv.
      replace (a ++ x :: (y :: b) ++ r) with ((a ++ [x]) ++ y :: b ++ r)
        by (now rewrite <- app_assoc).
      replace (S (length a)) with (length (a ++ [x]))
        by (rewrite length_app; cbn [length]; lia).
      apply nth_middle. }
    specialize (IH (a ++ [y]) y r
                  (array_set l (Z.to_nat (ring_at tl sz (length a))) y) fuel).
    replace (length (a ++ [y])) with (S (length a)) in IH
      by (rewrite length_app; cbn [length]; lia).
    destruct IH as [l' [Hs [Hl' Hv']]].
    + now rewrite array_set_length.
    + rewrite ring_seg_array_set by lia. rewrite Hv, array_set_here.
      now rewrite <- app_assoc.
    + lia.
    + exact Hr.
    + cbn [length] in Hfuel. lia.
    + exists l'. rewrite Hs. split.
      * do 3 f_equal. cbn [length]. lia.
      * split; [exact Hl'|]. rewrite Hv', last_cons_default.
        now rewrite <- app_assoc.
Qed.

Lemma ring_seg_firstn (l : list (option nat)) (c1 : nat) :
  forall (c2 : nat) (i : Z),
    (c1 <= c2)%nat ->
    ring_seg l sz i c1 = firstn c1 (ring_seg l sz i c2).
Proof.
  induction c1 as [|c1 IH]; intros c2 i Hc; [reflexivity|].
  destruct c2 as [|c2]; [lia|]. cbn [ring_seg firstn].
  f_equal. apply IH. lia.
Qed.

Lemma hist_entries_live :
  hist_entries m
  = map (fun p => c_string (nth p (console_hist_lines m) [])) (firstn c ps).
Proof.
  pose proof hist_ring_length as Hlen. pose proof hist_count_bound as Hc.
  unfold hist_entries. fold h sz tl c.
  rewrite (ring_seg_firstn (lines h) c (Z.to_nat sz)) by lia.
  fold sz tl in Hring. unfold hist_ring in Hring. fold sz tl in Hring.
  rewrite Hring.
  rewrite firstn_app, length_map.
  replace (c - length ps)%nat with O by lia.
  cbn [firstn]. rewrite app_nil_r, firstn_map, map_map. reflexivity.
Qed.

Lemma console_hist_move_to_head_miss (line : list Z) :
  (forall i, (i < c)%nat ->
     streq (nth (nth i ps O) (console_hist_lines m) []) line = false) ->
  console_hist_move_to_head m line = Some (m, false).
Proof.
  pose proof hist_ring_length as Hlen. pose proof hist_count_bound as Hc.
  intros Hno. unfold console_hist_move_to_head.
  replace (tail (sh m)) with (ring_at tl sz 0) by (now apply ring_at_0).
  rewrite (hist_find_none line c); [reflexivity|lia| |lia].
  intros i Hi. apply Hno. lia.
Qed.

Lemma console_hist_move_to_head_hit (line : list Z) (pa pb pr : list nat)
    (px : nat) :
  length (lines h) = Z.to_nat sz ->
  ps = pa ++ px :: pb ++ pr ->
  c = (length pa + 1 + length pb)%nat ->
  streq (nth px (console_hist_lines m) []) line = true ->
  Forall (fun p => streq (nth p (console_hist_lines m) []) line = false) pa ->
  exists l' : list (option nat),
    console_hist_move_to_head m line
    = Some ({| sh := set_lines h l';
               console_hist_lines := console_hist_lines m |}, true)
    /\ length l' = Z.to_nat sz
    /\ ring_seg l' sz tl (Z.to_nat sz)
       = map Some (pa ++ pb ++ [px] ++ pr) ++ [None].
Proof.
  pose proof hist_ring_length as Hlen. pose proof hist_count_bound as Hc.
  intros Hl Hps Hcount Hyes Hno.
  assert (nth (length pa) ps O = px) as Hpx
    by (rewrite Hps; apply nth_middle).
  unfold console_hist_move_to_head.
  replace (tail (sh m)) with (ring_at tl sz 0) by (now apply ring_at_0).
  rewrite (hist_find_some line (length pa) (length pa)); try lia.
  2: now rewrite Hpx.
  2: { intros i Hi. rewrite Hps, app_nth1 by lia.
       rewrite Forall_forall in Hno. apply Hno. apply nth_In. lia. }
  fold h sz. rewrite ring_at_next by lia.
  rewrite hist_line_at_live by lia. rewrite Hpx.
  destruct (hist_shift_spec (map Some pb) (map Some pa) (Some px)
              (map Some pr ++ [None]) (lines h) 256) as [l' [Hs [Hl' Hv]]].
  - exact Hl.
  - fold sz tl in Hring. unfold hist_ring in Hring. fold sz tl in Hring.
    rewrite Hring, Hps. rewrite !map_app. cbn [map].
    rewrite !map_app. rewrite <- app_assoc. cbn [app].
    now rewrite <- app_assoc.
  - rewrite !length_map. exact Hcount.
  - destruct (map Some pr); discriminate.
  - rewrite length_map. lia.
  - rewrite !length_map in Hs. rewrite Hs.
    eexists. split; [reflexivity|].
    split; [now rewrite array_set_length|].
    rewrite ring_seg_array_set by lia. rewrite Hv.
    rewrite app_assoc.
    replace (length pa + length pb)%nat
      with (length (map Some pa ++ map Some pb))
      by (now rewrite length_app, !length_map).
    cbn [app]. rewrite array_set_here.
    rewrite !map_app. cbn [map]. now rewrite <- !app_assoc.
Qed.

End HistoryLoops.

Lemma c_string_no_nul (x : list Z) : Forall (fun c => c <> 0) (c_string x).
Proof.
  unfold c_string. induction x as [|a x IH]; [constructor|].
  cbn [strlen]. destruct (Z.eqb_spec a 0); [constructor|].
  cbn [firstn]. now constructor.
Qed.

Lemma streq_true (a b : list Z) :
  streq a b = true <-> c_string a = c_string b.
Proof.
  unfold streq. destruct (list_eq_dec Z.eq_dec (c_string a) (c_string b));
    split; intros H; try assumption; try reflexivity; try discriminate.
  contradiction.
Qed.

Lemma streq_false (a b : list Z) :
  streq a b = false <-> c_string a <> c_string b.
Proof.
  unfold streq. destruct (list_eq_dec Z.eq_dec (c_string a) (c_string b));
    split; intros H; try assumption; try reflexivity; try discriminate.
  contradiction.
Qed.

Lemma strcpy_fits (dst t rest : list Z) :
  Forall (fun c => c <> 0) t ->
  (length t < length dst)%nat ->
  strcpy dst (t ++ 0 :: rest) = Some (t ++ 0 :: skipn (S (length t)) dst)
  /\ length (t ++ 0 :: skipn (S (length t)) dst) = length dst.
Proof.
  intros Ht Hlen. unfold strcpy.
  rewrite strlen_string, c_string_string by assumption.
  destruct (Nat.ltb_spec (length t) (length dst)); [|lia].
  split; [reflexivity|].
  rewrite length_app. cbn [length]. rewrite length_skipn. lia.
Qed.

Lemma trim_whitespace_buf (s rest : list Z) (len : Z) :
  Forall (fun c => c <> 0) s ->
  0 < len ->
  exists t : list Z,
    Forall (fun c => c <> 0) t
    /\ Z.of_nat (length t) < len
    /\ forall out : list Z,
         Z.of_nat (length out) = len ->
         trim_whitespace (s ++ 0 :: rest) len out
         = Some (t ++ 0 :: skipn (S (length t)) out, Z.of_nat (length t)).
Proof.
  intros Hs Hlen.
  destruct (trim_whitespace_form s rest len Hs Hlen)
    as [sp1 [mid [sp2 [Hsplit [_ [_ [_ Htrim]]]]]]].
  exists (firstn (Z.to_nat (len - 1)) mid).
  split.
  - rewrite Hsplit in Hs. apply Forall_app in Hs. destruct Hs as [_ Hs].
    apply Forall_app in Hs. destruct Hs as [Hs _].
    rewrite <- (firstn_skipn (Z.to_nat (len - 1)) mid) in Hs.
    apply Forall_app in Hs. tauto.
  - split; [rewrite length_firstn; lia|].
    intros out Hout. exact (proj2 (Htrim out Hout)).
Qed.

Lemma Forall_array_set {A : Type} (P : A -> Prop) (l : list A) :
  forall (i : nat) (v : A),
    Forall P l -> P v -> Forall P (array_set l i v).
Proof.
  induction l as [|x l IH]; intros i v Hl Hv; [constructor|].
  inversion Hl; subst. destruct i; cbn [array_set]; constructor; auto.
Qed.

Lemma NoDup_snoc {A : Type} (l : list A) (x : A) :
  NoDup l -> ~ In x l -> NoDup (l ++ [x]).
Proof.
  intros Hl Hx. apply (Permutation_NoDup (l := x :: l)).
  - apply Permutation_cons_append.
  - now constructor.
Qed.

Ltac hist_inv_elim H :=
  destruct H as [[Hn Hmax] [[Hsize [Hhd Htl]] [[Hlines [Hrows Hrowlen]]
                 [[ps [Hring [Hnd Hps]]] [Hnde Hne]]]]].

Lemma hist_inv_intro (cfg : syscfg) (m : hist_mem) (ps : list nat) :
  1 <= CONSOLE_HISTORY_SIZE cfg <= 254 ->
  1 <= CONSOLE_MAX_INPUT_LEN cfg ->
  size (sh m) = CONSOLE_HISTORY_SIZE cfg + 1 ->
  0 <= head (sh m) < size (sh m) ->
  0 <= tail (sh m) < size (sh m) ->
  length (lines (sh m)) = Z.to_nat (size (sh m)) ->
  length (console_hist_lines m) = Z.to_nat (CONSOLE_HISTORY_SIZE cfg) ->
  Forall (fun row => Z.of_nat (length row) = CONSOLE_MAX_INPUT_LEN cfg
                     /\ In 0 row)
    (console_hist_lines m) ->
  hist_ring (sh m) = map Some ps ++ [None] ->
  NoDup ps ->
  Forall (fun p => (p < Z.to_nat (CONSOLE_HISTORY_SIZE cfg))%nat) ps ->
  forall es : list (list Z),
    map (fun p => c_string (nth p (console_hist_lines m) []))
      (firstn (hist_count (sh m)) ps) = es ->
    NoDup es ->
    Forall (fun e => e <> []) es ->
    hist_inv cfg m /\ hist_entries m = es.
Proof.
  intros Hn Hmax Hsize Hhd Htl Hlines Hrows Hrowlen Hring Hnd Hps es Hes
    Hnde Hne.
  assert (hist_entries m = es) as He
    by (rewrite <- Hes; apply hist_entries_live; try assumption; lia).
  split; [|exact He].
  unfold hist_inv. rewrite He. cbv zeta.
  repeat split; try assumption; try lia.
  exists ps. now repeat split.
Qed.

Lemma init_lines (n k : nat) :
  (k <= n)%nat ->
  fold_left (fun l i => array_set l i (Some i)) (seq 0 k)
    (repeat None (S n))
  = map Some (seq 0 k) ++ repeat None (S n - k).
Proof.
  induction k as [|k IH]; intros Hk.
  - cbn [seq fold_left map app]. now rewrite Nat.sub_0_r.
  - rewrite seq_S, fold_left_app, IH by lia. cbn [fold_left Nat.add].
    replace (S n - k)%nat with (S (S n - S k)) by lia.
    cbn [repeat].
    pose proof (array_set_here (map Some (seq 0 k))
                  (repeat None (S n - S k)) None (Some k)) as H.
    rewrite length_map, length_seq in H.
    rewrite H, map_app. cbn [map].
    now rewrite <- app_assoc.
Qed.

Lemma ring_seg_from_0 (l : list (option nat)) (sz : Z) :
  0 < sz <= 255 -> length l = Z.to_nat sz ->
  ring_seg l sz 0 (Z.to_nat sz) = l.
Proof.
  intros Hs Hl. apply (nth_ext _ _ None None).
  - now rewrite ring_seg_length.
  - intros k Hk. rewrite ring_seg_length in Hk.
    rewrite ring_seg_nth by lia. unfold ring_at.
    rewrite Z.add_0_l, Z.mod_small by lia. now rewrite Nat2Z.id.
Qed.

Lemma console_hist_init_ok (cfg : syscfg) :
  1 <= CONSOLE_HISTORY_SIZE cfg <= 254 ->
  1 <= CONSOLE_MAX_INPUT_LEN cfg ->
  hist_inv cfg (console_hist_init cfg)
  /\ hist_entries (console_hist_init cfg) = []
  /\ lines (sh (console_hist_init cfg))
     = map Some (seq 0 (Z.to_nat (CONSOLE_HISTORY_SIZE cfg))) ++ [None].
Proof.
  intros Hn Hmax.
  set (n := Z.to_nat (CONSOLE_HISTORY_SIZE cfg)).
  assert (u8 (CONSOLE_HISTORY_SIZE cfg + 1) = CONSOLE_HISTORY_SIZE cfg + 1)
    as Hu8 by (apply u8_small; lia).
  assert (lines (sh (console_hist_init cfg)) = map Some (seq 0 n) ++ [None])
    as Hl.
  { cbn [console_hist_init sh lines]. rewrite Hu8.
    replace (Z.to_nat (CONSOLE_HISTORY_SIZE cfg + 1 - 1)) with n
      by (unfold n; lia).
    fold n. rewrite init_lines by lia.
    now replace (S n - n)%nat with 1%nat by lia. }
  assert (length (lines (sh (console_hist_init cfg)))
          = Z.to_nat (size (sh (console_hist_init cfg)))) as Hlen.
  { rewrite Hl, length_app, length_map, length_seq.
    cbn [console_hist_init sh size length]. rewrite Hu8. unfold n. lia. }
  assert (hist_count (sh (console_hist_init cfg)) = O) as Hc.
  { unfold hist_count. cbn [console_hist_init sh head tail size].
    now rewrite Z.sub_diag, Z.mod_0_l by (rewrite Hu8; lia). }
  assert (size (sh (console_hist_init cfg)) = CONSOLE_HISTORY_SIZE cfg + 1)
    as Hsize by exact Hu8.
  assert (head (sh (console_hist_init cfg)) = 0) as Hhd by reflexivity.
  assert (tail (sh (console_hist_init cfg)) = 0) as Htl by reflexivity.
  assert (hist_ring (sh (console_hist_init cfg))
          = map Some (seq 0 n) ++ [None]) as Hring.
  { unfold hist_ring. rewrite Htl, <- Hl. apply ring_seg_from_0; [lia|].
    exact Hlen. }
  destruct (hist_inv_intro cfg (console_hist_init cfg) (seq 0 n) Hn Hmax
              Hsize ltac:(lia) ltac:(lia) Hlen) with (es := @nil (list Z))
    as [Hinv He].
  - apply repeat_length.
  - apply Forall_forall. intros row Hrow. apply repeat_spec in Hrow.
    subst row. rewrite repeat_length. split; [lia|].
    destruct (Z.to_nat (CONSOLE_MAX_INPUT_LEN cfg)) eqn:E; [lia|].
    now left.
  - exact Hring.
  - apply seq_NoDup.
  - apply Forall_forall. intros p Hp. apply in_seq in Hp. fold n. lia.
  - now rewrite Hc.
  - constructor.
  - constructor.
  - split; [exact Hinv|]. split; [exact He|exact Hl].
Qed.

Lemma hist_full_iff (cfg : syscfg) (m : hist_mem) :
  hist_inv cfg m ->
  console_hist_is_full (sh m)
  = (hist_count (sh m) =? Z.to_nat (CONSOLE_HISTORY_SIZE cfg))%nat.
Proof.
  intros Hinv. hist_inv_elim Hinv.
  pose proof (hist_ring_length m ps ltac:(lia) Hring) as Hlen.
  pose proof (hist_count_bound m ps ltac:(lia) Hring) as Hc.
  unfold console_hist_is_full.
  rewrite (hist_head_at m) by lia.
  rewrite ring_at_next by lia.
  destruct (Nat.eqb_spec (hist_count (sh m))
              (Z.to_nat (CONSOLE_HISTORY_SIZE cfg))) as [He|Hdiff].
  - replace (ring_at (tail (sh m)) (size (sh m)) (S (hist_count (sh m))))
      with (tail (sh m)); [apply Z.eqb_refl|].
    unfold ring_at.
    replace (tail (sh m) + Z.of_nat (S (hist_count (sh m))))
      with (tail (sh m) + 1 * size (sh m)) by lia.
    rewrite Z.mod_add by lia. symmetry. apply Z.mod_small. lia.
  - rewrite <- (ring_at_0 (tail (sh m)) (size (sh m))) at 2 by lia.
    rewrite ring_at_eqb by lia. reflexivity.
Qed.

Lemma firstn_length_app {A : Type} (a b : list A) :
  firstn (length a) (a ++ b) = a.
Proof.
  rewrite firstn_app, Nat.sub_diag, firstn_all. cbn [firstn].
  apply app_nil_r.
Qed.

Lemma firstn_succ_app {A : Type} (a b : list A) (x : A) :
  firstn (S (length a)) (a ++ x :: b) = a ++ [x].
Proof.
  rewrite firstn_app, firstn_all2 by lia.
  replace (S (length a) - length a)%nat with 1%nat by lia. reflexivity.
Qed.

(** The store of a new line at the head of a history that is not full. *)
Lemma hist_append_step (cfg : syscfg) (h : console_hist)
    (rows : list (list Z)) (t rest : list Z) :
  let m := {| sh := h; console_hist_lines := rows |} in
  let hd' := ring_buf_next (head h) (size h) in
  hist_inv cfg m ->
  (hist_count h < Z.to_nat (CONSOLE_HISTORY_SIZE cfg))%nat ->
  Forall (fun c => c <> 0) t ->
  t <> [] ->
  Z.of_nat (length t) < CONSOLE_MAX_INPUT_LEN cfg ->
  ~ In t (hist_entries m) ->
  exists (p : nat) (row : list Z),
    line_at h (head h) = Some p
    /\ strcpy (nth p rows []) (t ++ 0 :: rest) = Some row
    /\ hist_inv cfg {| sh := set_curr (set_head h hd') hd';
                       console_hist_lines := array_set rows p row |}
    /\ hist_entries {| sh := set_curr (set_head h hd') hd';
                       console_hist_lines := array_set rows p row |}
       = hist_entries m ++ [t].
Proof.
  intros m hd' Hinv Hcount Ht Hte Htlen Hnew. hist_inv_elim Hinv.
  cbn [sh console_hist_lines m] in *.
  pose proof (hist_ring_length m ps ltac:(cbn [m sh]; lia) Hring) as Hlen.
  pose proof (hist_entries_live m ps ltac:(cbn [m sh]; lia) Hring) as Hold.
  pose proof (hist_head_at m ltac:(cbn [m sh]; lia) ltac:(cbn [m sh]; lia))
    as Hhead.
  pose proof (hist_line_at_live m ps ltac:(cbn [m sh]; lia)
                ltac:(cbn [m sh]; lia) Hring) as Hlive.
  cbn [sh console_hist_lines m] in Hlen, Hold, Hhead, Hlive.
  set (c := hist_count h) in *.
  destruct (nth_split ps O (n := c) ltac:(lia)) as [pa [pr [Hsplit Hpa]]].
  set (p := nth c ps O) in *.
  assert (p < Z.to_nat (CONSOLE_HISTORY_SIZE cfg))%nat as Hp.
  { rewrite Forall_forall in Hps. apply Hps. rewrite Hsplit.
    apply in_elt. }
  assert (Z.of_nat (length (nth p rows [])) = CONSOLE_MAX_INPUT_LEN cfg)
    as Hrow.
  { rewrite Forall_forall in Hrowlen. apply Hrowlen. apply nth_In. lia. }
  destruct (strcpy_fits (nth p rows []) t rest Ht ltac:(lia))
    as [Hcpy Hcpylen].
  set (row := t ++ 0 :: skipn (S (length t)) (nth p rows [])) in *.
  exists p, row.
  split.
  { rewrite Hhead. apply Hlive. lia. }
  split; [exact Hcpy|].
  assert (0 <= hd' < size h) as Hhd'.
  { unfold hd'. rewrite ring_buf_next_mod by lia.
    apply Z.mod_pos_bound. lia. }
  assert (hist_count (set_curr (set_head h hd') hd') = S c) as Hc'.
  { unfold hist_count. cbn [set_curr set_head head tail size].
    unfold hd'. rewrite Hhead. rewrite ring_at_next by lia.
    apply count_ring_at; lia. }
  assert (~ In p pa) as Hpnew.
  { rewrite Hsplit in Hnd. apply NoDup_remove_2 in Hnd.
    intros Hin. apply Hnd. apply in_or_app. now left. }
  apply (hist_inv_intro cfg _ ps); cbn [sh console_hist_lines set_curr
    set_head head tail size lines]; try assumption; try lia.
  - now rewrite array_set_length.
  - apply Forall_array_set; [assumption|]. split; [lia|].
    unfold row. apply in_elt.
  - rewrite Hc', Hold, Hsplit, <- Hpa, firstn_succ_app, firstn_length_app.
    rewrite map_app. cbn [map]. f_equal.
    + apply map_ext_in. intros q Hq.
      rewrite nth_array_set by lia.
      destruct (Nat.eqb_spec q p) as [->|]; [contradiction|reflexivity].
    + rewrite nth_array_set by lia. rewrite Nat.eqb_refl.
      unfold row. now rewrite c_string_string.
  - apply NoDup_snoc; assumption.
  - apply Forall_app. split; [assumption|]. now constructor.
Qed.

(** The eviction of the oldest line of a full history. *)
Lemma hist_evict_step (cfg : syscfg) (h : console_hist)
    (rows : list (list Z)) :
  let m := {| sh := h; console_hist_lines := rows |} in
  let l1 := array_set (lines h) (Z.to_nat (head h)) (line_at h (tail h)) in
  let l2 := array_set l1 (Z.to_nat (tail h)) None in
  let h1 := set_tail (set_lines h l2) (ring_buf_next (tail h) (size h)) in
  hist_inv cfg m ->
  hist_count h = Z.to_nat (CONSOLE_HISTORY_SIZE cfg) ->
  line_at h (head h) = None
  /\ hist_inv cfg {| sh := h1; console_hist_lines := rows |}
  /\ hist_entries {| sh := h1; console_hist_lines := rows |}
     = List.tl (hist_entries m)
  /\ (hist_count h1 < Z.to_nat (CONSOLE_HISTORY_SIZE cfg))%nat.
Proof.
  intros m l1 l2 h1 Hinv Hcount. hist_inv_elim Hinv.
  cbn [sh console_hist_lines m] in *.
  pose proof (hist_ring_length m ps ltac:(cbn [m sh]; lia) Hring) as Hlen.
  pose proof (hist_entries_live m ps ltac:(cbn [m sh]; lia) Hring) as Hold.
  pose proof (hist_head_at m ltac:(cbn [m sh]; lia) ltac:(cbn [m sh]; lia))
    as Hhead.
  pose proof (hist_line_at m ps ltac:(cbn [m sh]; lia)
                ltac:(cbn [m sh]; lia) Hring) as Hat.
  cbn [sh console_hist_lines m] in Hlen, Hold, Hhead, Hat.
  rewrite Hcount in Hold, Hhead.
  set (n := Z.to_nat (CONSOLE_HISTORY_SIZE cfg)) in *.
  assert (length ps = n) as Hpsn by lia.
  destruct ps as [|p0 ps']; [cbn [length] in Hpsn; lia|].
  assert (tail h = ring_at (tail h) (size h) 0) as Htail
    by (symmetry; now apply ring_at_0).
  assert (line_at h (head h) = None) as Hnull.
  { rewrite Hhead, Hat by lia. rewrite <- Hpsn.
    rewrite <- (length_map Some (p0 :: ps')). apply nth_middle. }
  assert (line_at h (tail h) = Some p0) as Hfirst.
  { rewrite Htail, Hat by lia. reflexivity. }
  split; [exact Hnull|].
  assert (length l2 = Z.to_nat (size h)) as Hl2
    by (unfold l2, l1; now rewrite !array_set_length).
  assert (ring_seg l2 (size h) (tail h) (Z.to_nat (size h))
          = None :: map Some ps' ++ [Some p0]) as Hv2.
  { unfold l2. rewrite Htail at 1.
    rewrite ring_seg_array_set
      by (try lia; unfold l1; now rewrite array_set_length).
    unfold l1. rewrite Hhead, Hfirst.
    rewrite ring_seg_array_set by (try assumption; lia).
    unfold hist_ring in Hring. rewrite Hring.
    rewrite <- Hpsn. rewrite <- (length_map Some (p0 :: ps')).
    rewrite array_set_here. reflexivity. }
  assert (hist_ring h1 = map Some (ps' ++ [p0]) ++ [None]) as Hring1.
  { unfold hist_ring, h1.
    cbn [set_tail set_lines lines size tail].
    rewrite (ring_seg_rotate l2 (size h) (tail h) None
               (map Some ps' ++ [Some p0])) by (try assumption; lia).
    now rewrite map_app. }
  assert (hist_count h1 = length ps') as Hc1.
  { unfold hist_count, h1. cbn [set_tail set_lines head size tail].
    rewrite Hhead. rewrite ring_buf_next_mod by lia. unfold ring_at.
    rewrite <- Zminus_mod.
    replace (tail h + Z.of_nat n - (tail h + 1)) with (Z.of_nat (length ps'))
      by (cbn [length] in Hpsn; lia).
    rewrite Z.mod_small by (cbn [length] in Hpsn; lia).
    apply Nat2Z.id. }
  rewrite firstn_all2 in Hold by lia. cbn [map] in Hold.
  rewrite Hold in Hnde, Hne. rewrite Hold. cbn [List.tl].
  inversion Hnde as [|e es Hnotin Hnde']; subst.
  inversion Hne as [|e es _ Hne']; subst.
  inversion Hnd as [|q qs Hp0 Hnd']; subst.
  inversion Hps as [|q qs Hp0n Hps']; subst.
  assert (0 <= ring_buf_next (tail h) (size h) < size h) as Htl1.
  { rewrite ring_buf_next_mod by lia. apply Z.mod_pos_bound. lia. }
  rewrite <- and_assoc. split.
  - apply (hist_inv_intro cfg _ (ps' ++ [p0]));
      cbn [sh console_hist_lines h1 set_tail set_lines head tail size lines];
      try assumption; try lia.
    + now apply NoDup_snoc.
    + apply Forall_app. split; [assumption|]. now constructor.
    + fold h1. rewrite Hc1. now rewrite firstn_length_app.
  - rewrite Hc1. cbn [length] in Hpsn. lia.
Qed.

Lemma first_match_list {A : Type} (g : A -> bool) (l : list A) :
  Forall (fun q => g q = false) l
  \/ exists (a : list A) (x : A) (b : list A),
       l = a ++ x :: b /\ Forall (fun q => g q = false) a /\ g x = true.
Proof.
  induction l as [|y l [IH|[a [x [b [Hl [Ha Hx]]]]]]].
  - left. constructor.
  - destruct (g y) eqn:E.
    + right. exists [], y, l. now repeat split.
    + left. now constructor.
  - destruct (g y) eqn:E.
    + right. exists [], y, l. now repeat split.
    + right. exists (y :: a), x, b. rewrite Hl.
      split; [reflexivity|]. split; [now constructor|exact Hx].
Qed.

(** The search for a line and its move to the head. *)
Lemma hist_move_step (cfg : syscfg) (m : hist_mem) (buf : list Z) :
  hist_inv cfg m ->
  (In (c_string buf) (hist_entries m) ->
   exists m' : hist_mem,
     console_hist_move_to_head m buf = Some (m', true)
     /\ hist_inv cfg m'
     /\ hist_entries m'
        = remove (list_eq_dec Z.eq_dec) (c_string buf) (hist_entries m)
            ++ [c_string buf]
     /\ head (sh m') = head (sh m) /\ curr (sh m') = curr (sh m))
  /\ (~ In (c_string buf) (hist_entries m) ->
      console_hist_move_to_head m buf = Some (m, false)).
Proof.
  intros Hinv. hist_inv_elim Hinv.
  pose proof (hist_ring_length m ps ltac:(lia) Hring) as Hlen.
  pose proof (hist_count_bound m ps ltac:(lia) Hring) as Hc.
  pose proof (hist_entries_live m ps ltac:(lia) Hring) as Hold.
  set (c := hist_count (sh m)) in *.
  set (rowstr := fun p => c_string (nth p (console_hist_lines m) [])) in *.
  destruct (first_match_list
              (fun q => streq (nth q (console_hist_lines m) []) buf)
              (firstn c ps)) as [Hno|[pa [px [pb [Hsplit [Hno Hyes]]]]]].
  - assert (~ In (c_string buf) (hist_entries m)) as Hnotin.
    { rewrite Hold. intros Hin. apply in_map_iff in Hin.
      destruct Hin as [q [Hq Hin]]. rewrite Forall_forall in Hno.
      apply Hno in Hin. apply streq_false in Hin. now apply Hin. }
    split; [intros Hin; contradiction|]. intros _.
    apply (console_hist_move_to_head_miss m ps); try assumption; try lia.
    intros i Hi. rewrite Forall_forall in Hno. apply Hno.
    rewrite <- (firstn_skipn c ps) at 1.
    rewrite app_nth1 by (rewrite length_firstn; lia).
    apply nth_In. rewrite length_firstn. lia.
  - apply streq_true in Hyes. fold (rowstr px) in Hyes.
    assert (exists pr, ps = pa ++ px :: pb ++ pr) as [pr Hps3].
    { exists (skipn c ps). rewrite <- (firstn_skipn c ps) at 1.
      rewrite Hsplit. now rewrite <- app_assoc. }
    assert (c = (length pa + 1 + length pb)%nat) as Hcount.
    { assert (length (firstn c ps) = c) as H
        by (rewrite length_firstn; lia).
      rewrite Hsplit, length_app in H. cbn [length] in H. lia. }
    rewrite Hsplit, map_app in Hold. cbn [map] in Hold.
    rewrite Hyes in Hold. rewrite Hold in Hnde, Hne.
    pose proof (NoDup_remove_1 _ _ _ Hnde) as Hnde1.
    pose proof (NoDup_remove_2 _ _ _ Hnde) as Hnde2.
    assert (In (c_string buf) (hist_entries m)) as Hin
      by (rewrite Hold; apply in_elt).
    split; [intros _|intros Hnotin; contradiction].
    destruct (console_hist_move_to_head_hit m ps ltac:(lia) ltac:(lia)
                ltac:(lia) Hring buf pa pb (pr) px Hlines Hps3 Hcount)
      as [l' [Hmove [Hl' Hv']]].
    { now apply streq_true. }
    { exact Hno. }
    eexists. split; [exact Hmove|].
    cbn [sh set_lines head curr].
    rewrite <- and_assoc. split; [|now split].
    assert (Permutation ps (pa ++ pb ++ [px] ++ pr)) as Hperm.
    { rewrite Hps3 at 1. apply Permutation_app_head.
      cbn [app]. apply Permutation_middle. }
    apply (hist_inv_intro cfg _ (pa ++ pb ++ [px] ++ pr));
      cbn [sh console_hist_lines set_lines head tail size lines];
      try assumption; try lia.
    + apply (Permutation_NoDup Hperm). exact Hnd.
    + apply (Permutation_Forall Hperm). exact Hps.
    + change (hist_count (set_lines (sh m) l')) with c.
      rewrite Hcount.
      replace (pa ++ pb ++ [px] ++ pr)
        with ((pa ++ pb ++ [px]) ++ pr)
        by (now rewrite <- !app_assoc).
      replace (length pa + 1 + length pb)%nat
        with (length (pa ++ pb ++ [px]))
        by (rewrite !length_app; cbn [length]; lia).
      rewrite firstn_length_app, Hold.
      rewrite remove_app, remove_cons.
      rewrite !notin_remove
        by (intros Hin'; apply Hnde2; apply in_or_app; tauto).
      rewrite !map_app. cbn [map]. fold (rowstr px). rewrite Hyes.
      now rewrite <- app_assoc.
    + rewrite Hold, remove_app, remove_cons.
      rewrite !notin_remove
        by (intros Hin'; apply Hnde2; apply in_or_app; tauto).
      apply NoDup_snoc; assumption.
    + rewrite Hold, remove_app, remove_cons.
      rewrite !notin_remove
        by (intros Hin'; apply Hnde2; apply in_or_app; tauto).
      apply Forall_app in Hne. destruct Hne as [Hne1 Hne2].
      inversion Hne2; subst.
      apply Forall_app. split; [apply Forall_app; now split|].
      now constructor.
Qed.

Lemma hist_entries_length (cfg : syscfg) (m : hist_mem) :
  hist_inv cfg m ->
  length (hist_entries m) = hist_count (sh m)
  /\ (hist_count (sh m) <= Z.to_nat (CONSOLE_HISTORY_SIZE cfg))%nat.
Proof.
  intros Hinv. hist_inv_elim Hinv.
  pose proof (hist_ring_length m ps ltac:(lia) Hring) as Hlen.
  pose proof (hist_count_bound m ps ltac:(lia) Hring) as Hc.
  rewrite (hist_entries_live m ps ltac:(lia) Hring).
  rewrite length_map, length_firstn. lia.
Qed.

Lemma console_hist_add_core (cfg : syscfg) (m : hist_mem) (s rest : list Z) :
  hist_inv cfg m ->
  Forall (fun c => c <> 0) s ->
  exists t : list Z,
    Forall (fun c => c <> 0) t
    /\ forall buf0 : list Z,
         Z.of_nat (length buf0) = CONSOLE_MAX_INPUT_LEN cfg ->
         trim_whitespace (s ++ 0 :: rest) (CONSOLE_MAX_INPUT_LEN cfg) buf0
         = Some (t ++ 0 :: skipn (S (length t)) buf0, Z.of_nat (length t))
         /\ exists m' : hist_mem,
              console_hist_add cfg buf0 (s ++ 0 :: rest) m = Some m'
              /\ hist_inv cfg m'
              /\ curr (sh m') = head (sh m')
              /\ (t = [] -> hist_entries m' = hist_entries m)
              /\ (In t (hist_entries m) ->
                  hist_entries m'
                  = remove (list_eq_dec Z.eq_dec) t (hist_entries m) ++ [t])
              /\ (t <> [] -> ~ In t (hist_entries m) ->
                  (length (hist_entries m)
                   < Z.to_nat (CONSOLE_HISTORY_SIZE cfg))%nat ->
                  hist_entries m' = hist_entries m ++ [t])
              /\ (t <> [] -> ~ In t (hist_entries m) ->
                  length (hist_entries m)
                  = Z.to_nat (CONSOLE_HISTORY_SIZE cfg) ->
                  hist_entries m' = List.tl (hist_entries m) ++ [t]).
Proof.
  intros Hinv Hs.
  assert (1 <= CONSOLE_MAX_INPUT_LEN cfg) as Hmax by apply Hinv.
  assert (Forall (fun e => e <> []) (hist_entries m)) as Hne by apply Hinv.
  destruct (trim_whitespace_buf s rest (CONSOLE_MAX_INPUT_LEN cfg) Hs
              ltac:(lia)) as [t [Ht [Htlen Htrim]]].
  exists t. split; [exact Ht|]. intros buf0 Hbuf0.
  specialize (Htrim buf0 Hbuf0). split; [exact Htrim|].
  set (buf := t ++ 0 :: skipn (S (length t)) buf0) in *.
  assert (c_string buf = t) as Hstr by (now apply c_string_string).
  unfold console_hist_add. rewrite Htrim.
  set (m0 := {| sh := set_curr (sh m) (head (sh m));
                console_hist_lines := console_hist_lines m |}).
  assert (hist_inv cfg m0) as Hinv0 by exact Hinv.
  change (hist_entries m) with (hist_entries m0).
  destruct (hist_entries_length cfg m0 Hinv0) as [Holdlen Hcn].
  destruct (Z.eqb_spec (Z.of_nat (length t)) 0) as [He|He].
  - assert (t = []) as Hnil by (destruct t; [reflexivity|cbn [length] in He; lia]).
    exists m0.
    split; [reflexivity|].
    split; [exact Hinv0|]. split; [reflexivity|].
    split; [reflexivity|].
    split.
    { intros Hin. rewrite Forall_forall in Hne. now apply Hne in Hin. }
    split; intros Hnn; contradiction.
  - assert (t <> []) as Hte by (intros ->; now apply He).
    destruct (hist_move_step cfg m0 buf Hinv0) as [Hhit Hmiss].
    rewrite Hstr in Hhit, Hmiss.
    destruct (in_dec (list_eq_dec Z.eq_dec) t (hist_entries m0))
      as [Hin|Hnotin].
    + destruct (Hhit Hin) as [m' [Hmove [Hinv' [Hent [Hhd' Hcurr']]]]].
      rewrite Hmove. exists m'.
      split; [reflexivity|]. split; [exact Hinv'|].
      split; [rewrite Hcurr', Hhd'; reflexivity|].
      split; [intros Hnil; contradiction|].
      split; [intros _; exact Hent|].
      split; intros _ Hnotin; contradiction.
    + rewrite (Hmiss Hnotin).
      rewrite (hist_full_iff cfg m0 Hinv0).
      destruct (Nat.eqb_spec (hist_count (sh m0))
                  (Z.to_nat (CONSOLE_HISTORY_SIZE cfg))) as [Hfull|Hroom].
      * destruct (hist_evict_step cfg (sh m0) (console_hist_lines m0)
                    Hinv0 Hfull) as [Hnull [Hinv1 [Hent1 Hc1]]].
        change (hist_entries {| sh := sh m0;
                                console_hist_lines := console_hist_lines m0 |})
          with (hist_entries m0) in Hent1.
        rewrite Hnull. cbv zeta.
        destruct (hist_append_step cfg _ (console_hist_lines m0) t
                    (skipn (S (length t)) buf0) Hinv1 Hc1 Ht Hte Htlen)
          as [p [row [Hline [Hcpy [Hinv' Hent']]]]].
        { rewrite Hent1. intros Hin. apply Hnotin.
          destruct (hist_entries m0); [contradiction|]. now right. }
        rewrite Hline. fold buf in Hcpy. rewrite Hcpy.
        eexists. split; [reflexivity|].
        split; [exact Hinv'|].
        split; [reflexivity|].
        split; [intros Hnil; contradiction|].
        split; [intros Hin; contradiction|].
        split; [intros _ _ Hlt; lia|].
        intros _ _ _. rewrite Hent', Hent1. reflexivity.
      * destruct (hist_append_step cfg (sh m0) (console_hist_lines m0) t
                    (skipn (S (length t)) buf0) Hinv0 ltac:(lia) Ht Hte
                    Htlen Hnotin)
          as [p [row [Hline [Hcpy [Hinv' Hent']]]]].
        change (hist_entries {| sh := sh m0;
                                console_hist_lines := console_hist_lines m0 |})
          with (hist_entries m0) in Hent'.
        rewrite Hline. fold buf in Hcpy. rewrite Hcpy.
        eexists. split; [reflexivity|].
        split; [exact Hinv'|].
        split; [reflexivity|].
        split; [intros Hnil; contradiction|].
        split; [intros Hin; contradiction|].
        split; [|intros _ _ Heq; lia].
        intros _ _ _. exact Hent'.
Qed.

(** X6.  With a history size between 1 and 254, [console_hist_init] sets
    up an empty history that satisfies the invariant: line [i] points to
    row [i] of [console_hist_lines] and the last line is [NULL]. *)
Theorem console_hist_init_inv (cfg : syscfg) :
  1 <= CONSOLE_HISTORY_SIZE cfg <= 254 ->
  1 <= CONSOLE_MAX_INPUT_LEN cfg ->
  hist_inv cfg (console_hist_init cfg)
  /\ hist_entries (console_hist_init cfg) = []
  /\ lines (sh (console_hist_init cfg))
     = map Some (seq 0 (Z.to_nat (CONSOLE_HISTORY_SIZE cfg))) ++ [None].
Proof. apply console_hist_init_ok. Qed.

Lemma console_hist_init_inv_witness :
  hist_entries (console_hist_init small_console) = []
  /\ lines (sh (console_hist_init small_console))
     = [Some 0%nat; Some 1%nat; Some 2%nat; None].
Proof.
  exact (proj2 (console_hist_init_inv small_console ltac:(cbn; lia)
                  ltac:(cbn; lia))).
Defined.

(** X7.  On a history that satisfies the invariant, [console_hist_add]
    runs to its end for every NUL-terminated line: the assertion holds, no
    [NULL] line is compared or written to, [strcpy] stays within its row;
    the invariant holds afterwards and [curr] is back at the head. *)
Theorem console_hist_add_safe (cfg : syscfg) (m : hist_mem)
    (buf0 s rest : list Z) :
  hist_inv cfg m ->
  Forall (fun c => c <> 0) s ->
  Z.of_nat (length buf0) = CONSOLE_MAX_INPUT_LEN cfg ->
  exists m' : hist_mem,
    console_hist_add cfg buf0 (s ++ 0 :: rest) m = Some m'
    /\ hist_inv cfg m'
    /\ curr (sh m') = head (sh m').
Proof.
  intros Hinv Hs Hbuf0.
  destruct (console_hist_add_core cfg m s rest Hinv Hs) as [t [_ Hadd]].
  destruct (Hadd buf0 Hbuf0) as [_ [m' [Hm' [Hinv' [Hcurr _]]]]].
  exists m'. split; [exact Hm'|]. split; [exact Hinv'|exact Hcurr].
Qed.

Lemma console_hist_add_safe_witness :
  exists m' : hist_mem,
    console_hist_add small_console (repeat 7 8) [32; 108; 115; 32; 0; 9]
      (console_hist_init small_console) = Some m'
    /\ hist_inv small_console m'
    /\ curr (sh m') = head (sh m').
Proof.
  exact (console_hist_add_safe small_console
           (console_hist_init small_console) (repeat 7 8) [32; 108; 115; 32]
           [9]
           (proj1 (console_hist_init_ok small_console ltac:(cbn; lia)
                     ltac:(cbn; lia)))
           ltac:(repeat constructor; discriminate) eq_refl).
Defined.

(** X8.  The lines of the history after [console_hist_add], oldest first,
    with [t] the trimmed line left in [buf]: unchanged if [t] is empty; if
    [t] is in the history it moves to the end; otherwise [t] is added at
    the end, after the oldest line is dropped from a full history. *)
Theorem console_hist_add_entries (cfg : syscfg) (m : hist_mem)
    (buf0 s rest : list Z) :
  hist_inv cfg m ->
  Forall (fun c => c <> 0) s ->
  Z.of_nat (length buf0) = CONSOLE_MAX_INPUT_LEN cfg ->
  exists (buf : list Z) (len : Z) (m' : hist_mem),
    trim_whitespace (s ++ 0 :: rest) (CONSOLE_MAX_INPUT_LEN cfg) buf0
    = Some (buf, len)
    /\ console_hist_add cfg buf0 (s ++ 0 :: rest) m = Some m'
    /\ hist_entries m'
       = if list_eq_dec Z.eq_dec (c_string buf) [] then hist_entries m
         else if in_dec (list_eq_dec Z.eq_dec) (c_string buf) (hist_entries m)
         then remove (list_eq_dec Z.eq_dec) (c_string buf) (hist_entries m)
                ++ [c_string buf]
         else (if (length (hist_entries m)
                   =? Z.to_nat (CONSOLE_HISTORY_SIZE cfg))%nat
               then List.tl (hist_entries m) else hist_entries m)
                ++ [c_string buf].
Proof.
  intros Hinv Hs Hbuf0.
  destruct (hist_entries_length cfg m Hinv) as [Hlen Hcn].
  destruct (console_hist_add_core cfg m s rest Hinv Hs) as [t [Ht Hadd]].
  destruct (Hadd buf0 Hbuf0)
    as [Htrim [m' [Hm' [_ [_ [Hnil [Hin [Hroom Hfull]]]]]]]].
  exists (t ++ 0 :: skipn (S (length t)) buf0), (Z.of_nat (length t)), m'.
  split; [exact Htrim|]. split; [exact Hm'|].
  rewrite c_string_string by exact Ht.
  destruct (list_eq_dec Z.eq_dec t []) as [He|Hne]; [now apply Hnil|].
  destruct (in_dec (list_eq_dec Z.eq_dec) t (hist_entries m)) as [Hi|Hni];
    [now apply Hin|].
  destruct (Nat.eqb_spec (length (hist_entries m))
              (Z.to_nat (CONSOLE_HISTORY_SIZE cfg))) as [Hf|Hr].
  - now apply Hfull.
  - apply Hroom; try assumption. lia.
Qed.

Lemma console_hist_add_entries_witness :
  exists (buf : list Z) (len : Z) (m' : hist_mem),
    trim_whitespace [32; 108; 115; 32; 0; 9] 8 (repeat 7 8) = Some (buf, len)
    /\ console_hist_add small_console (repeat 7 8) [32; 108; 115; 32; 0; 9]
         (console_hist_init small_console) = Some m'
    /\ hist_entries m'
       = if list_eq_dec Z.eq_dec (c_string buf) []
         then hist_entries (console_hist_init small_console)
         else if in_dec (list_eq_dec Z.eq_dec) (c_string buf)
                   (hist_entries (console_hist_init small_console))
         then remove (list_eq_dec Z.eq_dec) (c_string buf)
                (hist_entries (console_hist_init small_console))
                ++ [c_string buf]
         else (if (length (hist_entries (console_hist_init small_console))
                   =? 3)%nat
               then List.tl (hist_entries (console_hist_init small_console))
               else hist_entries (console_hist_init small_console))
                ++ [c_string buf].
Proof.
  exact (console_hist_add_entries small_console
           (console_hist_init small_console) (repeat 7 8) [32; 108; 115; 32]
           [9]
           (proj1 (console_hist_init_ok small_console ltac:(cbn; lia)
                     ltac:(cbn; lia)))
           ltac:(repeat constructor; discriminate) eq_refl).
Defined.

(** X9.  Adding the same line twice in a row leaves the history as after
    the first time. *)
Theorem console_hist_add_twice (cfg : syscfg) (m : hist_mem)
    (buf0 buf1 s rest : list Z) :
  hist_inv cfg m ->
  Forall (fun c => c <> 0) s ->
  Z.of_nat (length buf0) = CONSOLE_MAX_INPUT_LEN cfg ->
  Z.of_nat (length buf1) = CONSOLE_MAX_INPUT_LEN cfg ->
  exists m1 m2 : hist_mem,
    console_hist_add cfg buf0 (s ++ 0 :: rest) m = Some m1
    /\ console_hist_add cfg buf1 (s ++ 0 :: rest) m1 = Some m2
    /\ hist_entries m2 = hist_entries m1.
Proof.
  intros Hinv Hs Hbuf0 Hbuf1.
  destruct (hist_entries_length cfg m Hinv) as [Hlen Hcn].
  destruct (console_hist_add_core cfg m s rest Hinv Hs) as [t [Ht Hadd]].
  destruct (Hadd buf0 Hbuf0)
    as [Htrim [m1 [Hm1 [Hinv1 [_ [Hnil [Hin [Hroom Hfull]]]]]]]].
  destruct (console_hist_add_core cfg m1 s rest Hinv1 Hs) as [t' [Ht' Hadd']].
  destruct (Hadd' buf1 Hbuf1)
    as [_ [m2 [Hm2 [Hinv2 [_ [Hnil' [Hin' _]]]]]]].
  assert (t' = t) as ->.
  { destruct (Hadd' buf0 Hbuf0) as [Htrim' _]. rewrite Htrim in Htrim'.
    injection Htrim' as Hbuf Hl.
    apply (f_equal (firstn (length t))) in Hbuf.
    rewrite firstn_length_app in Hbuf.
    replace (length t) with (length t') in Hbuf by lia.
    now rewrite firstn_length_app in Hbuf. }
  exists m1, m2. split; [exact Hm1|]. split; [exact Hm2|].
  destruct (list_eq_dec Z.eq_dec t []) as [He|Hne]; [now apply Hnil'|].
  assert (exists x, hist_entries m1 = x ++ [t]) as [x Hx].
  { destruct (in_dec (list_eq_dec Z.eq_dec) t (hist_entries m)) as [Hi|Hni].
    - eexists. now apply Hin.
    - destruct (Nat.eq_dec (length (hist_entries m))
                  (Z.to_nat (CONSOLE_HISTORY_SIZE cfg))) as [Hf|Hr].
      + eexists. now apply Hfull.
      + eexists. apply Hroom; try assumption. lia. }
  assert (NoDup (hist_entries m1)) as Hnd by apply Hinv1.
  rewrite Hx in Hnd.
  pose proof (NoDup_remove_2 _ _ _ Hnd) as Hnotin. rewrite app_nil_r in Hnotin.
  rewrite Hin' by (rewrite Hx; apply in_elt).
  rewrite Hx, remove_app, notin_remove by exact Hnotin.
  cbn [remove]. destruct (list_eq_dec Z.eq_dec t t); [|contradiction].
  now rewrite app_nil_r.
Qed.

Lemma console_hist_add_twice_witness :
  exists m1 m2 : hist_mem,
    console_hist_add small_console (repeat 7 8) [108; 115; 0]
      (console_hist_init small_console) = Some m1
    /\ console_hist_add small_console (repeat 9 8) [108; 115; 0] m1 = Some m2
    /\ hist_entries m2 = hist_entries m1.
Proof.
  exact (console_hist_add_twice small_console
           (console_hist_init small_console) (repeat 7 8) (repeat 9 8)
           [108; 115] []
           (proj1 (console_hist_init_ok small_console ltac:(cbn; lia)
                     ltac:(cbn; lia)))
           ltac:(repeat constructor; discriminate) eq_refl eq_refl).
Defined.

(** The fields of a state built by the setters. *)
Ltac console_fields :=
  cbn [
    g_console_silence g_is_output_nlip console_is_midline holding_lf
    prompt_has_focus terminal_size_requested max_row console_prompt
    prompt_len esc_state ansi_val ansi_val_2 echo cur trailing_chars
    input_line history output set_console_is_midline set_holding_lf
    set_terminal_size_requested set_max_row set_esc_state set_ansi_val
    set_ansi_val_2 set_echo set_cur set_trailing_chars set_input_line
    set_history set_output
    out_nolock console_out_nolock fst snd].

Tactic Notation "console_fields" "in" hyp(H) :=
  cbn [
    g_console_silence g_is_output_nlip console_is_midline holding_lf
    prompt_has_focus terminal_size_requested max_row console_prompt
    prompt_len esc_state ansi_val ansi_val_2 echo cur trailing_chars
    input_line history output set_console_is_midline set_holding_lf
    set_terminal_size_requested set_max_row set_esc_state set_ansi_val
    set_ansi_val_2 set_echo set_cur set_trailing_chars set_input_line
    set_history set_output
    out_nolock console_out_nolock fst snd] in H.

(** Two states built by the setters from the same state are equal when
    their fields are. *)
Ltac console_ext c :=
  destruct c;
  cbv beta iota zeta delta [
    g_console_silence g_is_output_nlip console_is_midline holding_lf
    prompt_has_focus terminal_size_requested max_row console_prompt
    prompt_len esc_state ansi_val ansi_val_2 echo cur trailing_chars
    input_line history output set_console_is_midline set_holding_lf
    set_terminal_size_requested set_max_row set_esc_state set_ansi_val
    set_ansi_val_2 set_echo set_cur set_trailing_chars set_input_line
    set_history set_output
    out_nolock console_out_nolock fst snd];
  f_equal.

(** ** Output with the last line feed held back *)







(** ** Editing the line *)

Lemma nth_error_here {A : Type} (pre post : list A) (x : A) :
  nth_error (pre ++ x :: post) (length pre) = Some x.
Proof.
  rewrite nth_error_app2 by lia. now rewrite Nat.sub_diag.
Qed.

Lemma insert_shift_spec (echo_on : bool) (xs : list Z) :
  forall (pre post : list Z) (tmp : Z) (o : list Z),
    insert_shift (length xs) echo_on (pre ++ xs ++ post) (length pre) tmp o
    = Some (pre ++ removelast (tmp :: xs) ++ post,
            o ++ (if echo_on then removelast (tmp :: xs) else [])).
Proof.
  induction xs as [|x xs IH]; intros pre post tmp o.
  - cbn [length insert_shift removelast app].
    destruct echo_on; now rewrite app_nil_r.
  - cbn [length insert_shift]. cbn [app].
    rewrite nth_error_here, buf_store_some.
    replace (pre ++ tmp :: xs ++ post) with ((pre ++ [tmp]) ++ xs ++ post)
      by (now rewrite <- app_assoc).
    replace (S (length pre)) with (length (pre ++ [tmp]))
      by (rewrite length_app; cbn [length]; lia).
    rewrite IH.
    change (removelast (tmp :: x :: xs)) with (tmp :: removelast (x :: xs)).
    rewrite <- !app_assoc. cbn [app console_out_nolock snd].
    destruct echo_on; now rewrite <- ?app_assoc.
Qed.

Lemma del_shift_spec (xs : list Z) :
  forall (pre post : list Z) (x : Z) (o : list Z),
    del_shift (length xs) (pre ++ x :: xs ++ post) (length pre) o
    = Some (pre ++ xs ++ last xs x :: post, o ++ xs).
Proof.
  induction xs as [|y xs IH]; intros pre post x o.
  - cbn [length del_shift app last]. now rewrite app_nil_r.
  - cbn [length del_shift]. cbn [app].
    replace (pre ++ x :: y :: xs ++ post)
      with ((pre ++ [x]) ++ y :: xs ++ post) by (now rewrite <- app_assoc).
    replace (S (length pre)) with (length (pre ++ [x])) at 1
      by (rewrite length_app; cbn [length]; lia).
    rewrite nth_error_here. rewrite <- app_assoc. cbn [app].
    rewrite buf_store_some.
    rewrite (nth_here pre (y :: xs ++ post) y 0).
    replace (pre ++ y :: y :: xs ++ post)
      with ((pre ++ [y]) ++ y :: xs ++ post) by (now rewrite <- app_assoc).
    replace (S (length pre)) with (length (pre ++ [y]))
      by (rewrite length_app; cbn [length]; lia).
    rewrite IH. rewrite last_cons_default.
    cbn [console_out_nolock snd]. now rewrite <- !app_assoc.
Qed.

Lemma move_backward_spec (count : Z) (c : console) :
  0 <= count < 2 ^ 32 ->
  move_backward count c
  = Some (set_output c (output c ++ cursor_move count 68)).
Proof.
  intros Hc. unfold move_backward, cursor_backward, cursor_move.
  destruct (Z.eqb_spec count 0).
  - cbn [option_map]. now rewrite app_nil_r.
  - rewrite one_number_seq by (try assumption; discriminate). reflexivity.
Qed.

Lemma move_forward_spec (count : Z) (c : console) :
  0 <= count < 2 ^ 32 ->
  move_forward count c
  = Some (set_output c (output c ++ cursor_move count 67)).
Proof.
  intros Hc. unfold move_forward, cursor_forward, cursor_move.
  destruct (Z.eqb_spec count 0).
  - cbn [option_map]. now rewrite app_nil_r.
  - rewrite one_number_seq by (try assumption; discriminate). reflexivity.
Qed.

Lemma u16_small (v : Z) : 0 <= v < 65536 -> u16 v = v.
Proof. intros H. unfold u16. now apply Z.mod_small. Qed.

Lemma insert_char_form (cfg : syscfg) (c : console)
    (before after rest : list Z) (r0 ch : Z) :
  input_line c = before ++ after ++ r0 :: rest ->
  cur c = Z.of_nat (length before) ->
  trailing_chars c = Z.of_nat (length after) ->
  cur c + trailing_chars c < CONSOLE_MAX_INPUT_LEN cfg - 1 ->
  CONSOLE_MAX_INPUT_LEN cfg <= 65536 ->
  insert_char cfg (length before) ch c
  = Some (set_output
            (set_input_line (set_cur c (cur c + 1))
               (before ++ ch :: after ++ rest))
            (output c
               ++ (if echo c =? 0 then []
                   else ch :: after ++ cursor_move (trailing_chars c) 68))).
Proof.
  intros Hline Hcur Htr Hroom Hmax. unfold insert_char.
  destruct (Z.geb_spec (cur c + trailing_chars c)
              (CONSOLE_MAX_INPUT_LEN cfg - 1)) as [Hfull|_]; [lia|].
  assert (u16 (cur c + 1) = cur c + 1) as Hu by (apply u16_small; lia).
  destruct after as [|a0 after].
  - cbn [length Z.of_nat] in Htr. rewrite Htr. cbn [Z.eqb app] in *.
    unfold cursor_move. cbn [Z.eqb app].
    destruct (echo c =? 0) eqn:He; cbn [negb]; console_fields;
      rewrite Hu, Hline, buf_store_some; cbn [option_map];
      now rewrite ?app_nil_r.
  - destruct (Z.eqb_spec (trailing_chars c) 0) as [Hz|_];
      [cbn [length] in Htr; lia|].
    assert (exists xs, a0 :: after ++ [r0] = a0 :: xs
                       /\ length xs = Z.to_nat (trailing_chars c)
                       /\ removelast (a0 :: xs) = a0 :: after) as Hxs.
    { exists (after ++ [r0]). split; [reflexivity|]. split.
      - rewrite length_app. cbn [length] in *. lia.
      - change (a0 :: after ++ [r0]) with ((a0 :: after) ++ [r0]).
        apply removelast_last. }
    destruct Hxs as [xs [Hxs [Hlen Hrm]]].
    injection Hxs as Hxs.
    assert (input_line c = before ++ a0 :: xs ++ rest) as Hline'.
    { rewrite Hline, <- Hxs. cbn [app]. now rewrite <- app_assoc. }
    pose proof (move_backward_spec (trailing_chars c)) as Hback.
    destruct (echo c =? 0) eqn:He; cbn [negb]; console_fields;
      rewrite Hu, Hline', nth_error_here, buf_store_some;
      (replace (before ++ ch :: xs ++ rest)
         with ((before ++ [ch]) ++ xs ++ rest)
         by (now rewrite <- app_assoc));
      (replace (S (length before)) with (length (before ++ [ch]))
         by (rewrite length_app; cbn [length]; lia));
      rewrite <- Hlen, insert_shift_spec, Hrm.
    + now rewrite <- app_assoc.
    + rewrite Hback by lia. f_equal. clear.
      console_ext c; rewrite <- ?app_assoc; reflexivity.
Qed.

Lemma line_ok_spec (cfg : syscfg) (c : console) :
  line_ok cfg c = true <->
  0 <= cur c /\ 0 <= trailing_chars c
  /\ cur c + trailing_chars c <= CONSOLE_MAX_INPUT_LEN cfg - 1
  /\ CONSOLE_MAX_INPUT_LEN cfg <= Z.of_nat (length (input_line c))
  /\ CONSOLE_MAX_INPUT_LEN cfg <= 65536.
Proof.
  unfold line_ok. rewrite !andb_true_iff, !Z.leb_le. tauto.
Qed.

(** The line as the characters before the cursor, those after it and the
    rest of the array. *)
Lemma line_split (cfg : syscfg) (c : console) :
  line_ok cfg c = true ->
  exists before after rest : list Z,
    input_line c = before ++ after ++ rest
    /\ cur c = Z.of_nat (length before)
    /\ trailing_chars c = Z.of_nat (length after)
    /\ line_text c = before ++ after
    /\ rest <> [].
Proof.
  intros Hok. apply line_ok_spec in Hok.
  destruct Hok as [Hcur [Htr [Hsum [Hlen Hmax]]]].
  set (l := input_line c) in *.
  exists (firstn (Z.to_nat (cur c)) l),
         (firstn (Z.to_nat (trailing_chars c)) (skipn (Z.to_nat (cur c)) l)),
         (skipn (Z.to_nat (trailing_chars c)) (skipn (Z.to_nat (cur c)) l)).
  split; [now rewrite !firstn_skipn|].
  split; [rewrite length_firstn; lia|].
  split; [rewrite length_firstn, length_skipn; lia|].
  split.
  - unfold line_text. fold l.
    rewrite <- (firstn_skipn (Z.to_nat (cur c)) l) at 1.
    rewrite firstn_app, length_firstn.
    rewrite firstn_all2 by (rewrite length_firstn; lia).
    do 2 f_equal. lia.
  - intros Hnil. apply (f_equal (@length Z)) in Hnil.
    rewrite !length_skipn in Hnil. cbn [length] in Hnil. lia.
Qed.

Lemma line_text_of (c : console) (before after rest : list Z) :
  input_line c = before ++ after ++ rest ->
  cur c = Z.of_nat (length before) ->
  trailing_chars c = Z.of_nat (length after) ->
  line_text c = before ++ after.
Proof.
  intros Hl Hc Ht. unfold line_text. rewrite Hl, Hc, Ht, app_assoc.
  replace (Z.to_nat (Z.of_nat (length before) + Z.of_nat (length after)))
    with (length (before ++ after)) by (rewrite length_app; lia).
  apply firstn_length_app.
Qed.

(** X11.  [insert_char] at the cursor of a line with room for one more
    character puts the character before the characters after the cursor,
    moves the cursor one place and, with [echo], sends the character, the
    characters after it and the sequence that moves the cursor back over
    them; no character of the array is read or written past the place
    before the last.  On a full line nothing happens. *)
Theorem insert_char_spec (cfg : syscfg) (c : console) (ch : Z) :
  line_ok cfg c = true ->
  exists c' : console,
    insert_char cfg (Z.to_nat (cur c)) ch c = Some c'
    /\ line_ok cfg c' = true
    /\ if cur c + trailing_chars c <? CONSOLE_MAX_INPUT_LEN cfg - 1 then
         line_text c'
         = firstn (Z.to_nat (cur c)) (line_text c)
             ++ ch :: skipn (Z.to_nat (cur c)) (line_text c)
         /\ cur c' = cur c + 1
         /\ trailing_chars c' = trailing_chars c
         /\ output c'
            = output c
                ++ (if echo c =? 0 then []
                    else ch :: skipn (Z.to_nat (cur c)) (line_text c)
                           ++ cursor_move (trailing_chars c) 68)
         /\ nth (Z.to_nat (CONSOLE_MAX_INPUT_LEN cfg - 1)) (input_line c') 0
            = nth (Z.to_nat (CONSOLE_MAX_INPUT_LEN cfg - 1)) (input_line c) 0
       else c' = c.
Proof.
  intros Hok.
  destruct (line_split cfg c Hok)
    as [before [after [rest [Hline [Hcur [Htr [Htext Hrest]]]]]]].
  pose proof (proj1 (line_ok_spec cfg c) Hok) as [_ [_ [Hsum [Hlen Hmax]]]].
  destruct (Z.ltb_spec (cur c + trailing_chars c)
              (CONSOLE_MAX_INPUT_LEN cfg - 1)) as [Hroom|Hfull].
  - destruct rest as [|r0 rest]; [contradiction|].
    replace (Z.to_nat (cur c)) with (length before) by lia.
    rewrite (insert_char_form cfg c before after rest r0 ch Hline Hcur Htr
               Hroom Hmax).
    eexists. split; [reflexivity|].
    assert (length (input_line c)
            = (length before + (length after + S (length rest)))%nat) as Hl
      by (rewrite Hline, !length_app; reflexivity).
    split.
    { apply line_ok_spec. console_fields.
      rewrite !length_app. cbn [length]. rewrite length_app. lia. }
    rewrite (line_text_of _ (before ++ [ch]) after rest).
    2: { console_fields. now rewrite <- app_assoc. }
    2: { console_fields. rewrite length_app. cbn [length]. lia. }
    2: { console_fields. exact Htr. }
    rewrite Htext.
    rewrite firstn_length_app.
    rewrite skipn_app, Nat.sub_diag, skipn_all. cbn [skipn app].
    console_fields.
    split; [now rewrite <- app_assoc|].
    split; [reflexivity|]. split; [reflexivity|]. split; [reflexivity|].
    rewrite Hline.
    assert (Z.to_nat (CONSOLE_MAX_INPUT_LEN cfg - 1)
            = (length before + S (length after)
               + (Z.to_nat (CONSOLE_MAX_INPUT_LEN cfg - 1)
                  - length before - S (length after)))%nat) as Hidx by lia.
    rewrite Hidx.
    replace (before ++ ch :: after ++ rest)
      with ((before ++ ch :: after) ++ rest)
      by (now rewrite <- app_assoc).
    replace (before ++ after ++ r0 :: rest)
      with ((before ++ after ++ [r0]) ++ rest)
      by (now rewrite <- !app_assoc).
    rewrite !app_nth2 by (rewrite !length_app; cbn [length];
                          rewrite ?length_app; cbn [length]; lia).
    f_equal. rewrite !length_app. cbn [length]. lia.
  - exists c. unfold insert_char.
    destruct (Z.geb_spec (cur c + trailing_chars c)
                (CONSOLE_MAX_INPUT_LEN cfg - 1)); [|lia].
    now repeat split.
Qed.

Lemma insert_char_spec_witness :
  exists c' : console,
    insert_char small_console 2 120 sample_console = Some c'
    /\ line_ok small_console c' = true
    /\ line_text c' = [104; 105; 120; 33]
    /\ cur c' = 3
    /\ trailing_chars c' = 1
    /\ output c' = [120; 33] ++ cursor_move 1 68
    /\ nth 7 (input_line c') 0 = 0.
Proof.
  exact (insert_char_spec small_console sample_console 120 eq_refl).
Defined.

Lemma del_char_form (c : console) (before after rest : list Z) (x : Z) :
  input_line c = before ++ x :: after ++ rest ->
  trailing_chars c = Z.of_nat (S (length after)) ->
  trailing_chars c < 65536 ->
  del_char (length before) c
  = Some (set_trailing_chars
            (set_output
               (set_input_line c (before ++ after ++ last after x :: rest))
               (output c ++ after ++ 32 :: cursor_move (trailing_chars c) 68))
            (trailing_chars c - 1)).
Proof.
  intros Hline Htr Hmax. unfold del_char.
  replace (Z.to_nat (trailing_chars c - 1)) with (length after) by lia.
  rewrite Hline, del_shift_spec. console_fields.
  destruct (Z.eqb_spec (trailing_chars c) 0) as [Hz|_]; [lia|].
  rewrite move_backward_spec by (console_fields; lia).
  console_fields. rewrite u16_small by lia.
  f_equal. clear. console_ext c; rewrite <- ?app_assoc; reflexivity.
Qed.

Lemma del_char_none (pos : nat) (c : console) :
  trailing_chars c = 0 -> del_char pos c = Some c.
Proof.
  intros Hz. unfold del_char. rewrite Hz. cbn [Z.sub Z.to_nat del_shift Z.opp Z.add Z.pos_sub].
  console_fields. rewrite Hz. cbn [Z.eqb]. f_equal. clear.
  console_ext c; reflexivity.
Qed.

(** X12.  [handle_delete] removes the character at the cursor: the
    characters after it move one place towards it, they are sent to the
    terminal followed by a space and the sequence that moves the cursor
    back, whether [echo] is set or not, and [trailing_chars] goes down by
    one; no character is read or written outside the line.  With the
    cursor at the end of the line nothing happens. *)
Theorem handle_delete_spec (cfg : syscfg) (c : console) :
  line_ok cfg c = true ->
  exists c' : console,
    handle_delete c = Some c'
    /\ line_ok cfg c' = true
    /\ cur c' = cur c
    /\ if trailing_chars c =? 0 then c' = c
       else
         line_text c'
         = firstn (Z.to_nat (cur c)) (line_text c)
             ++ skipn (S (Z.to_nat (cur c))) (line_text c)
         /\ trailing_chars c' = trailing_chars c - 1
         /\ output c'
            = output c ++ skipn (S (Z.to_nat (cur c))) (line_text c)
                ++ 32 :: cursor_move (trailing_chars c) 68.
Proof.
  intros Hok.
  destruct (line_split cfg c Hok)
    as [before [after [rest [Hline [Hcur [Htr [Htext Hrest]]]]]]].
  pose proof (proj1 (line_ok_spec cfg c) Hok) as [_ [_ [Hsum [Hlen Hmax]]]].
  unfold handle_delete.
  destruct (Z.eqb_spec (trailing_chars c) 0) as [Hz|Hnz].
  - exists c. now repeat split.
  - destruct after as [|x after]; [cbn [length] in Htr; lia|].
    replace (Z.to_nat (cur c)) with (length before) by lia.
    cbn [app] in Hline.
    rewrite (del_char_form c before after rest x Hline Htr ltac:(lia)).
    eexists. split; [reflexivity|].
    assert (length (input_line c)
            = (length before + S (length after + length rest))%nat) as Hl
      by (rewrite Hline, !length_app; cbn [length];
          rewrite length_app; reflexivity).
    split.
    { apply line_ok_spec. console_fields.
      rewrite !length_app. cbn [length]. lia. }
    split; [reflexivity|].
    rewrite (line_text_of _ before after (last after x :: rest));
      [|reflexivity|exact Hcur|console_fields; cbn [length] in Htr; lia].
    rewrite Htext. rewrite firstn_length_app.
    replace (S (length before)) with (length (before ++ [x]))
      by (rewrite length_app; cbn [length]; lia).
    replace (before ++ x :: after) with ((before ++ [x]) ++ after)
      by (now rewrite <- app_assoc).
    rewrite skipn_app, Nat.sub_diag, skipn_all. cbn [skipn app].
    console_fields. now repeat split.
Qed.

Lemma handle_delete_spec_witness :
  exists c' : console,
    handle_delete sample_console = Some c'
    /\ line_ok small_console c' = true
    /\ cur c' = 2
    /\ line_text c' = [104; 105]
    /\ trailing_chars c' = 0
    /\ output c' = 32 :: cursor_move 1 68.
Proof.
  exact (handle_delete_spec small_console sample_console eq_refl).
Defined.

Lemma handle_home_form (c : console) :
  0 <= cur c -> 0 <= trailing_chars c ->
  cur c + trailing_chars c < 65536 ->
  handle_home c
  = Some (set_cur
            (set_trailing_chars
               (set_output c (output c ++ cursor_move (cur c) 68))
               (trailing_chars c + cur c))
            0).
Proof.
  intros Hc Ht Hsum. unfold handle_home.
  destruct (Z.eqb_spec (cur c) 0) as [Hz|Hnz].
  - f_equal. unfold cursor_move. rewrite Hz. cbn [Z.eqb].
    rewrite Z.add_0_r, app_nil_r. clear Hc Ht Hsum. revert Hz.
    destruct c. console_fields. intros ->. reflexivity.
  - rewrite move_backward_spec by lia. console_fields.
    now rewrite u16_small by lia.
Qed.

Lemma handle_end_form (c : console) :
  0 <= cur c -> 0 <= trailing_chars c ->
  cur c + trailing_chars c < 65536 ->
  handle_end c
  = Some (set_trailing_chars
            (set_cur
               (set_output c (output c ++ cursor_move (trailing_chars c) 67))
               (cur c + trailing_chars c))
            0).
Proof.
  intros Hc Ht Hsum. unfold handle_end.
  destruct (Z.eqb_spec (trailing_chars c) 0) as [Hz|Hnz].
  - f_equal. unfold cursor_move. rewrite Hz. cbn [Z.eqb].
    rewrite Z.add_0_r, app_nil_r. clear Hc Ht Hsum. revert Hz.
    destruct c. console_fields. intros ->. reflexivity.
  - rewrite move_forward_spec by lia. console_fields.
    now rewrite u16_small by lia.
Qed.

(** X13.  [handle_home] and [handle_end] leave the line as it is and move
    the cursor to its start and to its end: the one sends
    [CSI <cur> D], the other [CSI <trailing_chars> C] (nothing when the
    cursor is there already), and [cur + trailing_chars] is kept. *)
Theorem handle_home_end_spec (cfg : syscfg) (c : console) :
  line_ok cfg c = true ->
  exists c1 c2 : console,
    handle_home c = Some c1 /\ handle_end c = Some c2
    /\ line_ok cfg c1 = true /\ line_ok cfg c2 = true
    /\ line_text c1 = line_text c /\ line_text c2 = line_text c
    /\ cur c1 = 0 /\ trailing_chars c1 = cur c + trailing_chars c
    /\ cur c2 = cur c + trailing_chars c /\ trailing_chars c2 = 0
    /\ output c1 = output c ++ cursor_move (cur c) 68
    /\ output c2 = output c ++ cursor_move (trailing_chars c) 67.
Proof.
  intros Hok.
  pose proof (proj1 (line_ok_spec cfg c) Hok)
    as [Hcur [Htr [Hsum [Hlen Hmax]]]].
  rewrite handle_home_form, handle_end_form by lia.
  eexists. eexists. split; [reflexivity|]. split; [reflexivity|].
  split; [apply line_ok_spec; console_fields; lia|].
  split; [apply line_ok_spec; console_fields; lia|].
  unfold line_text. console_fields.
  rewrite Z.add_0_l, Z.add_0_r, (Z.add_comm (trailing_chars c)).
  now repeat split.
Qed.

Lemma handle_home_end_spec_witness :
  exists c1 c2 : console,
    handle_home sample_console = Some c1
    /\ handle_end sample_console = Some c2
    /\ line_ok small_console c1 = true /\ line_ok small_console c2 = true
    /\ line_text c1 = [104; 105; 33] /\ line_text c2 = [104; 105; 33]
    /\ cur c1 = 0 /\ trailing_chars c1 = 3
    /\ cur c2 = 3 /\ trailing_chars c2 = 0
    /\ output c1 = cursor_move 2 68
    /\ output c2 = cursor_move 1 67.
Proof.
  exact (handle_home_end_spec small_console sample_console eq_refl).
Defined.

(** ** Escape sequences received *)

Lemma u32_fits (v : Z) : 0 <= v < 2 ^ 32 -> u32 v = v.
Proof. intros H. unfold u32. now apply Z.mod_small. Qed.

Lemma digits_value_ge (ds : list Z) :
  Forall (fun d => 48 <= d <= 57) ds ->
  forall acc : Z,
    0 <= acc ->
    acc <= fold_left (fun a d => 10 * a + (d - 48)) ds acc.
Proof.
  induction 1 as [|d ds Hd _ IH]; intros acc Hacc; [cbn; lia|].
  cbn [fold_left]. specialize (IH (10 * acc + (d - 48)) ltac:(lia)). lia.
Qed.

Lemma handle_ansi_bytes_app (cfg : syscfg) (a b : list Z) :
  forall c : console,
    handle_ansi_bytes cfg (a ++ b) c
    = match handle_ansi_bytes cfg a c with
      | None => None
      | Some c' => handle_ansi_bytes cfg b c'
      end.
Proof.
  induction a as [|x a IH]; intros c; [reflexivity|].
  cbn [app handle_ansi_bytes].
  destruct (Z.land (esc_state c) ESC_ANSI =? 0) eqn:E.
  - destruct b; [reflexivity|]. cbn [handle_ansi_bytes]. now rewrite E.
  - destruct (handle_ansi cfg x c); [apply IH|reflexivity].
Qed.

(** The digits after the first one. *)
Lemma handle_ansi_digits (cfg : syscfg) (ds : list Z) :
  Forall (fun d => 48 <= d <= 57) ds ->
  forall c : console,
    esc_state c = Z.lor ESC_ANSI ESC_ANSI_VAL ->
    0 <= ansi_val c ->
    fold_left (fun a d => 10 * a + (d - 48)) ds (ansi_val c) < 2 ^ 32 ->
    handle_ansi_bytes cfg ds c
    = Some (set_ansi_val c
              (fold_left (fun a d => 10 * a + (d - 48)) ds (ansi_val c))).
Proof.
  induction 1 as [|d ds Hd Hds IH]; intros c Hesc Hval Hfit.
  - cbn [handle_ansi_bytes fold_left]. f_equal. clear.
    console_ext c; reflexivity.
  - cbn [handle_ansi_bytes fold_left] in *.
    pose proof (digits_value_ge ds Hds (10 * ansi_val c + (d - 48))
                  ltac:(lia)) as Hge.
    unfold handle_ansi. rewrite Hesc.
    change (Z.land (Z.lor ESC_ANSI ESC_ANSI_VAL) ESC_ANSI =? 0) with false.
    change (Z.land (Z.lor ESC_ANSI ESC_ANSI_VAL) ESC_ANSI_FIRST =? 0)
      with true.
    change (Z.land (Z.lor ESC_ANSI ESC_ANSI_VAL) ESC_ANSI_VAL =? 0)
      with false.
    change (Z.land (Z.lor ESC_ANSI ESC_ANSI_VAL) ESC_ANSI_VAL_2 =? 0)
      with true.
    cbn [negb].
    assert (isdigit d = true) as ->
      by (unfold isdigit; apply andb_true_iff; split; apply Z.leb_le; lia).
    rewrite (u32_fits (ansi_val c * 10)) by lia.
    rewrite u32_fits by lia.
    replace (ansi_val c * 10 + (d - 48)) with (10 * ansi_val c + (d - 48))
      by lia.
    rewrite IH; console_fields; try assumption; try lia.
    apply f_equal. clear. console_ext c; reflexivity.
Qed.

(** A number after [ESC \[]: its first digit and the others. *)
Lemma handle_ansi_number (cfg : syscfg) (n : Z) (c : console) :
  0 <= n < 2 ^ 32 ->
  esc_state c = Z.lor ESC_ANSI ESC_ANSI_FIRST ->
  handle_ansi_bytes cfg (decimal n) c
  = Some (set_ansi_val_2
            (set_ansi_val
               (set_esc_state c (Z.lor ESC_ANSI ESC_ANSI_VAL)) n) 0).
Proof.
  intros Hn Hesc.
  destruct (decimal_spec n Hn) as [Hvalue [Hdigits [Hlen _]]].
  destruct (decimal n) as [|d0 ds]; [cbn [length] in Hlen; lia|].
  apply Forall_cons_iff in Hdigits. destruct Hdigits as [Hd0 Hds].
  unfold decimal_value in Hvalue. cbn [fold_left] in Hvalue.
  cbn [handle_ansi_bytes]. unfold handle_ansi at 1. rewrite Hesc.
  change (Z.land (Z.lor ESC_ANSI ESC_ANSI_FIRST) ESC_ANSI =? 0) with false.
  change (Z.land (Z.lor ESC_ANSI ESC_ANSI_FIRST) ESC_ANSI_FIRST =? 0)
    with false.
  cbn [negb].
  assert (isdigit d0 = true) as ->
    by (unfold isdigit; apply andb_true_iff; split; apply Z.leb_le; lia).
  cbn [negb]. console_fields.
  change (Z.lor (Z.land (Z.lor ESC_ANSI ESC_ANSI_FIRST)
                   (Z.lnot ESC_ANSI_FIRST)) ESC_ANSI_VAL)
    with (Z.lor ESC_ANSI ESC_ANSI_VAL).
  rewrite u32_fits by lia.
  rewrite handle_ansi_digits; console_fields; try assumption;
    try reflexivity; try lia.
  - replace (10 * 0 + (d0 - 48)) with (d0 - 48) in Hvalue by lia.
    rewrite Hvalue. apply f_equal. clear. console_ext c; reflexivity.
  - replace (10 * 0 + (d0 - 48)) with (d0 - 48) in Hvalue by lia.
    rewrite Hvalue. lia.
Qed.

(** The byte that ends a sequence with a number. *)
Lemma handle_ansi_command (cfg : syscfg) (byte : Z) (c : console) :
  esc_state c = Z.lor ESC_ANSI ESC_ANSI_VAL ->
  isdigit byte = false ->
  byte <> 59 ->
  handle_ansi cfg byte c = ansi_cmd cfg byte (set_esc_state c ESC_ANSI).
Proof.
  intros Hesc Hd Hsemi. unfold handle_ansi. rewrite Hesc, Hd.
  change (Z.land (Z.lor ESC_ANSI ESC_ANSI_VAL) ESC_ANSI_FIRST =? 0) with true.
  change (Z.land (Z.lor ESC_ANSI ESC_ANSI_VAL) ESC_ANSI_VAL =? 0) with false.
  cbn [negb]. destruct (Z.eqb_spec byte 59); [contradiction|].
  cbn [andb]. console_fields. reflexivity.
Qed.

Lemma ansi_forward_form (cfg : syscfg) (c : console) :
  0 <= cur c -> 0 <= ansi_val c <= trailing_chars c ->
  cur c + trailing_chars c < 65536 ->
  esc_state c = ESC_ANSI ->
  ansi_cmd cfg ANSI_FORWARD c
  = Some (set_esc_state
            (set_output
               (set_cur
                  (set_trailing_chars c (trailing_chars c - ansi_val c))
                  (cur c + ansi_val c))
               (output c ++ cursor_move (ansi_val c) 67))
            0).
Proof.
  intros Hcur Hval Hsum Hesc. unfold ansi_cmd.
  change ((ANSI_FORWARD =? ANSI_UP) || (ANSI_FORWARD =? ANSI_DOWN)) with false.
  change (ANSI_FORWARD =? ANSI_BACKWARD) with false.
  change (ANSI_FORWARD =? ANSI_FORWARD) with true.
  cbn [andb]. destruct (Z.gtb_spec (ansi_val c) (trailing_chars c)); [lia|].
  console_fields. rewrite !u16_small by lia.
  rewrite move_forward_spec by (console_fields; lia).
  cbn [option_map]. console_fields. rewrite Hesc. reflexivity.
Qed.

Lemma ansi_backward_form (cfg : syscfg) (c : console) :
  0 <= trailing_chars c -> 0 <= ansi_val c <= cur c ->
  cur c + trailing_chars c < 65536 ->
  esc_state c = ESC_ANSI ->
  ansi_cmd cfg ANSI_BACKWARD c
  = Some (set_esc_state
            (set_output
               (set_cur
                  (set_trailing_chars c (trailing_chars c + ansi_val c))
                  (cur c - ansi_val c))
               (output c ++ cursor_move (ansi_val c) 68))
            0).
Proof.
  intros Htr Hval Hsum Hesc. unfold ansi_cmd.
  change ((ANSI_BACKWARD =? ANSI_UP) || (ANSI_BACKWARD =? ANSI_DOWN))
    with false.
  change (ANSI_BACKWARD =? ANSI_BACKWARD) with true.
  cbn [andb]. destruct (Z.gtb_spec (ansi_val c) (cur c)); [lia|].
  console_fields. rewrite !u16_small by lia.
  rewrite move_backward_spec by (console_fields; lia).
  cbn [option_map]. console_fields. rewrite Hesc. reflexivity.
Qed.

(** X14.  The sequences [cursor_forward] and [cursor_backward] send are,
    when they come back as input, the commands that move the cursor:
    after [ESC \[], the bytes of [<n> C] given to [handle_ansi] one by one
    leave [n] in [ansi_val], move the cursor [n] places forward if there
    are [n] characters after it and send [CSI <n> C]; those of [<n> D]
    move it [n] places back if it is at least [n] places from the start.
    The line is kept and the escape state is cleared. *)
Theorem cursor_sequence_read_back (cfg : syscfg) (n : Z) (c : console) :
  line_ok cfg c = true ->
  0 <= n < 2 ^ 32 ->
  esc_state c = Z.lor ESC_ANSI ESC_ANSI_FIRST ->
  (n <= trailing_chars c ->
   exists c' : console,
     handle_ansi_bytes cfg (decimal n ++ [ANSI_FORWARD]) c = Some c'
     /\ line_ok cfg c' = true
     /\ line_text c' = line_text c
     /\ cur c' = cur c + n
     /\ trailing_chars c' = trailing_chars c - n
     /\ output c' = output c ++ cursor_move n ANSI_FORWARD
     /\ ansi_val c' = n
     /\ esc_state c' = 0)
  /\ (n <= cur c ->
      exists c' : console,
        handle_ansi_bytes cfg (decimal n ++ [ANSI_BACKWARD]) c = Some c'
        /\ line_ok cfg c' = true
        /\ line_text c' = line_text c
        /\ cur c' = cur c - n
        /\ trailing_chars c' = trailing_chars c + n
        /\ output c' = output c ++ cursor_move n ANSI_BACKWARD
        /\ ansi_val c' = n
        /\ esc_state c' = 0).
Proof.
  intros Hok Hn Hesc.
  pose proof (proj1 (line_ok_spec cfg c) Hok)
    as [Hcur [Htr [Hsum [Hlen Hmax]]]].
  split; intros Hfits; rewrite handle_ansi_bytes_app;
    rewrite (handle_ansi_number cfg n c Hn Hesc);
    cbn [handle_ansi_bytes]; console_fields;
    change (Z.land (Z.lor ESC_ANSI ESC_ANSI_VAL) ESC_ANSI =? 0) with false;
    rewrite handle_ansi_command by (console_fields; reflexivity || discriminate).
  - rewrite ansi_forward_form by (console_fields; reflexivity || lia).
    eexists. split; [reflexivity|]. console_fields.
    split; [apply line_ok_spec; console_fields; lia|].
    split; [unfold line_text; console_fields; do 2 f_equal; lia|].
    now repeat split.
  - rewrite ansi_backward_form by (console_fields; reflexivity || lia).
    eexists. split; [reflexivity|]. console_fields.
    split; [apply line_ok_spec; console_fields; lia|].
    split; [unfold line_text; console_fields; do 2 f_equal; lia|].
    now repeat split.
Qed.

Lemma cursor_sequence_read_back_witness :
  exists c' : console,
    handle_ansi_bytes small_console (decimal 2 ++ [ANSI_BACKWARD])
      (set_esc_state sample_console 6) = Some c'
    /\ line_ok small_console c' = true
    /\ line_text c' = [104; 105; 33]
    /\ cur c' = 0
    /\ trailing_chars c' = 3
    /\ output c' = cursor_move 2 ANSI_BACKWARD
    /\ ansi_val c' = 2
    /\ esc_state c' = 0.
Proof.
  exact (proj2 (cursor_sequence_read_back small_console 2
                  (set_esc_state sample_console 6) eq_refl ltac:(lia)
                  eq_refl)
           ltac:(cbn; lia)).
Defined.

(** ** Lines recalled from the history *)

Lemma ring_buf_prev_ring_at (tl sz : Z) (j : nat) :
  0 < sz <= 255 -> 0 <= tl < sz ->
  ring_buf_prev (ring_at tl sz (S j)) sz = ring_at tl sz j.
Proof.
  intros Hs Htl. unfold ring_buf_prev, ring_at.
  pose proof (Z.mod_pos_bound (tl + Z.of_nat j) sz ltac:(lia)) as Hy.
  replace (tl + Z.of_nat (S j)) with (tl + Z.of_nat j + 1) by lia.
  rewrite <- Zplus_mod_idemp_l.
  set (y := (tl + Z.of_nat j) mod sz) in *.
  destruct (Z.eq_dec (y + 1) sz) as [He|Hne].
  - rewrite He, Z_mod_same_full. cbn [Z.eqb]. rewrite u8_small by lia. lia.
  - rewrite Z.mod_small by lia.
    destruct (Z.eqb_spec (y + 1) 0); [lia|].
    rewrite u8_small by lia. lia.
Qed.

Lemma console_clear_line_form (c : console) :
  0 <= cur c < 2 ^ 32 ->
  console_clear_line c
  = Some (set_output (set_trailing_chars (set_cur c 0) 0)
            (output c ++ cursor_move (cur c) 68 ++ [ESC; 91; 75])).
Proof.
  intros Hcur. unfold console_clear_line.
  destruct (Z.eqb_spec (cur c) 0) as [Hz|Hnz].
  - unfold cursor_move. rewrite Hz. cbn [Z.eqb app].
    apply f_equal. unfold cursor_clear_line. clear.
    console_ext c; rewrite <- ?app_assoc; reflexivity.
  - rewrite move_backward_spec by lia.
    apply f_equal. unfold cursor_clear_line. clear.
    console_ext c; rewrite <- ?app_assoc; reflexivity.
Qed.

Lemma insert_string_form (cfg : syscfg) (t : list Z) :
  CONSOLE_MAX_INPUT_LEN cfg <= 65536 ->
  Forall (fun x => x <> 0) t ->
  forall (c : console) (before old rest more : list Z),
    input_line c = before ++ old ++ rest ->
    length old = length t ->
    cur c = Z.of_nat (length before) ->
    trailing_chars c = 0 ->
    cur c + Z.of_nat (length t) <= CONSOLE_MAX_INPUT_LEN cfg - 1 ->
    insert_string cfg (t ++ 0 :: more) c
    = Some (set_output
              (set_input_line (set_cur c (cur c + Z.of_nat (length t)))
                 (before ++ t ++ rest))
              (output c ++ (if echo c =? 0 then [] else t))).
Proof.
  intros Hmax. induction 1 as [|x t Hx _ IH];
    intros c before old rest more Hline Hold Hcur Htr Hroom.
  - cbn [app insert_string Z.eqb length Z.of_nat].
    destruct old; [|discriminate]. cbn [app] in Hline.
    rewrite Z.add_0_r, <- Hline. apply f_equal.
    replace (output c ++ (if echo c =? 0 then [] else [])) with (output c)
      by (destruct (echo c =? 0); now rewrite app_nil_r).
    clear. console_ext c; reflexivity.
  - destruct old as [|o0 old]; [discriminate|].
    cbn [app insert_string]. destruct (Z.eqb_spec x 0); [contradiction|].
    cbn [length] in Hold, Hroom.
    replace (Z.to_nat (cur c)) with (length before) by lia.
    rewrite (insert_char_form cfg c before [] (old ++ rest) o0 x Hline Hcur
               Htr ltac:(lia) Hmax).
    cbn [app]. unfold cursor_move. rewrite Htr. cbn [Z.eqb app].
    rewrite (IH _ (before ++ [x]) old rest more).
    + apply f_equal. console_fields. cbn [length]. clear.
      console_ext c; rewrite <- ?app_assoc; try reflexivity; try lia.
      destruct (echo0 =? 0); rewrite <- ?app_assoc; reflexivity.
    + console_fields. now rewrite <- app_assoc.
    + lia.
    + console_fields. rewrite length_app. cbn [length]. lia.
    + console_fields. exact Htr.
    + console_fields. lia.
Qed.

Lemma c_string_split (row : list Z) :
  In 0 row -> row = c_string row ++ 0 :: skipn (S (strlen row)) row.
Proof.
  unfold c_string. induction row as [|x row IH]; intros Hin; [contradiction|].
  cbn [strlen]. destruct (Z.eqb_spec x 0) as [->|Hne]; [reflexivity|].
  destruct Hin as [Hx|Hin]; [congruence|].
  cbn [firstn skipn app]. f_equal. now apply IH.
Qed.

Lemma console_hist_move_up_form (cfg : syscfg) (c : console)
    (es : list (list Z)) (t : list Z) :
  hist_inv cfg (history c) ->
  line_ok cfg c = true ->
  curr (sh (history c)) = head (sh (history c)) ->
  hist_entries (history c) = es ++ [t] ->
  exists c' : console,
    console_hist_move cfg ANSI_UP c = Some c'
    /\ line_ok cfg c' = true
    /\ line_text c' = t
    /\ cur c' = Z.of_nat (length t)
    /\ trailing_chars c' = 0
    /\ output c'
       = output c ++ cursor_move (cur c) ANSI_BACKWARD ++ [ESC; 91; 75]
           ++ (if echo c =? 0 then [] else t)
    /\ hist_entries (history c') = hist_entries (history c)
    /\ curr (sh (history c'))
       = ring_buf_prev (head (sh (history c))) (size (sh (history c))).
Proof.
  intros Hinv Hok Hcurr Hent.
  pose proof (proj1 (line_ok_spec cfg c) Hok)
    as [Hcur [Htr [Hsum [Hlen Hmaxlen]]]].
  hist_inv_elim Hinv.
  set (m := history c) in *. set (h := sh m) in *.
  pose proof (hist_ring_length m ps ltac:(fold h; lia) Hring) as Hrl.
  pose proof (hist_count_bound m ps ltac:(fold h; lia) Hring) as Hcb.
  pose proof (hist_entries_live m ps ltac:(fold h; lia) Hring) as Hlive.
  pose proof (hist_head_at m ltac:(fold h; lia) ltac:(fold h; lia)) as Hhead.
  pose proof (hist_line_at_live m ps ltac:(fold h; lia) ltac:(fold h; lia)
                Hring) as Hat.
  fold h in Hrl, Hcb, Hlive, Hhead, Hat.
  assert (hist_count h = S (length es)) as Hcount.
  { apply (f_equal (@length (list Z))) in Hlive.
    rewrite Hent, length_app, length_map, length_firstn in Hlive.
    cbn [length] in Hlive. lia. }
  set (j := length es) in *.
  set (p := nth j ps O).
  assert (c_string (nth p (console_hist_lines m) []) = t) as Hrowstr.
  { apply (f_equal (fun l => nth j l [])) in Hlive.
    rewrite Hent in Hlive. unfold j in Hlive at 1.
    rewrite nth_middle in Hlive.
    rewrite (nth_indep _ [] (c_string (nth O (console_hist_lines m) [])))
      in Hlive by (rewrite length_map, length_firstn; lia).
    rewrite (map_nth (fun q => c_string (nth q (console_hist_lines m) [])))
      in Hlive.
    rewrite Hlive. unfold p. do 2 f_equal.
    rewrite nth_firstn.
    destruct (Nat.ltb_spec j (hist_count h)); [reflexivity|lia]. }
  assert (p < Z.to_nat (CONSOLE_HISTORY_SIZE cfg))%nat as Hp.
  { rewrite Forall_forall in Hps. apply Hps. apply nth_In. lia. }
  set (row := nth p (console_hist_lines m) []) in *.
  assert (Z.of_nat (length row) = CONSOLE_MAX_INPUT_LEN cfg /\ In 0 row)
    as [Hrowlen' Hnul].
  { rewrite Forall_forall in Hrowlen. apply Hrowlen. apply nth_In. lia. }
  pose proof (c_string_split row Hnul) as Hrow. rewrite Hrowstr in Hrow.
  assert (Z.of_nat (length t) <= CONSOLE_MAX_INPUT_LEN cfg - 1) as Htlen.
  { pose proof (f_equal (@length Z) Hrow) as Hl.
    rewrite length_app in Hl. cbn [length] in Hl. lia. }
  assert (Forall (fun x => x <> 0) t) as Htnz
    by (rewrite <- Hrowstr; apply c_string_no_nul).
  unfold console_hist_move. fold m h.
  change (ANSI_UP =? ANSI_UP) with true. cbv iota.
  rewrite Hcurr, Hhead, Hcount.
  assert ((ring_at (tail h) (size h) (S j) =? tail h) = false) as ->.
  { apply Z.eqb_neq. intros He.
    rewrite <- (ring_at_0 (tail h) (size h)) in He at 2 by lia.
    apply ring_at_inj in He; lia. }
  rewrite ring_buf_prev_ring_at by lia.
  rewrite console_clear_line_form by (console_fields; lia).
  pose proof (ring_at_bound (tail h) (size h) j ltac:(lia)) as Hjb.
  rewrite (nth_error_nth' (lines h) None) by lia.
  fold (line_at h (ring_at (tail h) (size h) j)).
  rewrite Hat by lia. fold p.
  rewrite (nth_error_nth' (console_hist_lines m) []) by lia.
  fold row. rewrite Hrow.
  rewrite (insert_string_form cfg t Hmaxlen Htnz _ []
             (firstn (length t) (input_line c))
             (skipn (length t) (input_line c)));
    try (console_fields; try reflexivity; try lia).
  2: { cbn [app]. now rewrite firstn_skipn. }
  2: { rewrite length_firstn. lia. }
  eexists. split; [reflexivity|].
  console_fields. cbn [app]. rewrite Z.add_0_l.
  split.
  { apply line_ok_spec. console_fields.
    rewrite length_app, length_skipn. lia. }
  split.
  { unfold line_text. console_fields. rewrite Z.add_0_r, Nat2Z.id.
    apply firstn_length_app. }
  split; [reflexivity|]. split; [reflexivity|].
  split; [now rewrite <- !app_assoc|].
  split; reflexivity.
Qed.

(** X15.  A line that [console_hist_add] has put into the history comes
    back with the next [ANSI_UP]: whatever the line being edited holds,
    [console_hist_move] clears it and inserts the characters of the
    trimmed line, which becomes the line being edited with the cursor at
    its end.  No character is read past the NUL of the history row or
    written outside the line. *)
Theorem console_hist_recall (cfg : syscfg) (c : console)
    (buf0 s rest : list Z) :
  hist_inv cfg (history c) ->
  line_ok cfg c = true ->
  Forall (fun x => x <> 0) s ->
  Z.of_nat (length buf0) = CONSOLE_MAX_INPUT_LEN cfg ->
  exists (buf : list Z) (len : Z) (m' : hist_mem),
    trim_whitespace (s ++ 0 :: rest) (CONSOLE_MAX_INPUT_LEN cfg) buf0
    = Some (buf, len)
    /\ console_hist_add cfg buf0 (s ++ 0 :: rest) (history c) = Some m'
    /\ (len <> 0 ->
        exists c' : console,
          console_hist_move cfg ANSI_UP (set_history c m') = Some c'
          /\ line_ok cfg c' = true
          /\ line_text c' = c_string buf
          /\ cur c' = len
          /\ trailing_chars c' = 0
          /\ output c'
             = output c ++ cursor_move (cur c) ANSI_BACKWARD
                 ++ [ESC; 91; 75]
                 ++ (if echo c =? 0 then [] else c_string buf)).
Proof.
  intros Hinv Hok Hs Hbuf0.
  destruct (hist_entries_length cfg (history c) Hinv) as [Hlen Hcn].
  destruct (console_hist_add_core cfg (history c) s rest Hinv Hs)
    as [t [Ht Hadd]].
  destruct (Hadd buf0 Hbuf0)
    as [Htrim [m' [Hm' [Hinv' [Hcurr [Hnil [Hin [Hroom Hfull]]]]]]]].
  exists (t ++ 0 :: skipn (S (length t)) buf0), (Z.of_nat (length t)), m'.
  split; [exact Htrim|]. split; [exact Hm'|].
  intros Hne. rewrite c_string_string by exact Ht.
  assert (t <> []) as Hte by (intros ->; now apply Hne).
  assert (exists x, hist_entries m' = x ++ [t]) as [x Hx].
  { destruct (in_dec (list_eq_dec Z.eq_dec) t (hist_entries (history c)))
      as [Hi|Hni].
    - eexists. now apply Hin.
    - destruct (Nat.eq_dec (length (hist_entries (history c)))
                  (Z.to_nat (CONSOLE_HISTORY_SIZE cfg))) as [Hf|Hr].
      + eexists. now apply Hfull.
      + eexists. apply Hroom; try assumption. lia. }
  destruct (console_hist_move_up_form cfg (set_history c m') x t Hinv' Hok
              Hcurr Hx)
    as [c' [Hmove [Hok' [Htext [Hcur' [Htr' [Hout' _]]]]]]].
  exists c'. now repeat split.
Qed.

Lemma console_hist_recall_witness :
  exists (buf : list Z) (len : Z) (m' : hist_mem),
    trim_whitespace [32; 108; 115; 0; 9] 8 (repeat 7 8) = Some (buf, len)
    /\ console_hist_add small_console (repeat 7 8) [32; 108; 115; 0; 9]
         (console_hist_init small_console) = Some m'
    /\ (len <> 0 ->
        exists c' : console,
          console_hist_move small_console ANSI_UP
            (set_history sample_console m') = Some c'
          /\ line_ok small_console c' = true
          /\ line_text c' = c_string buf
          /\ cur c' = len
          /\ trailing_chars c' = 0
          /\ output c'
             = cursor_move 2 ANSI_BACKWARD ++ [ESC; 91; 75] ++ c_string buf).
Proof.
  exact (console_hist_recall small_console sample_console (repeat 7 8)
           [32; 108; 115] [9]
           (proj1 (console_hist_init_ok small_console ltac:(cbn; lia)
                     ltac:(cbn; lia)))
           eq_refl ltac:(repeat constructor; discriminate) eq_refl).
Defined.

(** ** No access outside the arrays *)

(** A line of the ring is [NULL] or points to a row. *)
Lemma hist_lines_valid (cfg : syscfg) (m : hist_mem) (i : Z) :
  hist_inv cfg m ->
  0 <= i < size (sh m) ->
  exists x : option nat,
    nth_error (lines (sh m)) (Z.to_nat i) = Some x
    /\ forall p, x = Some p ->
         (p < Z.to_nat (CONSOLE_HISTORY_SIZE cfg))%nat.
Proof.
  intros Hinv Hi. hist_inv_elim Hinv.
  pose proof (hist_ring_length m ps ltac:(lia) Hring) as Hrl.
  pose proof (hist_line_at m ps ltac:(lia) ltac:(lia) Hring) as Hat.
  set (j := Z.to_nat ((i - tail (sh m)) mod size (sh m))).
  pose proof (Z.mod_pos_bound (i - tail (sh m)) (size (sh m)) ltac:(lia)).
  assert (ring_at (tail (sh m)) (size (sh m)) j = i) as Hj
    by (apply ring_at_count; lia).
  exists (nth (Z.to_nat i) (lines (sh m)) None).
  split; [apply nth_error_nth'; lia|].
  fold (line_at (sh m) i). rewrite <- Hj, Hat by (unfold j; lia).
  intros p Hp.
  destruct (Nat.lt_ge_cases j (length ps)) as [Hlt|Hge].
  - rewrite app_nth1 in Hp by (rewrite length_map; lia).
    rewrite (nth_indep _ None (Some O)) in Hp by (rewrite length_map; lia).
    rewrite (map_nth Some) in Hp. injection Hp as <-.
    rewrite Forall_forall in Hps. apply Hps. now apply nth_In.
  - rewrite app_nth2 in Hp by (rewrite length_map; lia).
    rewrite length_map in Hp.
    destruct (j - length ps)%nat as [|[|k]]; discriminate.
Qed.

(** The row of a line, inserted into a cleared line. *)
Lemma insert_row_form (cfg : syscfg) (c : console) (row : list Z) :
  line_ok cfg c = true ->
  cur c = 0 -> trailing_chars c = 0 ->
  Z.of_nat (length row) = CONSOLE_MAX_INPUT_LEN cfg ->
  In 0 row ->
  insert_string cfg row c
  = Some (set_output
            (set_input_line
               (set_cur c (Z.of_nat (length (c_string row))))
               (c_string row ++ skipn (length (c_string row)) (input_line c)))
            (output c ++ (if echo c =? 0 then [] else c_string row)))
  /\ Z.of_nat (length (c_string row)) <= CONSOLE_MAX_INPUT_LEN cfg - 1.
Proof.
  intros Hok Hcur Htr Hrowlen Hnul.
  pose proof (proj1 (line_ok_spec cfg c) Hok) as [_ [_ [_ [Hlen Hmax]]]].
  pose proof (c_string_split row Hnul) as Hrow.
  set (t := c_string row) in *.
  assert (Z.of_nat (length t) <= CONSOLE_MAX_INPUT_LEN cfg - 1) as Htlen.
  { pose proof (f_equal (@length Z) Hrow) as Hl.
    rewrite length_app in Hl. cbn [length] in Hl. lia. }
  split; [|exact Htlen].
  rewrite Hrow at 1.
  rewrite (insert_string_form cfg t Hmax (c_string_no_nul row) c []
             (firstn (length t) (input_line c))
             (skipn (length t) (input_line c))).
  - rewrite Hcur, Z.add_0_l. reflexivity.
  - cbn [app]. now rewrite firstn_skipn.
  - rewrite length_firstn. lia.
  - exact Hcur.
  - exact Htr.
  - lia.
Qed.

Lemma console_hist_move_safe (cfg : syscfg) (direction : Z) (c : console) :
  console_ok cfg c ->
  exists c' : console,
    console_hist_move cfg direction c = Some c' /\ console_ok cfg c'.
Proof.
  intros [Hok [Hinv [Hcurr [Hval Hprompt]]]].
  pose proof (proj1 (line_ok_spec cfg c) Hok)
    as [Hcur [Htr [Hsum [Hlen Hmaxlen]]]].
  assert (0 < size (sh (history c)) <= 255) as Hsz.
  { destruct Hinv as [[Hn _] [[Hsize _] _]]. lia. }
  unfold console_hist_move.
  set (h := sh (history c)) in *.
  destruct (curr h =? (if direction =? ANSI_UP then tail h else head h)).
  { exists c. split; [reflexivity|].
    split; [|split; [|split; [|split]]]; assumption. }
  set (curr' := if direction =? ANSI_UP then ring_buf_prev (curr h) (size h)
                else ring_buf_next (curr h) (size h)).
  assert (0 <= curr' < size h) as Hcurr'.
  { unfold curr'. destruct (direction =? ANSI_UP).
    - unfold ring_buf_prev. destruct (Z.eqb_spec (curr h) 0);
        rewrite u8_small by lia; lia.
    - rewrite ring_buf_next_mod by lia. apply Z.mod_pos_bound. lia. }
  rewrite console_clear_line_form by (console_fields; lia).
  destruct (hist_lines_valid cfg (history c) curr' Hinv Hcurr')
    as [x [Hx Hvalid]].
  fold h in Hx. rewrite Hx.
  set (m1 := {| sh := set_curr h curr';
                console_hist_lines := console_hist_lines (history c) |}).
  assert (hist_inv cfg m1) as Hinv1 by exact Hinv.
  destruct x as [p|].
  - specialize (Hvalid p eq_refl).
    assert (length (console_hist_lines (history c))
            = Z.to_nat (CONSOLE_HISTORY_SIZE cfg)) as Hrows by apply Hinv.
    rewrite (nth_error_nth' (console_hist_lines (history c)) []) by lia.
    set (row := nth p (console_hist_lines (history c)) []).
    assert (Z.of_nat (length row) = CONSOLE_MAX_INPUT_LEN cfg /\ In 0 row)
      as [Hrowlen Hnul].
    { assert (Forall (fun r => Z.of_nat (length r) = CONSOLE_MAX_INPUT_LEN cfg
                               /\ In 0 r) (console_hist_lines (history c)))
        as Hall by apply Hinv.
      rewrite Forall_forall in Hall. apply Hall. apply nth_In. lia. }
    destruct (insert_row_form cfg
                (set_output (set_trailing_chars (set_cur (set_history c m1) 0) 0)
                   (output (set_history c m1)
                      ++ cursor_move (cur (set_history c m1)) 68
                      ++ [ESC; 91; 75]))
                row) as [Hins Htlen]; try assumption; try reflexivity.
    { apply line_ok_spec. console_fields. lia. }
    rewrite Hins. eexists. split; [reflexivity|].
    split; [|split; [|split; [|split]]]; console_fields; try assumption.
    apply line_ok_spec. console_fields.
    rewrite length_app, length_skipn. lia.
  - eexists. split; [reflexivity|].
    split; [|split; [|split; [|split]]]; console_fields; try assumption.
    apply line_ok_spec. console_fields. lia.
Qed.

Lemma two_number_seq_some (n1 n2 ch : Z) (o : list Z) :
  ch <> EOF ->
  u32 n1 < 10 ^ 9 \/ u32 n2 < 10 ^ 9 ->
  exists o' : list Z, two_number_seq n1 n2 ch o = Some o'.
Proof.
  intros Hch Hsmall.
  assert (forall n, 0 <= u32 n < 2 ^ 32) as Hu
    by (intros n; unfold u32; apply Z.mod_pos_bound; lia).
  pose proof (Hu n1) as H1. pose proof (Hu n2) as H2.
  destruct (decimal_spec (u32 n1) H1) as [_ [_ [Hl1 _]]].
  destruct (decimal_spec (u32 n2) H2) as [_ [_ [Hl2 _]]].
  destruct (decimal_length (u32 n1)) as [Hs1 _].
  destruct (decimal_length (u32 n2)) as [Hs2 _].
  eexists. apply two_number_seq_spec; [exact Hch|].
  destruct Hsmall as [Hlt|Hlt];
    [specialize (Hs1 ltac:(lia))|specialize (Hs2 ltac:(lia))]; lia.
Qed.

Lemma console_write_nolock_n_some (cnt : nat) :
  forall (str o : list Z),
    (cnt <= length str)%nat ->
    exists o' : list Z, console_write_nolock_n str cnt o = Some o'.
Proof.
  induction cnt as [|cnt IH]; intros str o Hlen.
  - eexists. reflexivity.
  - destruct str as [|ch str]; [cbn [length] in Hlen; lia|].
    cbn [console_write_nolock_n].
    destruct (fst (console_out_nolock ch o) =? EOF).
    + eexists. reflexivity.
    + apply IH. cbn [length] in Hlen. lia.
Qed.

Lemma s32_small (v : Z) : 0 <= v < 2 ^ 32 -> v <> 2 ^ 31 -> - 2 ^ 31 < s32 v < 2 ^ 31.
Proof.
  intros Hv Hne. unfold s32. rewrite u32_fits by exact Hv.
  destruct (Z.ltb_spec v (2 ^ 31)); lia.
Qed.

Lemma handle_dsr_cps_safe (cfg : syscfg) (c : console) :
  console_ok cfg c ->
  (CONSOLE_STICKY_PROMPT cfg && terminal_size_requested c = true ->
   ansi_val c <> 2 ^ 31) ->
  exists c' : console,
    handle_dsr_cps cfg c = Some c' /\ console_ok cfg c'.
Proof.
  intros Hc Hrow. pose proof Hc as [Hok [Hinv [Hcurr [Hval Hprompt]]]].
  pose proof (proj1 (line_ok_spec cfg c) Hok)
    as [Hcur [Htr [Hsum [Hlen Hmaxlen]]]].
  unfold handle_dsr_cps.
  destruct (CONSOLE_STICKY_PROMPT cfg && terminal_size_requested c);
    [|exists c; now split].
  specialize (Hrow eq_refl).
  pose proof (s32_small (ansi_val c) Hval Hrow) as Hs.
  console_fields.
  destruct (Z.ltb_spec (s32 (ansi_val c) - 1) (- 2 ^ 31)); [lia|].
  assert (u32 1 < 10 ^ 9) as Hone by (vm_compute; reflexivity).
  unfold cursor_set, set_scrolling_region, console_cursor_set,
    console_set_scrolling_region.
  destruct (two_number_seq_some (s32 (ansi_val c) - 1) 1 72 (output c))
    as [o2 Ho2]; [discriminate|now right|].
  console_fields. rewrite Ho2. cbn [option_map].
  unfold cursor_save. console_fields.
  destruct (two_number_seq_some 1 (s32 (ansi_val c) - 1) 114
              (((o2 ++ [ESC]) ++ [91]) ++ [115]))
    as [o3 Ho3]; [discriminate|now left|].
  rewrite Ho3. cbn [option_map]. console_fields.
  destruct (Z.eqb_spec (prompt_len c) 0).
  { eexists. split; [reflexivity|]. unfold cursor_restore.
    split; [|split; [|split; [|split]]]; console_fields; assumption. }
  destruct (two_number_seq_some (s32 (ansi_val c)) 1 72 o3)
    as [o4 Ho4]; [discriminate|now right|].
  rewrite Ho4. cbn [option_map]. console_fields.
  destruct (console_write_nolock_n_some (Z.to_nat (prompt_len c))
              (console_prompt c) o4 ltac:(lia)) as [o5 Ho5].
  rewrite Ho5.
  destruct (console_write_nolock_n_some
              (Z.to_nat (cur c + trailing_chars c)) (input_line c) o5
              ltac:(lia)) as [o6 Ho6].
  rewrite Ho6. unfold console_write_str. console_fields.
  rewrite move_backward_spec by (console_fields; lia).
  cbn [option_map]. eexists. split; [reflexivity|].
  unfold cursor_restore.
  split; [|split; [|split; [|split]]]; console_fields; assumption.
Qed.

Lemma handle_delete_safe (cfg : syscfg) (c : console) :
  console_ok cfg c ->
  exists c' : console, handle_delete c = Some c' /\ console_ok cfg c'.
Proof.
  intros Hc. pose proof Hc as [Hok [Hinv [Hcurr [Hval Hprompt]]]].
  destruct (line_split cfg c Hok)
    as [before [after [rest [Hline [Hcur [Htr [Htext Hrest]]]]]]].
  pose proof (proj1 (line_ok_spec cfg c) Hok) as [_ [_ [Hsum [Hlen Hmax]]]].
  unfold handle_delete.
  destruct (Z.eqb_spec (trailing_chars c) 0) as [Hz|Hnz]; [now exists c|].
  destruct after as [|x after]; [cbn [length] in Htr; lia|].
  replace (Z.to_nat (cur c)) with (length before) by lia.
  cbn [app] in Hline.
  rewrite (del_char_form c before after rest x Hline Htr ltac:(lia)).
  eexists. split; [reflexivity|].
  assert (length (input_line c)
          = (length before + S (length after + length rest))%nat) as Hl
    by (rewrite Hline, !length_app; cbn [length];
        rewrite length_app; reflexivity).
  split; [|split; [|split; [|split]]]; console_fields; try assumption.
  apply line_ok_spec. console_fields.
  rewrite !length_app. cbn [length]. lia.
Qed.

Lemma ansi_cmd_safe (cfg : syscfg) (byte : Z) (c : console) :
  console_ok cfg c ->
  (byte = DSR_CPS ->
   CONSOLE_STICKY_PROMPT cfg && terminal_size_requested c = true ->
   ansi_val c <> 2 ^ 31) ->
  exists c' : console, ansi_cmd cfg byte c = Some c' /\ console_ok cfg c'.
Proof.
  intros Hc Hrow. pose proof Hc as [Hok [Hinv [Hcurr [Hval Hprompt]]]].
  pose proof (proj1 (line_ok_spec cfg c) Hok)
    as [Hcur [Htr [Hsum [Hlen Hmaxlen]]]].
  assert (forall r : option console,
            (exists c1, r = Some c1 /\ console_ok cfg c1) ->
            exists c', option_map
                         (fun c' => set_esc_state c'
                                      (Z.land (esc_state c') (Z.lnot ESC_ANSI)))
                         r = Some c' /\ console_ok cfg c') as Hwrap.
  { intros r [c1 [-> Hc1]]. eexists. split; [reflexivity|]. exact Hc1. }
  unfold ansi_cmd. apply Hwrap. clear Hwrap.
  destruct (((byte =? ANSI_UP) || (byte =? ANSI_DOWN))
            && (CONSOLE_HISTORY_SIZE cfg >? 0)).
  { now apply console_hist_move_safe. }
  destruct (byte =? ANSI_BACKWARD).
  { destruct (Z.gtb_spec (ansi_val c) (cur c)); [now exists c|].
    console_fields. rewrite move_backward_spec by (console_fields; lia).
    eexists. split; [reflexivity|].
    split; [|split; [|split; [|split]]]; console_fields; try assumption.
    apply line_ok_spec. console_fields. rewrite !u16_small by lia. lia. }
  destruct (byte =? ANSI_FORWARD).
  { destruct (Z.gtb_spec (ansi_val c) (trailing_chars c)); [now exists c|].
    console_fields. rewrite move_forward_spec by (console_fields; lia).
    eexists. split; [reflexivity|].
    split; [|split; [|split; [|split]]]; console_fields; try assumption.
    apply line_ok_spec. console_fields. rewrite !u16_small by lia. lia. }
  assert (exists c1, handle_home c = Some c1 /\ console_ok cfg c1) as Hhome.
  { rewrite handle_home_form by lia. eexists. split; [reflexivity|].
    split; [|split; [|split; [|split]]]; console_fields; try assumption.
    apply line_ok_spec. console_fields. lia. }
  assert (exists c1, handle_end c = Some c1 /\ console_ok cfg c1) as Hend.
  { rewrite handle_end_form by lia. eexists. split; [reflexivity|].
    split; [|split; [|split; [|split]]]; console_fields; try assumption.
    apply line_ok_spec. console_fields. lia. }
  destruct (byte =? ANSI_HOME); [exact Hhome|].
  destruct (byte =? ANSI_END); [exact Hend|].
  destruct (byte =? ANSI_DEL).
  { destruct (ansi_val c =? 1); [exact Hhome|].
    destruct (ansi_val c =? 3).
    - now apply handle_delete_safe.
    - destruct (ansi_val c =? 4); [exact Hend|now exists c]. }
  destruct (Z.eqb_spec byte DSR_CPS) as [He|_]; [|now exists c].
  apply handle_dsr_cps_safe; [exact Hc|]. now apply Hrow.
Qed.

(** X16.  Whatever byte arrives, [handle_ansi] keeps the console in order
    and reads and writes nothing outside the line, the history and the
    prompt: the line stays within its array with room for the NUL, the
    history keeps its invariant, the sequences built in [seq] fit.  The
    one exception is a cursor position report ([DSR_CPS]) for row 2^31
    while the terminal size is awaited with a sticky prompt. *)
Theorem handle_ansi_safe (cfg : syscfg) (byte : Z) (c : console) :
  console_ok cfg c ->
  (byte = DSR_CPS ->
   CONSOLE_STICKY_PROMPT cfg && terminal_size_requested c = true ->
   Z.land (esc_state c) ESC_ANSI_FIRST = 0 ->
   ansi_val c <> 2 ^ 31) ->
  exists c' : console, handle_ansi cfg byte c = Some c' /\ console_ok cfg c'.
Proof.
  intros Hc Hrow. pose proof Hc as [Hok [Hinv [Hcurr [Hval Hprompt]]]].
  assert (forall v, 0 <= u32 v < 2 ^ 32) as Hu
    by (intros v; unfold u32; apply Z.mod_pos_bound; lia).
  unfold handle_ansi.
  destruct (Z.eqb_spec (Z.land (esc_state c) ESC_ANSI_FIRST) 0) as [Hfirst|_];
    cbn [negb].
  - destruct (Z.land (esc_state c) ESC_ANSI_VAL =? 0); cbn [negb].
    + apply ansi_cmd_safe; [exact Hc|]. intros Hb Hs. now apply Hrow.
    + destruct (isdigit byte).
      * destruct (Z.land (esc_state c) ESC_ANSI_VAL_2 =? 0); cbn [negb];
          (eexists; split; [reflexivity|]);
          (split; [|split; [|split; [|split]]]); console_fields;
          try assumption; apply Hu.
      * destruct ((byte =? 59) && (Z.land (esc_state c) ESC_ANSI_VAL_2 =? 0)).
        { eexists. split; [reflexivity|]. exact Hc. }
        apply ansi_cmd_safe; [exact Hc|]. intros Hb Hs. now apply Hrow.
  - destruct (isdigit byte); cbn [negb].
    + eexists. split; [reflexivity|].
      split; [|split; [|split; [|split]]]; console_fields;
        try assumption; apply Hu.
    + apply ansi_cmd_safe.
      * split; [|split; [|split; [|split]]]; console_fields;
          try assumption; lia.
      * intros _ _. console_fields. discriminate.
Qed.

Lemma sample_console_ok : console_ok small_console sample_console.
Proof.
  split; [reflexivity|].
  split; [apply console_hist_init_ok; cbn; lia|].
  cbn. lia.
Qed.

Lemma handle_ansi_safe_witness :
  exists c' : console,
    handle_ansi small_console ANSI_UP sample_console = Some c'
    /\ console_ok small_console c'.
Proof.
  exact (handle_ansi_safe small_console ANSI_UP sample_console
           sample_console_ok
           ltac:(intros Hb; discriminate Hb)).
Defined.

(** X17.  With a sticky prompt and the terminal size awaited, the cursor
    position report [ESC \[ 2147483648 R] leaves 2^31 in [ansi_val]; its
    conversion to [int] is the least [int], and [max_row - 1] overflows. *)
Theorem dsr_row_overflow (cfg : syscfg) (c : console) :
  CONSOLE_STICKY_PROMPT cfg = true ->
  terminal_size_requested c = true ->
  esc_state c = Z.lor ESC_ANSI ESC_ANSI_FIRST ->
  handle_ansi_bytes cfg (decimal (2 ^ 31) ++ [DSR_CPS]) c = None.
Proof.
  intros Hsticky Hreq Hesc.
  rewrite handle_ansi_bytes_app.
  rewrite (handle_ansi_number cfg (2 ^ 31) c ltac:(lia) Hesc).
  cbn [handle_ansi_bytes]. console_fields.
  change (Z.land (Z.lor ESC_ANSI ESC_ANSI_VAL) ESC_ANSI =? 0) with false.
  rewrite handle_ansi_command by (console_fields; reflexivity || discriminate).
  unfold ansi_cmd.
  change ((DSR_CPS =? ANSI_UP) || (DSR_CPS =? ANSI_DOWN)) with false.
  change (DSR_CPS =? ANSI_BACKWARD) with false.
  change (DSR_CPS =? ANSI_FORWARD) with false.
  change (DSR_CPS =? ANSI_HOME) with false.
  change (DSR_CPS =? ANSI_END) with false.
  change (DSR_CPS =? ANSI_DEL) with false.
  change (DSR_CPS =? DSR_CPS) with true.
  cbn [andb]. unfold handle_dsr_cps. console_fields.
  rewrite Hsticky, Hreq. cbn [andb].
  change (s32 (2 ^ 31) - 1 <? - 2 ^ 31) with true. reflexivity.
Qed.

Lemma dsr_row_overflow_witness :
  handle_ansi_bytes sticky_console (decimal (2 ^ 31) ++ [DSR_CPS])
    (set_esc_state (set_terminal_size_requested sample_console true) 6)
  = None.
Proof.
  exact (dsr_row_overflow sticky_console
           (set_esc_state (set_terminal_size_requested sample_console true) 6)
           eq_refl eq_refl eq_refl).
Defined.

(** A command right after [ESC \[]. *)
Lemma handle_ansi_first_command (cfg : syscfg) (byte : Z) (c : console) :
  esc_state c = Z.lor ESC_ANSI ESC_ANSI_FIRST ->
  isdigit byte = false ->
  handle_ansi cfg byte c
  = ansi_cmd cfg byte (set_ansi_val (set_esc_state c ESC_ANSI) 1).
Proof.
  intros Hesc Hd. unfold handle_ansi. rewrite Hesc, Hd.
  change (Z.land (Z.lor ESC_ANSI ESC_ANSI_FIRST) ESC_ANSI_FIRST =? 0)
    with false.
  cbn [negb]. reflexivity.
Qed.

Lemma ansi_delete_form (cfg : syscfg) (c : console) :
  ansi_val c = 3 ->
  ansi_cmd cfg ANSI_DEL c
  = option_map
      (fun c' => set_esc_state c' (Z.land (esc_state c') (Z.lnot ESC_ANSI)))
      (handle_delete c).
Proof.
  intros Hval. unfold ansi_cmd. rewrite Hval. reflexivity.
Qed.

Lemma ansi_left_one (cfg : syscfg) (c : console) :
  0 <= trailing_chars c -> 1 <= cur c ->
  cur c + trailing_chars c < 65536 ->
  handle_ansi_bytes cfg [ANSI_BACKWARD]
    (set_esc_state c (Z.lor ESC_ANSI ESC_ANSI_FIRST))
  = Some (set_esc_state
            (set_output
               (set_cur
                  (set_trailing_chars (set_ansi_val c 1)
                     (trailing_chars c + 1))
                  (cur c - 1))
               (output c ++ cursor_move 1 68))
            0).
Proof.
  intros Htr Hcur Hsum. cbn [handle_ansi_bytes]. console_fields.
  change (Z.land (Z.lor ESC_ANSI ESC_ANSI_FIRST) ESC_ANSI =? 0) with false.
  cbv iota.
  rewrite handle_ansi_first_command by reflexivity.
  rewrite ansi_backward_form by (console_fields; reflexivity || lia).
  console_fields. apply f_equal. clear.
  console_ext c; reflexivity.
Qed.

Lemma ansi_delete_seq (cfg : syscfg) (c : console) :
  handle_ansi_bytes cfg [51; ANSI_DEL]
    (set_esc_state c (Z.lor ESC_ANSI ESC_ANSI_FIRST))
  = option_map
      (fun c' => set_esc_state c' (Z.land (esc_state c') (Z.lnot ESC_ANSI)))
      (handle_delete
         (set_ansi_val_2 (set_ansi_val (set_esc_state c ESC_ANSI) 3) 0)).
Proof.
  change [51; ANSI_DEL] with (decimal 3 ++ [ANSI_DEL]).
  rewrite handle_ansi_bytes_app.
  rewrite (handle_ansi_number cfg 3) by (reflexivity || lia).
  cbn [handle_ansi_bytes]. console_fields.
  change (Z.land (Z.lor ESC_ANSI ESC_ANSI_VAL) ESC_ANSI =? 0) with false.
  cbv iota.
  rewrite handle_ansi_command by (console_fields; reflexivity || discriminate).
  rewrite ansi_delete_form by reflexivity.
  console_fields.
  replace (set_esc_state
             (set_ansi_val_2
                (set_ansi_val
                   (set_esc_state
                      (set_esc_state c (Z.lor ESC_ANSI ESC_ANSI_FIRST))
                      (Z.lor ESC_ANSI ESC_ANSI_VAL))
                   3)
                0)
             ESC_ANSI)
    with (set_ansi_val_2 (set_ansi_val (set_esc_state c ESC_ANSI) 3) 0)
    by (clear; console_ext c; reflexivity).
  destruct (handle_delete _); reflexivity.
Qed.

(** X18.  A character typed, the cursor moved one place back
    ([ESC \[ D]) and the character under it deleted ([ESC \[ 3 ~]): the
    line and the cursor are as before. *)
Theorem insert_then_delete (cfg : syscfg) (c : console) (x : Z) :
  line_ok cfg c = true ->
  cur c + trailing_chars c < CONSOLE_MAX_INPUT_LEN cfg - 1 ->
  exists c1 c2 c3 : console,
    insert_char cfg (Z.to_nat (cur c)) x c = Some c1
    /\ handle_ansi_bytes cfg [ANSI_BACKWARD]
         (set_esc_state c1 (Z.lor ESC_ANSI ESC_ANSI_FIRST)) = Some c2
    /\ handle_ansi_bytes cfg [51; ANSI_DEL]
         (set_esc_state c2 (Z.lor ESC_ANSI ESC_ANSI_FIRST)) = Some c3
    /\ line_ok cfg c3 = true
    /\ line_text c3 = line_text c
    /\ cur c3 = cur c
    /\ trailing_chars c3 = trailing_chars c.
Proof.
  intros Hok Hroom.
  destruct (line_split cfg c Hok)
    as [before [after [rest [Hline [Hcur [Htr [Htext Hrest]]]]]]].
  pose proof (proj1 (line_ok_spec cfg c) Hok) as [_ [_ [Hsum [Hlen Hmax]]]].
  destruct rest as [|r0 rest]; [contradiction|].
  replace (Z.to_nat (cur c)) with (length before) by lia.
  rewrite (insert_char_form cfg c before after rest r0 x Hline Hcur Htr
             Hroom Hmax).
  eexists. eexists. eexists. split; [reflexivity|].
  rewrite ansi_left_one by (console_fields; lia).
  split; [reflexivity|].
  rewrite ansi_delete_seq.
  unfold handle_delete. console_fields.
  destruct (Z.eqb_spec (trailing_chars c + 1) 0); [lia|].
  replace (Z.to_nat (cur c + 1 - 1)) with (length before) by lia.
  rewrite (del_char_form _ before after rest x);
    [|reflexivity|console_fields; lia|console_fields; lia].
  cbn [option_map]. split; [reflexivity|].
  assert (length (input_line c)
          = (length before + (length after + S (length rest)))%nat) as Hl
    by (rewrite Hline, !length_app; reflexivity).
  split.
  { apply line_ok_spec. console_fields.
    rewrite !length_app. cbn [length]. lia. }
  split.
  { rewrite (line_text_of _ before after (last after x :: rest));
      [symmetry; exact Htext|reflexivity|console_fields; lia
      |console_fields; lia]. }
  console_fields. split; lia.
Qed.

Lemma insert_then_delete_witness :
  exists c1 c2 c3 : console,
    insert_char small_console 2 120 sample_console = Some c1
    /\ handle_ansi_bytes small_console [ANSI_BACKWARD]
         (set_esc_state c1 6) = Some c2
    /\ handle_ansi_bytes small_console [51; ANSI_DEL]
         (set_esc_state c2 6) = Some c3
    /\ line_ok small_console c3 = true
    /\ line_text c3 = [104; 105; 33]
    /\ cur c3 = 2
    /\ trailing_chars c3 = 1.
Proof.
  exact (insert_then_delete small_console sample_console 120 eq_refl
           ltac:(cbn; lia)).
Defined.
